(** * fastmail-mcp: the mail, calendar and contact tool layer

    A shallow embedding of the pure and protocol-level code of
    [packages/fastmail-mcp/src]: the JMAP send pipeline and the mailbox and
    message operations ([jmap/client.ts]), the mailbox and calendar guards
    and the tools of [index.ts], the timezone resolver ([dav/timezone.ts]),
    the iCalendar and vCard codecs ([dav/ical.ts], [dav/vcard.ts]), and the
    configuration ([config.ts]).

    Text is a sequence of 8-bit code units: a JavaScript string whose
    UTF-16 code units all lie in the Latin-1 range.  Within that range the
    white space of [String.prototype.trim] and of the regex class [\s] is
    TAB, LF, VT, FF, CR, SPACE and NBSP, and the line terminators that [.]
    refuses are LF and CR. *)

From Stdlib Require Import ZArith NArith List String Ascii Bool Lia Arith DecimalString.
From Equations Require Import Equations.
Import ListNotations.
Open Scope string_scope.

(** ** Outcomes of calls that may throw *)

Inductive outcome (E A : Type) : Type :=
| Ok (a : A)
| Throw (e : E).
Arguments Ok {E A} a.
Arguments Throw {E A} e.

Definition obind {E A B} (m : outcome E A) (k : A -> outcome E B) : outcome E B :=
  match m with
  | Ok a => k a
  | Throw e => Throw e
  end.

Definition mapThrow {E F A} (f : E -> F) (m : outcome E A) : outcome F A :=
  match m with
  | Ok a => Ok a
  | Throw e => Throw (f e)
  end.

Declare Scope outcome_scope.
Delimit Scope outcome_scope with outcome.
Notation "'let*' x ':=' m 'in' k" := (obind m (fun x => k))
  (at level 10, x name, m at level 100, k at level 200) : outcome_scope.
Notation "'check' b 'else' e 'in' k" := (if b then k else Throw e)
  (at level 10, b at level 100, e at level 100, k at level 200) : outcome_scope.

(** ** Text primitives *)

Module Text.

Definition LF : ascii := "010"%char.
Definition CR : ascii := "013"%char.
Definition TAB : ascii := "009"%char.
Definition SP : ascii := " "%char.
Definition CRLF : string := String CR (String LF "").

Definition code (c : ascii) : N := N_of_ascii c.

(** WhiteSpace and LineTerminator code points below 256. *)
Definition isWhiteSpace (c : ascii) : bool :=
  let n := code c in
  ((9 <=? n) && (n <=? 13) || (n =? 32) || (n =? 160))%N.

(** The Latin-1 characters [.] does not match.  It refuses U+2028 and
    U+2029 as well; they lie outside the texts modelled here. *)
Definition isLineTerminator (c : ascii) : bool :=
  Ascii.eqb c LF || Ascii.eqb c CR.

Definition isDigit (c : ascii) : bool :=
  let n := code c in ((48 <=? n) && (n <=? 57))%N.

(** [String.prototype.toLowerCase] on Latin-1: A-Z and the accented
    capitals U+00C0..U+00DE (U+00D7, the multiplication sign, apart). *)
Definition toLowerChar (c : ascii) : ascii :=
  let n := code c in
  if ((65 <=? n) && (n <=? 90))%N then ascii_of_N (n + 32)
  else if ((192 <=? n) && (n <=? 222) && negb (n =? 215))%N then ascii_of_N (n + 32)
  else c.

Fixpoint toLowerCase (s : string) : string :=
  match s with
  | EmptyString => EmptyString
  | String c r => String (toLowerChar c) (toLowerCase r)
  end.

Fixpoint trimStart (s : string) : string :=
  match s with
  | EmptyString => EmptyString
  | String c r => if isWhiteSpace c then trimStart r else s
  end.

Fixpoint trimEnd (s : string) : string :=
  match s with
  | EmptyString => EmptyString
  | String c r =>
      match trimEnd r with
      | EmptyString => if isWhiteSpace c then EmptyString else String c EmptyString
      | r' => String c r'
      end
  end.

Definition trim (s : string) : string := trimEnd (trimStart s).

(** [s.slice(0, n)] and [s.slice(n)] for [0 <= n]. *)
Fixpoint take (n : nat) (s : string) : string :=
  match n, s with
  | S k, String c r => String c (take k r)
  | _, _ => EmptyString
  end.

Fixpoint drop (n : nat) (s : string) : string :=
  match n, s with
  | S k, String _ r => drop k r
  | _, _ => s
  end.

(** [s.startsWith(p)], returning what follows the prefix. *)
Fixpoint dropPrefix (p s : string) : option string :=
  match p with
  | EmptyString => Some s
  | String a p' =>
      match s with
      | String b s' => if Ascii.eqb a b then dropPrefix p' s' else None
      | EmptyString => None
      end
  end.

Definition startsWith (p s : string) : bool :=
  match dropPrefix p s with Some _ => true | None => false end.

(** [s.includes(p)]. *)
Fixpoint includes (p s : string) : bool :=
  startsWith p s ||
  match s with
  | EmptyString => false
  | String _ r => includes p r
  end.

(** [parts.join(sep)]. *)
Fixpoint join (sep : string) (parts : list string) : string :=
  match parts with
  | [] => EmptyString
  | [p] => p
  | p :: ps => p ++ sep ++ join sep ps
  end.

(** A string used as a condition: non-empty. *)
Definition nonEmpty (s : string) : bool :=
  match s with EmptyString => false | _ => true end.

(** An optional string used as a condition: present and non-empty. *)
Definition truthy (o : option string) : bool :=
  match o with Some s => nonEmpty s | None => false end.

(** [o || ''] *)
Definition orEmpty (o : option string) : string :=
  match o with Some s => s | None => EmptyString end.

Fixpoint forallb (p : ascii -> bool) (s : string) : bool :=
  match s with
  | EmptyString => true
  | String c r => p c && forallb p r
  end.

Definition mem (s : string) (l : list string) : bool :=
  existsb (String.eqb s) l.

(** [v.replace(/c/g, by)] for a one-character pattern. *)
Fixpoint replaceChar (c : ascii) (by_ : string) (v : string) : string :=
  match v with
  | EmptyString => EmptyString
  | String a r => (if Ascii.eqb a c then by_ else String a EmptyString) ++ replaceChar c by_ r
  end.

End Text.
Import Text.

(** ** JMAP mail: [jmap/client.ts] and the mailbox guard of [index.ts] *)

Module Jmap.

Record mailbox := {
  mb_id : string;
  mb_role : option string;   (* [None]: null or not a string *)
  mb_name : option string
}.

Record identity := {
  idn_id : string;
  idn_email : option string;
  idn_mayDelete : option bool  (* [None]: absent *)
}.

Inductive error :=
| SessionFailed (status : Z)
| RequestFailed (status : Z)
| MailboxNotFound (id : string)
| ProtectedRole (role : string)
| ProtectedName (name : string)
| NoIdentities
| NoMatchingIdentity
| MissingBody
| DraftsNotFound
| SentNotFound
| SubmissionFailed.

Definition PROTECTED_MAILBOX_ROLES : list string :=
  ["inbox"; "spam"; "trash"; "sent"; "drafts"; "archive"; "junk"].

Definition PROTECTED_MAILBOX_NAMES : list string :=
  ["inbox"; "spam"; "junk"; "trash"; "sent"; "drafts"; "archive"].

(** [typeof v === 'string' ? v.trim().toLowerCase() : ''] *)
Definition normalized (v : option string) : string :=
  match v with
  | Some s => toLowerCase (trim s)
  | None => EmptyString
  end.

Definition assertMailboxCanBeDeleted (mailboxes : list mailbox) (mailboxId : string)
  : outcome error unit :=
  match find (fun m => String.eqb (mb_id m) mailboxId) mailboxes with
  | None => Throw (MailboxNotFound mailboxId)
  | Some mailbox =>
      let role := normalized (mb_role mailbox) in
      if nonEmpty role && mem role PROTECTED_MAILBOX_ROLES
      then Throw (ProtectedRole (orEmpty (mb_role mailbox)))
      else
        let name := normalized (mb_name mailbox) in
        if negb (nonEmpty role) && nonEmpty name && mem name PROTECTED_MAILBOX_NAMES
        then Throw (ProtectedName (orEmpty (mb_name mailbox)))
        else Ok tt
  end.

(** *** [sendEmail] *)

Record sendInput := {
  in_to : list string;
  in_cc : option (list string);
  in_bcc : option (list string);
  in_from : option string;
  in_subject : string;
  in_textBody : option string;
  in_htmlBody : option string
}.

(** The two method calls of the batch, reduced to the fields the client
    fills in. *)
Record emailObject := {
  eo_mailboxIds : list string;
  eo_draft : bool;
  eo_from : option string;
  eo_to : list string;
  eo_cc : list string;
  eo_bcc : list string;
  eo_subject : string;
  eo_textBody : option string;
  eo_htmlBody : option string
}.

Record submission := {
  sub_emailRef : string;
  sub_identityId : string;
  sub_mailFrom : option string;
  sub_rcptTo : list string;
  sub_onSuccessRef : string;
  sub_onSuccessMailboxIds : list string;
  sub_onSuccessSeen : bool
}.

Record sendRequest := {
  rq_accountId : string;
  rq_create : emailObject;
  rq_submit : submission
}.

Record sendResponse := {
  rs_createdEmailId : option string;
  rs_submissionId : option string
}.

(** The server as the client sees it; a failure is an HTTP status. *)
Record server := {
  srv_session : outcome Z string;
  srv_identities : outcome Z (list identity);
  srv_mailboxes : outcome Z (list mailbox);
  srv_send : sendRequest -> outcome Z sendResponse
}.

Definition emailMatches (from : string) (i : identity) : bool :=
  String.eqb (toLowerCase (orEmpty (idn_email i))) (toLowerCase from).

Definition isPrimary (i : identity) : bool :=
  match idn_mayDelete i with Some false => true | _ => false end.

(** [input.from ? identities.find(...) : identities.find(...) || identities[0]] *)
Definition selectIdentity (identities : list identity) (from : option string)
  : option identity :=
  if truthy from
  then find (emailMatches (orEmpty from)) identities
  else match find isPrimary identities with
       | Some i => Some i
       | None => hd_error identities
       end.

(** [mailboxes.find(role === r) || mailboxes.find(/pat/i.test(name || ''))] *)
Definition findMailbox (role pat : string) (mailboxes : list mailbox) : option mailbox :=
  match find (fun m => match mb_role m with Some r => String.eqb r role | None => false end)
             mailboxes with
  | Some m => Some m
  | None => find (fun m => includes pat (toLowerCase (orEmpty (mb_name m)))) mailboxes
  end.

Definition bodyPart (b : option string) : option string :=
  if truthy b then b else None.

Local Open Scope outcome_scope.

(** The source has a second guard after the selection,
    [if (input.from && !selectedIdentity) throw ...]; it stands behind
    [if (!selectedIdentity) throw ...] and can never fire. *)
Definition sendEmail (srv : server) (input : sendInput)
  : outcome error (string * option string) :=
  let* accountId := mapThrow SessionFailed (srv_session srv) in
  let* identities := mapThrow RequestFailed (srv_identities srv) in
  check negb (Nat.eqb (List.length identities) 0) else NoIdentities in
  match selectIdentity identities (in_from input) with
  | None => Throw NoMatchingIdentity
  | Some selectedIdentity =>
      check truthy (in_textBody input) || truthy (in_htmlBody input) else MissingBody in
      let* mailboxes := mapThrow RequestFailed (srv_mailboxes srv) in
      match findMailbox "drafts" "draft" mailboxes with
      | None => Throw DraftsNotFound
      | Some drafts =>
          match findMailbox "sent" "sent" mailboxes with
          | None => Throw SentNotFound
          | Some sent =>
              let emailObj := {|
                eo_mailboxIds := [mb_id drafts];
                eo_draft := true;
                eo_from := idn_email selectedIdentity;
                eo_to := in_to input;
                eo_cc := match in_cc input with Some l => l | None => [] end;
                eo_bcc := match in_bcc input with Some l => l | None => [] end;
                eo_subject := in_subject input;
                eo_textBody := bodyPart (in_textBody input);
                eo_htmlBody := bodyPart (in_htmlBody input) |} in
              let req := {|
                rq_accountId := accountId;
                rq_create := emailObj;
                rq_submit := {|
                  sub_emailRef := "#draft";
                  sub_identityId := idn_id selectedIdentity;
                  sub_mailFrom := idn_email selectedIdentity;
                  sub_rcptTo := in_to input;
                  sub_onSuccessRef := "#draft";
                  sub_onSuccessMailboxIds := [mb_id sent];
                  sub_onSuccessSeen := true |} |} in
              let* res := mapThrow RequestFailed (srv_send srv req) in
              match rs_submissionId res with
              | Some submissionId =>
                  if nonEmpty submissionId
                  then Ok (submissionId, rs_createdEmailId res)
                  else Throw SubmissionFailed
              | None => Throw SubmissionFailed
              end
          end
      end
  end.

End Jmap.

(** ** Dates: the ECMAScript time value

    A time value is a number of milliseconds since the epoch, in UTC.  The
    day arithmetic is that of the proleptic Gregorian calendar, as
    [Date.UTC], [getUTCFullYear] and the like compute it. *)

Module JsDate.
Local Open Scope Z_scope.

Definition msPerSecond : Z := 1000.
Definition msPerMinute : Z := 60000.
Definition msPerDay : Z := 86400000.

(** Day number of the civil date [y]-[m]-[d], month [m] in 1..12. *)
Definition daysFromCivil (y m d : Z) : Z :=
  let y' := if m <=? 2 then y - 1 else y in
  let era := y' / 400 in
  let yoe := y' - era * 400 in
  let doy := (153 * (if 2 <? m then m - 3 else m + 9) + 2) / 5 + d - 1 in
  let doe := yoe * 365 + yoe / 4 - yoe / 100 + doy in
  era * 146097 + doe - 719468.

(** The civil date of a day number. *)
Definition civilFromDays (z : Z) : Z * Z * Z :=
  let z' := z + 719468 in
  let era := z' / 146097 in
  let doe := z' - era * 146097 in
  let yoe := (doe - doe / 1460 + doe / 36524 - doe / 146096) / 365 in
  let doy := doe - (365 * yoe + yoe / 4 - yoe / 100) in
  let mp := (5 * doy + 2) / 153 in
  let d := doy - (153 * mp + 2) / 5 + 1 in
  let m := if mp <? 10 then mp + 3 else mp - 9 in
  ((yoe + era * 400 + (if m <=? 2 then 1 else 0)), m, d).

(** [Date.UTC(year, month, date, hours, minutes, seconds)]: [month] is
    zero-based and may lie outside 0..11; a year in 0..99 means 1900+year. *)
Definition UTC (year month date hours minutes seconds : Z) : Z :=
  let yr := if (0 <=? year) && (year <=? 99) then 1900 + year else year in
  let ym := yr + month / 12 in
  let mn := month mod 12 in
  let day := daysFromCivil ym (mn + 1) 1 + date - 1 in
  day * msPerDay + hours * 3600000 + minutes * msPerMinute + seconds * msPerSecond.

Record fields := {
  f_year : Z; f_month : Z (* 1..12 *); f_day : Z;
  f_hours : Z; f_minutes : Z; f_seconds : Z; f_ms : Z
}.

(** [getUTCFullYear()], [getUTCMonth() + 1], [getUTCDate()], ... *)
Definition utcFields (t : Z) : fields :=
  let day := t / msPerDay in
  let inDay := t mod msPerDay in
  let '(y, m, d) := civilFromDays day in
  {| f_year := y; f_month := m; f_day := d;
     f_hours := inDay / 3600000;
     f_minutes := (inDay / msPerMinute) mod 60;
     f_seconds := (inDay / msPerSecond) mod 60;
     f_ms := inDay mod 1000 |}.

(** [String(n)] for an integer. *)
Definition decimal (n : Z) : string :=
  DecimalString.NilZero.string_of_int (Z.to_int n).

(** [String(n).padStart(w, '0')] *)
Definition padStart (w : nat) (s : string) : string :=
  String.concat "" (repeat "0" (w - String.length s)) ++ s.

Definition pad (w : nat) (n : Z) : string := padStart w (decimal n).

(** [toISOString()]: four-digit years, six digits and a sign outside
    0..9999. *)
Definition toISOString (t : Z) : string :=
  let f := utcFields t in
  let year :=
    if (0 <=? f_year f) && (f_year f <=? 9999) then pad 4 (f_year f)
    else (if f_year f <? 0 then "-" else "+") ++ pad 6 (Z.abs (f_year f)) in
  year ++ "-" ++ pad 2 (f_month f) ++ "-" ++ pad 2 (f_day f) ++ "T" ++
  pad 2 (f_hours f) ++ ":" ++ pad 2 (f_minutes f) ++ ":" ++ pad 2 (f_seconds f) ++
  "." ++ pad 3 (f_ms f) ++ "Z".

End JsDate.

(** ** The timezone resolver: [dav/timezone.ts] *)

Module Timezone.
Local Open Scope Z_scope.

Inductive error :=
| InvalidNaiveDatetime (naive : string)
| InvalidTimeZone (tzId : string).

(** What the host's [Intl] provides. *)
Record host := {
  (** the tz database: the UTC offset, in minutes, that a zone has at an
      instant; [None] for an identifier [Intl] refuses *)
  zoneOffset : string -> option (Z -> Z);
  (** the identifier of the host's own zone *)
  machineTimezone : string;
  (** the offset, in minutes, with which [new Date(text)] reads the civil
      date and time [text] (given as the time value it would have in UTC)
      in the host's own zone *)
  localOffset : Z -> Z
}.

Section Resolver.
Variable H : host.

Definition getMachineTimezone : string := machineTimezone H.

Definition isValidTimezone (tz : string) : bool :=
  match zoneOffset H tz with Some _ => true | None => false end.

(** [[^\r\n]+], greedy. *)
Fixpoint lineRun (s : string) : string :=
  match s with
  | EmptyString => EmptyString
  | String c r => if isLineTerminator c then EmptyString else String c (lineRun r)
  end.

(** [/TZID:([^\r\n]+)/] tried at the start of [s]. *)
Definition tzidHere (s : string) : option string :=
  match dropPrefix "TZID:" s with
  | Some r => match lineRun r with
              | EmptyString => None
              | v => Some v
              end
  | None => None
  end.

(** The leftmost match. *)
Fixpoint tzidMatch (s : string) : option string :=
  match tzidHere s with
  | Some v => Some v
  | None => match s with
            | EmptyString => None
            | String _ r => tzidMatch r
            end
  end.

Definition extractCalendarTimezone (vtimezone : option string) : option string :=
  if truthy vtimezone then
    match tzidMatch (orEmpty vtimezone) with
    | Some v => if nonEmpty (trim v) then Some (trim v) else None
    | None => None
    end
  else None.

Definition resolveTimezone (calendarTimezone : option string) : string :=
  if truthy calendarTimezone then orEmpty calendarTimezone else getMachineTimezone.

(** [/Z$|[+-]\d{2}:\d{2}$/], read on the reversed text. *)
Definition hasTimezoneOffset (datetime : string) : bool :=
  match rev (list_ascii_of_string datetime) with
  | "Z"%char :: _ => true
  | m2 :: m1 :: ":"%char :: h2 :: h1 :: sign :: _ =>
      isDigit m2 && isDigit m1 && isDigit h2 && isDigit h1 &&
      (Ascii.eqb sign "+" || Ascii.eqb sign "-")
  | _ => false
  end.

Definition digit (c : ascii) : Z := Z.of_N (code c) - 48.

Definition number (ds : list ascii) : Z :=
  fold_left (fun acc c => 10 * acc + digit c) ds 0.

(** [/^(\d{4})-(\d{2})-(\d{2})T(\d{2}):(\d{2}):(\d{2})$/] and the six
    [Number(...)] conversions. *)
Definition matchNaive (naive : string) : option (Z * Z * Z * Z * Z * Z) :=
  match list_ascii_of_string naive with
  | [y1; y2; y3; y4; "-"%char; mo1; mo2; "-"%char; d1; d2; "T"%char;
     h1; h2; ":"%char; mi1; mi2; ":"%char; s1; s2] =>
      if List.forallb isDigit [y1; y2; y3; y4; mo1; mo2; d1; d2; h1; h2; mi1; mi2; s1; s2]
      then Some (number [y1; y2; y3; y4], number [mo1; mo2], number [d1; d2],
                 number [h1; h2], number [mi1; mi2], number [s1; s2])
      else None
  | _ => None
  end.

(** [new Date(t.toLocaleString('en-US', { timeZone }))]: the instant is
    printed as the civil date and time, to the second, that the zone
    shows, and that text is read back in the host's own zone. *)
Definition reprIn (offset : Z -> Z) (t : Z) : Z :=
  let civil := (t + offset t * JsDate.msPerMinute) / 1000 * 1000 in
  civil - localOffset H civil * JsDate.msPerMinute.

Definition utcOffset : Z -> Z := fun _ => 0.

(** [tzRepr.getTime() - utcRepr.getTime()] *)
Definition offsetMsAt (tzId : string) (t : Z) : outcome error Z :=
  match zoneOffset H tzId with
  | None => Throw (InvalidTimeZone tzId)
  | Some offset => Ok (reprIn offset t - reprIn utcOffset t)
  end.

Local Open Scope outcome_scope.

Definition naiveToUtcIso (naive tzId : string) : outcome error string :=
  match matchNaive naive with
  | None => Throw (InvalidNaiveDatetime naive)
  | Some (y, mo, d, h, mi, s) =>
      let asUtc := JsDate.UTC y (mo - 1) d h mi s in
      let* offsetMs := offsetMsAt tzId asUtc in
      Ok (JsDate.toISOString (asUtc - offsetMs))
  end.

Definition ensureOffsetAware (datetime tzId : string) : outcome error string :=
  if hasTimezoneOffset datetime then Ok datetime else naiveToUtcIso datetime tzId.

(** The two readings differ by a whole number of minutes, so the division
    by 60000 is exact. *)
Definition buildCalendarTimezoneProperty (tzId : string) : outcome error string :=
  let jan := JsDate.UTC 2020 0 1 12 0 0 in
  let* offsetMs := offsetMsAt tzId jan in
  let offsetMin := offsetMs / JsDate.msPerMinute in
  let sign := if 0 <=? offsetMin then "+" else "-" in
  let absMin := Z.abs offsetMin in
  let hh := JsDate.pad 2 (absMin / 60) in
  let mm := JsDate.pad 2 (absMin mod 60) in
  let offsetStr := sign ++ hh ++ mm in
  Ok (join CRLF [
    "BEGIN:VCALENDAR";
    "PRODID:-//fastmail-mcp//EN";
    "VERSION:2.0";
    "BEGIN:VTIMEZONE";
    "TZID:" ++ tzId;
    "BEGIN:STANDARD";
    "DTSTART:19700101T000000";
    "TZOFFSETFROM:" ++ offsetStr;
    "TZOFFSETTO:" ++ offsetStr;
    "END:STANDARD";
    "END:VTIMEZONE";
    "END:VCALENDAR"
  ]).

End Resolver.

(** *** Hosts used in examples

    The zones of the repository's tests, with the offsets the tz database
    gives them in 2020 and 2026: New York is on daylight time from the
    second Sunday of March, 07:00 UTC, to the first Sunday of November,
    06:00 UTC. *)

Definition inRange (lo hi t : Z) : bool := (lo <=? t) && (t <? hi).

Definition newYorkOffset (t : Z) : Z :=
  if inRange (JsDate.UTC 2020 2 8 7 0 0) (JsDate.UTC 2020 10 1 6 0 0) t
     || inRange (JsDate.UTC 2026 2 8 7 0 0) (JsDate.UTC 2026 10 1 6 0 0) t
  then -240 else -300.

Definition tzdata (tz : string) : option (Z -> Z) :=
  if String.eqb tz "UTC" then Some (fun _ => 0)
  else if String.eqb tz "America/New_York" then Some newYorkOffset
  else if String.eqb tz "Asia/Tokyo" then Some (fun _ => 540)
  else if String.eqb tz "Asia/Kolkata" then Some (fun _ => 330)
  else if String.eqb tz "Europe/London" then
    Some (fun t => if inRange (JsDate.UTC 2026 2 29 1 0 0) (JsDate.UTC 2026 9 25 1 0 0) t
                   then 60 else 0)
  else None.

(** A host whose own zone has the fixed offset [m] minutes. *)
Definition fixedHost (name : string) (m : Z) : host :=
  {| zoneOffset := tzdata; machineTimezone := name; localOffset := fun _ => m |}.

Definition utcHost : host := fixedHost "UTC" 0.

(** A host in New York, for civil times of 2026 and of winter: a civil
    time is read with the daylight offset from 03:00 on 8 March, where the
    spring-forward gap closes, until 02:00 on 1 November, and with the
    standard offset otherwise. *)
Definition newYorkHost : host :=
  {| zoneOffset := tzdata;
     machineTimezone := "America/New_York";
     localOffset := fun civil =>
       if inRange (JsDate.UTC 2026 2 8 3 0 0) (JsDate.UTC 2026 10 1 2 0 0) civil
       then -240 else -300 |}.

End Timezone.

(** ** Content lines: the regular expressions the two summary parsers share *)

Module ContentLine.

Definition isFoldSpace (c : ascii) : bool := Ascii.eqb c SP || Ascii.eqb c TAB.

(** [text.replace(/\r?\n[ \t]/g, '')] *)
Fixpoint unfold (s : string) : string :=
  match s with
  | EmptyString => EmptyString
  | String c1 r1 =>
      match r1 with
      | String c2 r2 =>
          if Ascii.eqb c1 LF && isFoldSpace c2 then unfold r2
          else
            match r2 with
            | String c3 r3 =>
                if Ascii.eqb c1 CR && Ascii.eqb c2 LF && isFoldSpace c3
                then unfold r3
                else String c1 (unfold r1)
            | EmptyString => String c1 (unfold r1)
            end
      | EmptyString => String c1 EmptyString
      end
  end.

(** [[^:]*:] and what follows the colon. *)
Fixpoint afterColon (s : string) : option string :=
  match s with
  | EmptyString => None
  | String c r => if Ascii.eqb c ":" then Some r else afterColon r
  end.

(** The capture group, a greedy run of [.]: the capture and the text
    after it.  In Latin-1 text the run ends at the first LF or CR. *)
Fixpoint dotRun (s : string) : string * string :=
  match s with
  | EmptyString => (EmptyString, EmptyString)
  | String c r =>
      if isLineTerminator c then (EmptyString, s)
      else let '(v, rest) := dotRun r in (String c v, rest)
  end.

(** The regex of [get], [getOne] and [getAll], tried at the start of [s]:
    LF, the key, [[^:]*:], then the capture group. *)
Definition valueHere (key s : string) : option (string * string) :=
  match dropPrefix (String LF key) s with
  | Some r => match afterColon r with
              | Some v => Some (dotRun v)
              | None => None
              end
  | None => None
  end.

(** The leftmost match: its capture, and the text from the end of the
    match on (where a global regex resumes). *)
Fixpoint valueMatch (key s : string) : option (string * string) :=
  match valueHere key s with
  | Some m => Some m
  | None => match s with
            | EmptyString => None
            | String _ r => valueMatch key r
            end
  end.

(** [text.match(re)?.[1]?.trim()] *)
Definition getOne (key text : string) : option string :=
  match valueMatch key text with
  | Some (v, _) => Some (trim v)
  | None => None
  end.

Lemma dropPrefix_length p s r :
  dropPrefix p s = Some r -> String.length s = String.length p + String.length r.
Proof.
  revert s; induction p as [|a p IH]; intros s Hd; simpl in *.
  - now inversion Hd.
  - destruct s as [|b s]; [discriminate|].
    destruct (Ascii.eqb a b); [|discriminate].
    simpl. now rewrite (IH _ Hd).
Qed.

Lemma afterColon_length s r :
  afterColon s = Some r -> String.length r < String.length s.
Proof.
  induction s as [|c s IH]; simpl; [discriminate|].
  destruct (Ascii.eqb c ":"); intros Hc.
  - inversion Hc; subst. lia.
  - specialize (IH Hc). lia.
Qed.

Lemma dotRun_length s : String.length (snd (dotRun s)) <= String.length s.
Proof.
  induction s as [|c s IH]; simpl; [lia|].
  destruct (isLineTerminator c); simpl; [lia|].
  destruct (dotRun s) as [v rest]; simpl in *. lia.
Qed.

Lemma valueHere_shorter key s v rest :
  valueHere key s = Some (v, rest) -> String.length rest < String.length s.
Proof.
  unfold valueHere.
  destruct (dropPrefix (String LF key) s) as [r|] eqn:Hp; [|discriminate].
  destruct (afterColon r) as [w|] eqn:Hc; [|discriminate].
  intros Hd; inversion Hd as [Hd'].
  apply dropPrefix_length in Hp. apply afterColon_length in Hc.
  pose proof (dotRun_length w) as Hl. rewrite Hd' in Hl. simpl in *. lia.
Qed.

Lemma valueMatch_shorter key s v rest :
  valueMatch key s = Some (v, rest) -> String.length rest < String.length s.
Proof.
  induction s as [|c s IH].
  - cbn. discriminate.
  - change (valueMatch key (String c s))
      with (match valueHere key (String c s) with
            | Some m => Some m
            | None => valueMatch key s
            end).
    destruct (valueHere key (String c s)) as [m|] eqn:Hh.
    + intros Hm; inversion Hm; subst. now apply valueHere_shorter in Hh.
    + intros Hm. specialize (IH Hm). simpl. lia.
Qed.

Definition inspect {A} (a : A) : {b : A | a = b} := exist _ a eq_refl.

(** The [re.exec] loop of [getAll]: each search resumes where the last
    match ended, and every match takes at least its LF, so the text left
    to scan shrinks. *)
Equations getAll (key text : string) : list string by wf (String.length text) lt :=
  getAll key text with inspect (valueMatch key text) := {
    | exist _ None _ => [];
    | exist _ (Some (v, rest)) e => trim v :: getAll key rest }.
Next Obligation.
  eapply valueMatch_shorter; eassumption.
Qed.


End ContentLine.

(** ** The iCalendar codec: [dav/ical.ts] *)

Module Ical.
Import ContentLine.

Record attendee := { att_email : string; att_name : option string }.

Record CreateEventInput := {
  ev_title : string;
  ev_start : string;
  ev_end : string;
  ev_description : option string;
  ev_location : option string;
  ev_organizerEmail : string;
  ev_organizerName : option string;
  ev_attendees : option (list attendee)
}.

(** What the runtime provides to one call of [buildIcsEvent]. *)
Record runtime := {
  (** [new Date(text).getTime()], [None] for an invalid date *)
  parseDate : string -> option Z;
  (** the clock *)
  now : Z;
  (** [randomUUID()] *)
  randomUUID : string
}.

Inductive error :=
| InvalidIsoDatetime (iso : string).

Definition toIcsDateTime (rt : runtime) (iso : string) : outcome error string :=
  match parseDate rt iso with
  | None => Throw (InvalidIsoDatetime iso)
  | Some t =>
      let f := JsDate.utcFields t in
      Ok (JsDate.decimal (JsDate.f_year f) ++
          JsDate.pad 2 (JsDate.f_month f) ++
          JsDate.pad 2 (JsDate.f_day f) ++
          "T" ++
          JsDate.pad 2 (JsDate.f_hours f) ++
          JsDate.pad 2 (JsDate.f_minutes f) ++
          JsDate.pad 2 (JsDate.f_seconds f) ++
          "Z")
  end.

Definition max : nat := 72.

Lemma drop_length n s :
  (n <= String.length s)%nat -> String.length (drop n s) = (String.length s - n)%nat.
Proof.
  revert s; induction n as [|n IH]; intros s Hs; simpl.
  - lia.
  - destruct s as [|c s]; simpl in *; [lia|]. apply IH. lia.
Qed.

(** The [while] loop of [foldLine], from [rest] on. *)
Local Opaque drop take.
Equations? foldParts (rest : string) : list string by wf (String.length rest) lt :=
  foldParts rest with inspect (max <? String.length rest)%nat := {
    | exist _ true e => take max rest :: foldParts (String SP (drop max rest));
    | exist _ false _ => [rest] }.
Proof.
  apply Nat.ltb_lt in e. unfold max in *.
  change (S (String.length (drop 72 rest)) < String.length rest)%nat.
  rewrite drop_length; lia.
Qed.
Local Transparent drop take.

Definition foldLine (line : string) : string :=
  if (String.length line <=? max)%nat then line
  else join CRLF (foldParts line).

Definition escText (v : string) : string :=
  replaceChar "," "\,"
    (replaceChar ";" "\;"
      (replaceChar CR ""
        (replaceChar LF "\n"
          (replaceChar "\" "\\" v)))).

Definition cnParam (name : option string) : string :=
  if truthy name then ";CN=" ++ escText (orEmpty name) else "".

Definition optionalLine (key : string) (v : option string) : list string :=
  if truthy v then [foldLine (key ++ escText (orEmpty v))] else [].

Definition attendeeLines (attendees : option (list attendee)) : list string :=
  match attendees with
  | Some l => map (fun a => foldLine ("ATTENDEE" ++ cnParam (att_name a) ++
                                      ":mailto:" ++ att_email a)) l
  | None => []
  end.

Record built := { b_uid : string; b_ics : string; b_filename : string }.

Local Open Scope outcome_scope.

Definition buildIcsEvent (rt : runtime) (input : CreateEventInput) : outcome error built :=
  let uid := randomUUID rt in
  let* dtstamp := toIcsDateTime rt (JsDate.toISOString (now rt)) in
  let* dtstart := toIcsDateTime rt (ev_start input) in
  let* dtend := toIcsDateTime rt (ev_end input) in
  let lines := List.concat [
    [ "BEGIN:VCALENDAR";
      "VERSION:2.0";
      "PRODID:-//fastmail-mcp//EN";
      "CALSCALE:GREGORIAN";
      "BEGIN:VEVENT";
      "UID:" ++ uid;
      "DTSTAMP:" ++ dtstamp;
      "DTSTART:" ++ dtstart;
      "DTEND:" ++ dtend;
      foldLine ("ORGANIZER" ++ cnParam (ev_organizerName input) ++
                ":mailto:" ++ ev_organizerEmail input);
      foldLine ("SUMMARY:" ++ escText (ev_title input)) ];
    optionalLine "DESCRIPTION:" (ev_description input);
    optionalLine "LOCATION:" (ev_location input);
    attendeeLines (ev_attendees input);
    [ "END:VEVENT"; "END:VCALENDAR" ] ] in
  Ok {| b_uid := uid;
        b_ics := join CRLF lines ++ CRLF;
        b_filename := uid ++ ".ics" |}.

Record summary := {
  s_uid : option string;
  s_title : option string;
  s_start : option string;
  s_end : option string;
  s_location : option string
}.

(** The [get] of [parseIcsSummary], over the unfolded text it closes on. *)
Definition get (unfolded key : string) : option string := getOne key unfolded.

Definition parseIcsSummary (ics : string) : summary :=
  let unfolded := unfold ics in
  {| s_uid := get unfolded "UID";
     s_title := get unfolded "SUMMARY";
     s_start := get unfolded "DTSTART";
     s_end := get unfolded "DTEND";
     s_location := get unfolded "LOCATION" |}.

(** *** A runtime for examples

    Its date parser reads the one shape [toISOString] prints,
    [YYYY-MM-DDTHH:MM:SS.sssZ]. *)

Definition parseUtcIso (text : string) : option Z :=
  match list_ascii_of_string text with
  | [y1; y2; y3; y4; "-"%char; mo1; mo2; "-"%char; d1; d2; "T"%char;
     h1; h2; ":"%char; mi1; mi2; ":"%char; s1; s2; "."%char; f1; f2; f3; "Z"%char] =>
      if List.forallb isDigit
           [y1; y2; y3; y4; mo1; mo2; d1; d2; h1; h2; mi1; mi2; s1; s2; f1; f2; f3]
      then Some (JsDate.UTC (Timezone.number [y1; y2; y3; y4])
                   (Timezone.number [mo1; mo2] - 1) (Timezone.number [d1; d2])
                   (Timezone.number [h1; h2]) (Timezone.number [mi1; mi2])
                   (Timezone.number [s1; s2]) + Timezone.number [f1; f2; f3])%Z
      else None
  | _ => None
  end.

Definition exampleRuntime : runtime :=
  {| parseDate := parseUtcIso;
     now := JsDate.UTC 2026 1 23 15 0 0;
     randomUUID := "3b241101-e2bb-4255-8caf-4136c566a962" |}.

End Ical.

(** ** The vCard codec: [dav/vcard.ts] *)

Module VCard.
Import ContentLine.

Record CreateContactInput := {
  ct_fullName : string;
  ct_emails : option (list string);
  ct_phones : option (list string);
  ct_note : option string
}.

Definition esc (v : string) : string :=
  replaceChar "," "\,"
    (replaceChar ";" "\;"
      (replaceChar CR ""
        (replaceChar LF "\n"
          (replaceChar "\" "\\" v)))).

(** [s.split(/\s+/)]: the pieces between the maximal runs of white space,
    the empty pieces at either end included.  [cur] is the piece being
    read, [inWs] tells that the scan is inside a separator. *)
Fixpoint splitGo (inWs : bool) (cur : string) (s : string) : list string :=
  match s with
  | EmptyString => [cur]
  | String c r =>
      if isWhiteSpace c
      then if inWs then splitGo true EmptyString r
           else cur :: splitGo true EmptyString r
      else splitGo false (cur ++ String c EmptyString) r
  end.

Definition splitWs (s : string) : list string := splitGo false EmptyString s.

(** [parts.length > 1 ? parts[parts.length - 1] : parts[0] || ''] *)
Definition familyOf (parts : list string) : string :=
  if (1 <? List.length parts)%nat then last parts EmptyString
  else hd EmptyString parts.

(** [parts.length > 1 ? parts.slice(0, -1).join(' ') : ''] *)
Definition givenOf (parts : list string) : string :=
  if (1 <? List.length parts)%nat then join " " (removelast parts)
  else EmptyString.

Definition nameLine (fullName : string) : string :=
  let parts := splitWs (trim fullName) in
  "N:" ++ esc (familyOf parts) ++ ";" ++ esc (givenOf parts) ++ ";;;".

Definition orNil (l : option (list string)) : list string :=
  match l with Some l => l | None => [] end.

Definition cardLines (uid : string) (input : CreateContactInput) : list string :=
  List.concat [
    [ "BEGIN:VCARD";
      "VERSION:3.0";
      "UID:" ++ uid;
      "FN:" ++ esc (ct_fullName input);
      nameLine (ct_fullName input) ];
    map (fun email => "EMAIL;TYPE=INTERNET:" ++ esc email) (orNil (ct_emails input));
    map (fun tel => "TEL;TYPE=CELL:" ++ esc tel) (orNil (ct_phones input));
    (if truthy (ct_note input) then ["NOTE:" ++ esc (orEmpty (ct_note input))] else []);
    [ "END:VCARD" ] ].

Record built := { b_uid : string; b_vcard : string; b_filename : string }.

(** [randomUUID] is the value [randomUUID()] returns to this call. *)
Definition buildVCard (randomUUID : string) (input : CreateContactInput) : built :=
  let uid := randomUUID in
  {| b_uid := uid;
     b_vcard := join CRLF (cardLines uid input) ++ CRLF;
     b_filename := uid ++ ".vcf" |}.

Record summary := {
  s_uid : option string;
  s_fullName : option string;
  s_emails : list string;
  s_phones : list string
}.

Definition parseVCardSummary (vcard : string) : summary :=
  let unfolded := unfold vcard in
  {| s_uid := getOne "UID" unfolded;
     s_fullName := getOne "FN" unfolded;
     s_emails := getAll "EMAIL" unfolded;
     s_phones := getAll "TEL" unfolded |}.


End VCard.

(** ** The calendar tools of [index.ts] *)

Module Dav.
Local Open Scope Z_scope.

(** Values of the parsed PROPFIND response. *)
#[local] Unset Elimination Schemes.
Inductive jsval :=
| JUndefined
| JNull
| JBool (b : bool)
| JNum (n : Z)
| JStr (s : string)
| JArr (items : list jsval)
| JObj (fields : list (string * jsval)).
#[local] Set Elimination Schemes.

Definition isTruthy (v : jsval) : bool :=
  match v with
  | JUndefined | JNull => false
  | JBool b => b
  | JNum n => negb (n =? 0)
  | JStr s => nonEmpty s
  | JArr _ | JObj _ => true
  end.

Fixpoint lookup (k : string) (fields : list (string * jsval)) : jsval :=
  match fields with
  | [] => JUndefined
  | (k', v) :: r => if String.eqb k' k then v else lookup k r
  end.

(** [v?.k] for a key that is no built-in property. *)
Definition getProp (k : string) (v : jsval) : jsval :=
  match v with
  | JObj fields => lookup k fields
  | _ => JUndefined
  end.

(** [v?.[0]] *)
Definition getFirst (v : jsval) : jsval :=
  match v with
  | JArr items => hd JUndefined items
  | JObj fields => lookup "0" fields
  | JStr (String c _) => JStr (String c EmptyString)
  | _ => JUndefined
  end.

Definition indexKey (i : nat) : string :=
  NilZero.string_of_uint (Nat.to_uint i).

(** [Object.keys(item)] of an object or an array.  The field list of a
    [JObj] stands for the own enumerable properties of the object in the
    order [Object.keys] lists them: keys that are array indices first, in
    ascending order, then the others as they were inserted. *)
Definition keysOf (item : jsval) : list string :=
  match item with
  | JObj fields => map fst fields
  | JArr items => map indexKey (seq 0 (List.length items))
  | _ => []
  end.

Definition isObject (item : jsval) : bool :=
  match item with
  | JObj _ | JArr _ => true
  | _ => false
  end.

(** [Array.from(new Set(out))]: first occurrences, in order. *)
Fixpoint dedup (seen out : list string) : list string :=
  match out with
  | [] => []
  | k :: r => if mem k seen then dedup seen r else k :: dedup (k :: seen) r
  end.

Definition extractDavPrivileges (currentUserPrivilegeSet : jsval) : list string :=
  let privilege := getProp "privilege" currentUserPrivilegeSet in
  let items := match privilege with
               | JArr l => l
               | _ => if isTruthy privilege then [privilege] else []
               end in
  let out := flat_map (fun item =>
               if isObject item
               then filter (fun k => negb (String.eqb k "_attributes")) (keysOf item)
               else []) items in
  dedup [] out.

Record DavRights := {
  privileges : list string;
  canRead : bool;
  canWrite : bool
}.

Definition computeDavRights (privileges : list string) : DavRights :=
  {| privileges := privileges;
     canRead := mem "read" privileges || mem "all" privileges;
     canWrite := mem "write" privileges || mem "writeContent" privileges ||
                 mem "writeProperties" privileges || mem "all" privileges |}.

Record calendar := {
  cal_url : string;
  cal_displayName : option string;
  cal_timezone : option string
}.

(** The calls a handler issues on the DAV client, in order. *)
Inductive call :=
| Login
| FetchCalendars
| Propfind (url : string)
| DeleteObject (url : string)
| Proppatch (url : string) (setProps : list (string * string))
| CreateCalendarObject (calendarUrl iCalString filename : string)
| FetchCalendarObjects (calendarUrl : string) (objectUrls : list string)
| UpdateCalendarObject (url : string) (etag : option string) (data : string)
| DeleteCalendarObject (url : string) (etag : option string).

Record response := { r_ok : bool; r_status : Z; r_body : string }.

(** A fetched calendar object, as far as the event tools read it. *)
Record eventObject := { x_url : string; x_etag : option string }.

(** The DAV client as a handler sees it: what each call answers, a
    rejected promise being a [Throw] with the failure's status. *)
Record client := {
  login : outcome Z unit;
  fetchCalendars : outcome Z (option (list calendar));
  propfind : string -> outcome Z jsval;
  deleteObject : string -> outcome Z unit;
  davRequest : string -> list (string * string) -> outcome Z unit;
  createCalendarObject : string -> string -> string -> outcome Z response;
  fetchCalendarObjects : calendar -> list string -> outcome Z (option (list eventObject));
  updateCalendarObject : string -> option string -> string -> outcome Z response;
  deleteCalendarObject : string -> option string -> outcome Z response
}.

Inductive error :=
| ClientError (status : Z)
| CalendarNotFound
| ReadOnly
| LastCalendar
| NoProperty
| InvalidTimezone (tz : string)
| MissingOrganizer
| BadDatetime (e : Timezone.error)
| BadEvent (e : Ical.error)
| CreateFailed (status : Z) (body : string)
| BadUrl
| EventCalendarNotFound
| EventNotFound
| UpdateFailed (status : Z)
| DeleteFailed (status : Z).

(** A handler: the calls issued so far are threaded through, and kept
    when the handler throws. *)
Definition handler (A : Type) : Type := list call -> outcome error A * list call.

Definition ret {A} (a : A) : handler A := fun log => (Ok a, log).

Definition throw {A} (e : error) : handler A := fun log => (Throw e, log).

Definition bind {A B} (m : handler A) (k : A -> handler B) : handler B :=
  fun log =>
    match m log with
    | (Ok a, log') => k a log'
    | (Throw e, log') => (Throw e, log')
    end.

(** One call on the client: logged, then answered. *)
Definition invoke {A} (c : call) (answer : outcome Z A) : handler A :=
  fun log => (mapThrow ClientError answer, log ++ [c])%list.

(** [try { ... } catch { return fallback }] *)
Definition catch {A} (m : handler A) (fallback : A) : handler A :=
  fun log =>
    match m log with
    | (Ok a, log') => (Ok a, log')
    | (Throw _, log') => (Ok fallback, log')
    end.

Definition run {A} (m : handler A) : outcome error A * list call := m [].

Declare Scope handler_scope.
Delimit Scope handler_scope with handler.
Notation "x <- m ;; k" := (bind m (fun x => k))
  (at level 61, m at next level, right associativity) : handler_scope.
Notation "m ;; k" := (bind m (fun _ => k))
  (at level 61, right associativity) : handler_scope.

Local Open Scope handler_scope.

Definition getCalendarRights (caldav : client) (calendarUrl : string)
  : handler (option DavRights) :=
  catch
    (res <- invoke (Propfind calendarUrl) (propfind caldav calendarUrl) ;;
     let props := getProp "props" (getFirst res) in
     let privileges := extractDavPrivileges (getProp "currentUserPrivilegeSet" props) in
     match privileges with
     | [] => ret None
     | _ => ret (Some (computeDavRights privileges))
     end)
    None.

(** [(calendars || []).find(c => c.url === calendarId)] *)
Definition findCalendar (calendars : option (list calendar)) (calendarId : string)
  : option calendar :=
  find (fun c => String.eqb (cal_url c) calendarId)
       (match calendars with Some l => l | None => [] end).

Definition calendarCount (calendars : option (list calendar)) : nat :=
  List.length (match calendars with Some l => l | None => [] end).

(** [if (rights && !rights.canWrite) throw ...] *)
Definition assertWritable (rights : option DavRights) : handler unit :=
  match rights with
  | Some r => if canWrite r then ret tt else throw ReadOnly
  | None => ret tt
  end.

Definition delete_calendar (caldav : client) (calendarId : string) : handler string :=
  invoke Login (login caldav) ;;
  calendars <- invoke FetchCalendars (fetchCalendars caldav) ;;
  match findCalendar calendars calendarId with
  | None => throw CalendarNotFound
  | Some _ =>
      if (calendarCount calendars <=? 1)%nat then throw LastCalendar
      else
        invoke (DeleteObject calendarId) (deleteObject caldav calendarId) ;;
        ret "OK"
  end.

(** [(calendars || []).find(c => typeof c.url === 'string' &&
    eventId.startsWith(c.url))] *)
Definition findEventCalendar (calendars : option (list calendar)) (eventId : string)
  : option calendar :=
  find (fun c => startsWith (cal_url c) eventId)
       (match calendars with Some l => l | None => [] end).

(** [(objs || [])[0]] *)
Definition firstObject (objs : option (list eventObject)) : option eventObject :=
  hd_error (match objs with Some l => l | None => [] end).

Definition update_calendar_event (caldav : client) (eventId iCalString : string)
  : handler string :=
  invoke Login (login caldav) ;;
  calendars <- invoke FetchCalendars (fetchCalendars caldav) ;;
  match findEventCalendar calendars eventId with
  | None => throw EventCalendarNotFound
  | Some calendar =>
      objs <- invoke (FetchCalendarObjects (cal_url calendar) [eventId])
                     (fetchCalendarObjects caldav calendar [eventId]) ;;
      match firstObject objs with
      | None => throw EventNotFound
      | Some existing =>
          res <- invoke (UpdateCalendarObject (x_url existing) (x_etag existing) iCalString)
                        (updateCalendarObject caldav (x_url existing) (x_etag existing)
                           iCalString) ;;
          if r_ok res then ret "OK" else throw (UpdateFailed (r_status res))
      end
  end.

Definition delete_calendar_event (caldav : client) (eventId : string) : handler string :=
  invoke Login (login caldav) ;;
  calendars <- invoke FetchCalendars (fetchCalendars caldav) ;;
  match findEventCalendar calendars eventId with
  | None => throw EventCalendarNotFound
  | Some calendar =>
      objs <- invoke (FetchCalendarObjects (cal_url calendar) [eventId])
                     (fetchCalendarObjects caldav calendar [eventId]) ;;
      match firstObject objs with
      | None => throw EventNotFound
      | Some existing =>
          res <- invoke (DeleteCalendarObject (x_url existing) (x_etag existing))
                        (deleteCalendarObject caldav (x_url existing) (x_etag existing)) ;;
          if r_ok res then ret "OK" else throw (DeleteFailed (r_status res))
      end
  end.

Section Tools.
Variable H : Timezone.host.

(** [href relative base] is [new URL(relative, base).href], and [None]
    when the constructor throws. *)
Variable href : string -> string -> option string.

Definition setProp (key : string) (v : option string) : list (string * string) :=
  match v with Some x => [(key, x)] | None => [] end.

Definition update_calendar (caldav : client) (calendarId : string)
           (name description color timezone : option string) : handler string :=
  match name, description, color, timezone with
  | None, None, None, None => throw NoProperty
  | _, _, _, _ =>
      match timezone with
      | Some tz => if Timezone.isValidTimezone H tz then ret tt
                   else throw (InvalidTimezone tz)
      | None => ret tt
      end ;;
      invoke Login (login caldav) ;;
      calendars <- invoke FetchCalendars (fetchCalendars caldav) ;;
      match findCalendar calendars calendarId with
      | None => throw CalendarNotFound
      | Some _ =>
          rights <- getCalendarRights caldav calendarId ;;
          assertWritable rights ;;
          tzProp <- match timezone with
                    | Some tz =>
                        match Timezone.buildCalendarTimezoneProperty H tz with
                        | Ok blob => ret (Some blob)
                        | Throw e => throw (BadDatetime e)
                        end
                    | None => ret None
                    end ;;
          let setProps := List.concat [
            setProp "displayname" name;
            setProp "c:calendar-description" description;
            setProp "ca:calendar-color" color;
            setProp "c:calendar-timezone" tzProp ] in
          invoke (Proppatch calendarId setProps) (davRequest caldav calendarId setProps) ;;
          ret "OK"
      end
  end.

Record eventParams := {
  p_calendarId : string;
  p_title : string;
  p_start : string;
  p_end : string;
  p_description : option string;
  p_location : option string;
  p_attendees : option (list Ical.attendee)
}.

Definition liftTz {A} (m : outcome Timezone.error A) : handler A :=
  match m with Ok a => ret a | Throw e => throw (BadDatetime e) end.

Definition liftIcal {A} (m : outcome Ical.error A) : handler A :=
  match m with Ok a => ret a | Throw e => throw (BadEvent e) end.

(** [organizerEmail] is
    [FASTMAIL_ORGANIZER_EMAIL || FASTMAIL_USERNAME || FASTMAIL_DAV_USERNAME]
    of the environment; the new event's URL is the file name resolved
    against the calendar's URL, after the object is created. *)
Definition create_calendar_event (caldav : client) (rt : Ical.runtime)
           (organizerEmail : option string) (p : eventParams)
  : handler (string * string) :=
  invoke Login (login caldav) ;;
  calendars <- invoke FetchCalendars (fetchCalendars caldav) ;;
  match findCalendar calendars (p_calendarId p) with
  | None => throw CalendarNotFound
  | Some calendar =>
      rights <- getCalendarRights caldav (cal_url calendar) ;;
      assertWritable rights ;;
      if negb (truthy organizerEmail) then throw MissingOrganizer
      else
        let tz := Timezone.resolveTimezone H
                    (Timezone.extractCalendarTimezone (cal_timezone calendar)) in
        start <- liftTz (Timezone.ensureOffsetAware H (p_start p) tz) ;;
        end_ <- liftTz (Timezone.ensureOffsetAware H (p_end p) tz) ;;
        ev <- liftIcal (Ical.buildIcsEvent rt {|
                Ical.ev_title := p_title p;
                Ical.ev_start := start;
                Ical.ev_end := end_;
                Ical.ev_description := p_description p;
                Ical.ev_location := p_location p;
                Ical.ev_organizerEmail := orEmpty organizerEmail;
                Ical.ev_organizerName := None;
                Ical.ev_attendees := p_attendees p |}) ;;
        res <- invoke (CreateCalendarObject (cal_url calendar) (Ical.b_ics ev)
                         (Ical.b_filename ev))
                      (createCalendarObject caldav (cal_url calendar) (Ical.b_ics ev)
                         (Ical.b_filename ev)) ;;
        if r_ok res
        then match href (Ical.b_filename ev) (cal_url calendar) with
             | Some eventUrl => ret (Ical.b_uid ev, eventUrl)
             | None => throw BadUrl
             end
        else throw (CreateFailed (r_status res) (take 500 (r_body res)))
  end.

End Tools.

End Dav.

(** ** The configuration: [config.ts], and the session URL of [jmap/auth.ts] *)

Module Config.
Import Text.

Inductive FastmailAuthConfig :=
| basic (username appPassword baseUrl : string)
| bearer (apiToken baseUrl : string).

Record DavConfig := {
  username : string;
  appPassword : string;
  caldavUrl : string;
  carddavUrl : string
}.

Inductive error :=
| MissingCredentials
| MissingDavCredentials.

Definition isAlpha (c : ascii) : bool :=
  let n := code c in
  ((65 <=? n) && (n <=? 90) || (97 <=? n) && (n <=? 122))%N.

(** [[a-zA-Z0-9+.-]] *)
Definition isSchemeChar (c : ascii) : bool :=
  isAlpha c || isDigit c || Ascii.eqb c "+" || Ascii.eqb c "." || Ascii.eqb c "-".

(** [[a-zA-Z0-9+.-]*:\/\/] at the start of [s]. *)
Fixpoint schemeRest (s : string) : bool :=
  startsWith "://" s ||
  match s with
  | String c r => isSchemeChar c && schemeRest r
  | EmptyString => false
  end.

(** [/^[a-zA-Z][a-zA-Z0-9+.-]*:\/\//.test(base)] *)
Definition hasScheme (base : string) : bool :=
  match base with
  | String c r => isAlpha c && schemeRest r
  | EmptyString => false
  end.

(** [s.replace(/\/+$/, '')] *)
Fixpoint stripSlashes (s : string) : string :=
  match s with
  | EmptyString => EmptyString
  | String c r =>
      match stripSlashes r with
      | EmptyString => if Ascii.eqb c "/" then EmptyString else String c EmptyString
      | r' => String c r'
      end
  end.

Definition normalizeUrl (input defaultUrl : string) : string :=
  let raw := trim input in
  let base := if (0 <? String.length raw)%nat then raw else defaultUrl in
  let withProto := if hasScheme base then base else "https://" ++ base in
  stripSlashes withProto.

(** [[^}]+\}] after the first character of the run. *)
Fixpoint untilBrace (s : string) : bool :=
  match s with
  | EmptyString => false
  | String c r => if Ascii.eqb c "}" then true else untilBrace r
  end.

(** [\$\{[^}]+\}] at the start of [s]. *)
Definition placeholderHere (s : string) : bool :=
  match dropPrefix "${" s with
  | Some (String c r) => negb (Ascii.eqb c "}") && untilBrace r
  | _ => false
  end.

(** [/\$\{[^}]+\}/.test(s)] *)
Fixpoint hasPlaceholder (s : string) : bool :=
  placeholderHere s ||
  match s with
  | String _ r => hasPlaceholder r
  | EmptyString => false
  end.

(** [process.env]: a variable is set to a string, or is not set. *)
Definition environment := string -> option string.

Definition env (E : environment) (name : string) : option string :=
  match E name with
  | None => None
  | Some v =>
      let t := trim v in
      if negb (nonEmpty t) then None
      else if hasPlaceholder t then None
      else Some t
  end.

(** [url.endsWith('/')] *)
Fixpoint endsWithSlash (url : string) : bool :=
  match url with
  | EmptyString => false
  | String c EmptyString => Ascii.eqb c "/"
  | String _ r => endsWithSlash r
  end.

Definition ensureTrailingSlash (url : string) : string :=
  if endsWithSlash url then url else url ++ "/".

(** [a || b] on values that are a string or [undefined]. *)
Definition orElse (a b : option string) : option string :=
  if truthy a then a else b.

(** *** [encodeURIComponent], on code units below 256 *)

Definition hexDigit (n : N) : ascii :=
  match n with
  | 0 => "0" | 1 => "1" | 2 => "2" | 3 => "3" | 4 => "4" | 5 => "5" | 6 => "6" | 7 => "7"
  | 8 => "8" | 9 => "9" | 10 => "A" | 11 => "B" | 12 => "C" | 13 => "D" | 14 => "E"
  | _ => "F"
  end%N%char.

Definition pct (byte : N) : string :=
  String "%" (String (hexDigit (byte / 16)) (String (hexDigit (byte mod 16)) "")).

(** The characters left as they are: letters, digits and [-_.!~*'()]. *)
Definition isUnreserved (c : ascii) : bool :=
  isAlpha c || isDigit c ||
  existsb (Ascii.eqb c) ["-"; "_"; "."; "!"; "~"; "*"; "'"; "("; ")"]%char.

(** The others are written as the bytes of their UTF-8 form: one byte
    below 128, two from 128 to 255. *)
Definition encodeChar (c : ascii) : string :=
  let n := code c in
  if isUnreserved c then String c ""
  else if (n <? 128)%N then pct n
  else pct (192 + n / 64) ++ pct (128 + n mod 64).

Fixpoint encodeURIComponent (s : string) : string :=
  match s with
  | EmptyString => EmptyString
  | String c r => encodeChar c ++ encodeURIComponent r
  end.

Section Load.
Variable E : environment.

Definition loadFastmailAuthConfig : outcome error FastmailAuthConfig :=
  let baseUrl := normalizeUrl (orEmpty (orElse (env E "FASTMAIL_BASE_URL") (Some "")))
                              "https://api.fastmail.com" in
  let apiToken := env E "FASTMAIL_API_TOKEN" in
  if truthy apiToken then Ok (bearer (orEmpty apiToken) baseUrl)
  else
    let username := env E "FASTMAIL_USERNAME" in
    let appPassword := env E "FASTMAIL_APP_PASSWORD" in
    if negb (truthy username) || negb (truthy appPassword) then Throw MissingCredentials
    else Ok (basic (orEmpty username) (orEmpty appPassword) baseUrl).

Definition principalUrl (base principalUser : string) : string :=
  ensureTrailingSlash
    (if includes "/dav/" base then base
     else base ++ "/dav/principals/user/" ++ principalUser).

Definition loadDavConfig : outcome error DavConfig :=
  let username := orElse (env E "FASTMAIL_DAV_USERNAME") (env E "FASTMAIL_USERNAME") in
  let appPassword := env E "FASTMAIL_APP_PASSWORD" in
  if negb (truthy username) || negb (truthy appPassword) then Throw MissingDavCredentials
  else
    let caldavBase := normalizeUrl (orEmpty (orElse (env E "FASTMAIL_CALDAV_URL") (Some "")))
                                   "https://caldav.fastmail.com" in
    let carddavBase := normalizeUrl (orEmpty (orElse (env E "FASTMAIL_CARDDAV_URL") (Some "")))
                                    "https://carddav.fastmail.com" in
    let principalUser := encodeURIComponent (orEmpty username) in
    Ok {| username := orEmpty username;
          appPassword := orEmpty appPassword;
          caldavUrl := principalUrl caldavBase principalUser;
          carddavUrl := principalUrl carddavBase principalUser |}.

End Load.

(** [FastmailJmapAuth.getSessionUrl] *)
Definition baseUrlOf (cfg : FastmailAuthConfig) : string :=
  match cfg with
  | basic _ _ baseUrl => baseUrl
  | bearer _ baseUrl => baseUrl
  end.

Definition getSessionUrl (cfg : FastmailAuthConfig) : string :=
  baseUrlOf cfg ++ "/jmap/session".

End Config.

(** ** Operations that post requests

    An operation threads the requests posted so far, and keeps them when
    it throws. *)

Module Effect.

Section Effect.
Context {E C : Type}.

Definition eff (A : Type) : Type := list C -> outcome E A * list C.

Definition ret {A} (a : A) : eff A := fun log => (Ok a, log).

Definition throw {A} (e : E) : eff A := fun log => (Throw e, log).

Definition bind {A B} (m : eff A) (k : A -> eff B) : eff B :=
  fun log =>
    match m log with
    | (Ok a, log') => k a log'
    | (Throw e, log') => (Throw e, log')
    end.

(** A step that posts nothing. *)
Definition lift {A} (m : outcome E A) : eff A := fun log => (m, log).

(** One request: posted, then answered. *)
Definition emit {A} (c : C) (answer : outcome E A) : eff A :=
  fun log => (answer, log ++ [c])%list.

Definition run {A} (m : eff A) : outcome E A * list C := m [].

End Effect.

Arguments eff : clear implicits.

Declare Scope eff_scope.
Delimit Scope eff_scope with eff.
Notation "x <- m ;; k" := (bind m (fun x => k))
  (at level 61, m at next level, right associativity) : eff_scope.
Notation "m ;; k" := (bind m (fun _ => k))
  (at level 61, right associativity) : eff_scope.

End Effect.

(** ** The mailbox and message operations: [jmap/client.ts] and the mail
    tools of [index.ts] *)

Module MailTools.
Import Text Jmap Effect.
Import Dav(jsval, JUndefined, JNull, JBool, JNum, JStr, JArr, JObj, isTruthy, getProp).
Local Open Scope Z_scope.

(** One entry of [methodResponses]: the method name and the body. *)
Definition methodResponse : Type := string * jsval.

(** The update object of [updateMailbox]: a field is absent, or given;
    [parentId] may be given as [null]. *)
Record mailboxUpdate := {
  u_name : option string;
  u_parentId : option (option string);
  u_sortOrder : option Z;
  u_isSubscribed : option bool
}.

(** The method calls the client posts, reduced to what it fills in. *)
Inductive request :=
| MailboxGet (accountId : string)
| MailboxSetUpdate (accountId mailboxId : string) (update : mailboxUpdate)
| MailboxSetDestroy (accountId : string) (ids : list string)
| EmailSetKeywords (accountId emailId : string) (keywords : list string)
| EmailSetMailboxIds (accountId emailId : string) (mailboxIds : list string).

Inductive error :=
| SessionFailed (status : Z)
| RequestFailed (status : Z)
| ResponseMissing (expected : string)
| MethodFailed (expected type description : string)
| ResponseMismatch (expected got : string)
| NoMailboxField
| NoMailboxProperty
| UpdateFailed (mailboxId reason : string)
| DeleteFailed (mailboxId reason : string)
| Refused (e : Jmap.error)
| EmailUpdateFailed
| EmailMoveFailed
| TrashNotFound.

(** The server as the client sees it: the session it grants, the mailbox
    list that [listMailboxes] makes of the answer to [Mailbox/get], and the
    answer to each other request; a failure is an HTTP status. *)
Record server := {
  session : outcome Z string;
  mailboxes : outcome Z (list mailbox);
  post : request -> outcome Z (list methodResponse)
}.

Definition op : Type -> Type := eff error request.

(** [getSession()]: no request of the batch API. *)
Definition getSession (srv : server) : op string :=
  lift (mapThrow SessionFailed (session srv)).

(** [request(req)] *)
Definition send {A} (r : request) (answer : outcome Z A) : op A :=
  emit r (mapThrow RequestFailed answer).

Local Open Scope eff_scope.

(** [typeof v === 'string' ? v : d] *)
Definition stringOr (v : jsval) (d : string) : string :=
  match v with JStr s => s | _ => d end.

Definition getMethodResult (res : list methodResponse) (index : nat)
           (expectedMethodName : string) : outcome error jsval :=
  match nth_error res index with
  | None => Throw (ResponseMissing expectedMethodName)
  | Some (name, body) =>
      if String.eqb name "error"
      then Throw (MethodFailed expectedMethodName
                    (stringOr (getProp "type" body) "unknown")
                    (stringOr (getProp "description" body) ""))
      else if negb (String.eqb name expectedMethodName)
      then Throw (ResponseMismatch expectedMethodName name)
      else Ok body
  end.

Definition formatSetError (err : jsval) : string :=
  let type := stringOr (getProp "type" err) "unknown" in
  let description := stringOr (getProp "description" err) "" in
  if nonEmpty description then type ++ ": " ++ description else type.

Definition listMailboxes (srv : server) : op (list mailbox) :=
  accountId <- getSession srv ;;
  send (MailboxGet accountId) (mailboxes srv).

(** [Object.keys(update).length === 0] *)
Definition noKeys (update : mailboxUpdate) : bool :=
  match u_name update, u_parentId update, u_sortOrder update, u_isSubscribed update with
  | None, None, None, None => true
  | _, _, _, _ => false
  end.

(** [v ?? d] *)
Definition orDefault (v d : jsval) : jsval :=
  match v with JUndefined | JNull => d | _ => v end.

(** [updateMailbox] and [deleteMailbox] read [notUpdated?.[mailboxId]] and
    [notDestroyed?.[mailboxId]], which [getProp] models for an own property.
    The mailbox ids of a server are taken not to be names that every object
    inherits, such as [constructor] or [toString]: for such an id the
    lookup of the code finds the inherited member, and the operation
    reports a failure. *)
Definition updateMailbox (srv : server) (mailboxId : string) (update : mailboxUpdate)
  : op jsval :=
  if noKeys update then throw NoMailboxProperty
  else
    accountId <- getSession srv ;;
    res <- send (MailboxSetUpdate accountId mailboxId update)
                (post srv (MailboxSetUpdate accountId mailboxId update)) ;;
    body <- lift (getMethodResult res 0 "Mailbox/set") ;;
    let failed := getProp mailboxId (getProp "notUpdated" body) in
    if isTruthy failed then throw (UpdateFailed mailboxId (formatSetError failed))
    else ret (orDefault (getProp mailboxId (getProp "updated" body))
                        (JObj [("id", JStr mailboxId)])).

Definition deleteMailbox (srv : server) (mailboxId : string) : op unit :=
  accountId <- getSession srv ;;
  res <- send (MailboxSetDestroy accountId [mailboxId])
              (post srv (MailboxSetDestroy accountId [mailboxId])) ;;
  body <- lift (getMethodResult res 0 "Mailbox/set") ;;
  let failed := getProp mailboxId (getProp "notDestroyed" body) in
  if isTruthy failed then throw (DeleteFailed mailboxId (formatSetError failed))
  else ret tt.

(** [res.methodResponses[0]?.[1]] *)
Definition firstBody (res : list methodResponse) : jsval :=
  match res with
  | (_, body) :: _ => body
  | [] => JUndefined
  end.

Definition markEmailRead (srv : server) (emailId : string) (read : bool) : op unit :=
  accountId <- getSession srv ;;
  let keywords := if read then ["$seen"] else [] in
  res <- send (EmailSetKeywords accountId emailId keywords)
              (post srv (EmailSetKeywords accountId emailId keywords)) ;;
  if isTruthy (getProp emailId (getProp "notUpdated" (firstBody res)))
  then throw EmailUpdateFailed
  else ret tt.

Definition moveEmail (srv : server) (emailId targetMailboxId : string) : op unit :=
  accountId <- getSession srv ;;
  res <- send (EmailSetMailboxIds accountId emailId [targetMailboxId])
              (post srv (EmailSetMailboxIds accountId emailId [targetMailboxId])) ;;
  if isTruthy (getProp emailId (getProp "notUpdated" (firstBody res)))
  then throw EmailMoveFailed
  else ret tt.

Definition deleteEmail (srv : server) (emailId : string) : op unit :=
  mailboxes <- listMailboxes srv ;;
  match findMailbox "trash" "trash" mailboxes with
  | None => throw TrashNotFound
  | Some trash => moveEmail srv emailId (mb_id trash)
  end.

(** *** The tools *)

Definition update_mailbox (srv : server) (mailboxId : string)
           (name : option string) (parentId : option (option string))
           (sortOrder : option Z) (isSubscribed : option bool) : op jsval :=
  match name, parentId, sortOrder, isSubscribed with
  | None, None, None, None => throw NoMailboxField
  | _, _, _, _ =>
      updateMailbox srv mailboxId
        {| u_name := name; u_parentId := parentId;
           u_sortOrder := sortOrder; u_isSubscribed := isSubscribed |}
  end.

Definition delete_mailbox (srv : server) (mailboxId : string) : op string :=
  mailboxes <- listMailboxes srv ;;
  lift (mapThrow Refused (assertMailboxCanBeDeleted mailboxes mailboxId)) ;;
  deleteMailbox srv mailboxId ;;
  ret "OK".

End MailTools.

(** ** The event listing of [index.ts] *)

Module Events.
Import Text Effect.
Import Dav(calendar, cal_url, cal_timezone, findCalendar).
Local Open Scope Z_scope.

(** A calendar object as the DAV client returns it; [o_data] is [None]
    when [data] is not a string. *)
Record calendarObject := {
  o_url : string;
  o_etag : option string;
  o_data : option string
}.

Record timeRange := { tr_start : string; tr_end : string }.

Inductive call :=
| Login
| FetchCalendars
| FetchCalendarObjects (calendarUrl : string) (range : option timeRange).

Record client := {
  login : outcome Z unit;
  fetchCalendars : outcome Z (option (list calendar));
  fetchCalendarObjects : calendar -> option timeRange -> outcome Z (option (list calendarObject))
}.

Inductive error :=
| ClientError (status : Z)
| CalendarNotFound
| BadDatetime (e : Timezone.error).

Record listed := {
  e_id : string;
  e_url : string;
  e_etag : option string;
  e_summary : option Ical.summary;
  e_ical : option string
}.

Definition handler : Type -> Type := eff error call.

Definition invoke {A} (c : call) (answer : outcome Z A) : handler A :=
  emit c (mapThrow ClientError answer).

Definition liftTz {A} (m : outcome Timezone.error A) : handler A :=
  lift (mapThrow BadDatetime m).

Definition toListed (o : calendarObject) : listed :=
  {| e_id := o_url o;
     e_url := o_url o;
     e_etag := o_etag o;
     e_summary := option_map Ical.parseIcsSummary (o_data o);
     e_ical := o_data o |}.

Definition orNone {A} (l : option (list A)) : list A :=
  match l with Some l => l | None => [] end.

Local Open Scope eff_scope.

(** [list_calendar_events], and [get_calendar_events_from_fastmail],
    which has the same body; [limit] is an integer from 1 to 500 by the
    schema. *)
Definition list_calendar_events (H : Timezone.host) (caldav : client) (calendarId : string)
           (timeRangeStart timeRangeEnd : option string) (limit : nat)
  : handler (list listed) :=
  invoke Login (login caldav) ;;
  calendars <- invoke FetchCalendars (fetchCalendars caldav) ;;
  match findCalendar calendars calendarId with
  | None => throw CalendarNotFound
  | Some calendar =>
      range <- (if truthy timeRangeStart && truthy timeRangeEnd
                then
                  let tz := Timezone.resolveTimezone H
                              (Timezone.extractCalendarTimezone (cal_timezone calendar)) in
                  start <- liftTz (Timezone.ensureOffsetAware H (orEmpty timeRangeStart) tz) ;;
                  end_ <- liftTz (Timezone.ensureOffsetAware H (orEmpty timeRangeEnd) tz) ;;
                  ret (Some {| tr_start := start; tr_end := end_ |})
                else ret None) ;;
      objs <- invoke (FetchCalendarObjects (cal_url calendar) range)
                     (fetchCalendarObjects caldav calendar range) ;;
      ret (map toListed (firstn limit (orNone objs)))
  end.

End Events.

(** * Properties *)

(** ** Mail: the mailbox guard and the send pipeline *)

Module JmapFacts.
Import Jmap.

(** The protected set as the specification lists it. *)
Definition protectedSet : list string :=
  ["inbox"; "spam"; "junk"; "trash"; "sent"; "drafts"; "archive"].

Lemma mem_In s l : mem s l = true <-> In s l.
Proof.
  unfold mem. rewrite existsb_exists. split.
  - intros [x [Hin Heq]]. apply String.eqb_eq in Heq. now subst.
  - intros Hin. exists s. split; [assumption | apply String.eqb_refl].
Qed.

Lemma mem_roles s : mem s PROTECTED_MAILBOX_ROLES = true <-> In s protectedSet.
Proof.
  rewrite mem_In. unfold PROTECTED_MAILBOX_ROLES, protectedSet. simpl. tauto.
Qed.

Lemma mem_names s : mem s PROTECTED_MAILBOX_NAMES = true <-> In s protectedSet.
Proof.
  rewrite mem_In. unfold PROTECTED_MAILBOX_NAMES, protectedSet. simpl. tauto.
Qed.

Lemma nonEmpty_false s : nonEmpty s = false <-> s = "".
Proof. destruct s; simpl; split; congruence. Qed.

Lemma protected_nonEmpty s : In s protectedSet -> nonEmpty s = true.
Proof.
  unfold protectedSet; simpl.
  intros H; repeat (destruct H as [H | H]; [subst; reflexivity|]); contradiction.
Qed.

Definition targetOf (mailboxes : list mailbox) (mailboxId : string) : option mailbox :=
  find (fun m => String.eqb (mb_id m) mailboxId) mailboxes.

Definition important_trash : mailbox :=
  {| mb_id := "m1"; mb_role := Some "important"; mb_name := Some "Trash" |}.

(** C5, as stated, fails: a mailbox whose case-folded name is in the
    protected set is deleted without complaint when it carries a role
    outside the set. *)
Lemma name_match_not_always_refused :
  ~ (forall mailboxes mailboxId m,
       targetOf mailboxes mailboxId = Some m ->
       In (toLowerCase (orEmpty (mb_role m))) protectedSet \/
       In (toLowerCase (orEmpty (mb_name m))) protectedSet ->
       exists e, assertMailboxCanBeDeleted mailboxes mailboxId = Throw e).
Proof.
  intros Hclaim.
  destruct (Hclaim [important_trash] "m1" important_trash eq_refl) as [e He].
  - right. simpl. tauto.
  - vm_compute in He. discriminate.
Qed.

(** C5, amended: deletion is refused with the role error when the
    trimmed, case-folded role is in the protected set; with the name
    error when the role is unset or blank and the trimmed, case-folded
    name is in the set; and goes through in every other case, so also
    for a protected name under a role that is set and outside the set. *)
Theorem mailbox_deletion_guard mailboxes mailboxId m :
  targetOf mailboxes mailboxId = Some m ->
  let role := toLowerCase (trim (orEmpty (mb_role m))) in
  let name := toLowerCase (trim (orEmpty (mb_name m))) in
  (In role protectedSet ->
     assertMailboxCanBeDeleted mailboxes mailboxId
     = Throw (ProtectedRole (orEmpty (mb_role m)))) /\
  (role = "" -> In name protectedSet ->
     assertMailboxCanBeDeleted mailboxes mailboxId
     = Throw (ProtectedName (orEmpty (mb_name m)))) /\
  (~ In role protectedSet -> role <> "" \/ ~ In name protectedSet ->
     assertMailboxCanBeDeleted mailboxes mailboxId = Ok tt).
Proof.
  unfold targetOf, assertMailboxCanBeDeleted. intros ->.
  assert (Hr : normalized (mb_role m) = toLowerCase (trim (orEmpty (mb_role m))))
    by (destruct (mb_role m); reflexivity).
  assert (Hn : normalized (mb_name m) = toLowerCase (trim (orEmpty (mb_name m))))
    by (destruct (mb_name m); reflexivity).
  rewrite Hr, Hn. cbv zeta.
  set (role := toLowerCase (trim (orEmpty (mb_role m)))).
  set (name := toLowerCase (trim (orEmpty (mb_name m)))).
  repeat split.
  - intros Hin. rewrite (protected_nonEmpty _ Hin).
    apply mem_roles in Hin. now rewrite Hin.
  - intros Hre Hin. rewrite Hre.
    change (nonEmpty "") with false. cbn [andb negb].
    rewrite (protected_nonEmpty _ Hin).
    apply mem_names in Hin. now rewrite Hin.
  - intros Hnot Hor.
    destruct (mem role PROTECTED_MAILBOX_ROLES) eqn:Hm.
    + apply mem_roles in Hm. contradiction.
    + rewrite andb_false_r.
      destruct Hor as [Hne | Hnn].
      * destruct (nonEmpty role) eqn:He; [reflexivity|].
        apply nonEmpty_false in He. contradiction.
      * destruct (mem name PROTECTED_MAILBOX_NAMES) eqn:Hm'.
        -- apply mem_names in Hm'. contradiction.
        -- now rewrite andb_false_r.
Qed.

Definition projects : mailbox :=
  {| mb_id := "p1"; mb_role := None; mb_name := Some "Projects" |}.

Definition inbox : mailbox :=
  {| mb_id := "i1"; mb_role := Some "inbox"; mb_name := Some "Inbox" |}.

Definition trash_by_name : mailbox :=
  {| mb_id := "t1"; mb_role := None; mb_name := Some " TRASH " |}.

Lemma not_protected s : mem s PROTECTED_MAILBOX_NAMES = false -> ~ In s protectedSet.
Proof. intros Hm Hin. apply mem_names in Hin. congruence. Qed.

Lemma mailbox_deletion_guard_witness :
  assertMailboxCanBeDeleted [inbox; projects; trash_by_name] "p1" = Ok tt.
Proof.
  apply (mailbox_deletion_guard [inbox; projects; trash_by_name] "p1" projects eq_refl).
  - apply not_protected. reflexivity.
  - right. apply not_protected. reflexivity.
Defined.

Example inbox_role_refused :
  assertMailboxCanBeDeleted [inbox; projects; trash_by_name] "i1"
  = Throw (ProtectedRole "inbox").
Proof. reflexivity. Qed.

Example trash_name_refused :
  assertMailboxCanBeDeleted [inbox; projects; trash_by_name] "t1"
  = Throw (ProtectedName " TRASH ").
Proof. reflexivity. Qed.

End JmapFacts.

Module SendFacts.
Import Jmap.

Lemma find_first {A} (f : A -> bool) l1 x l2 :
  f x = true -> Forall (fun y => f y = false) l1 -> find f (l1 ++ x :: l2) = Some x.
Proof.
  intros Hx Hl1. induction Hl1 as [|y l1 Hy _ IH]; simpl.
  - now rewrite Hx.
  - now rewrite Hy.
Qed.

Lemma find_nowhere {A} (f : A -> bool) l :
  Forall (fun y => f y = false) l -> find f l = None.
Proof.
  intros Hl. induction Hl as [|y l Hy _ IH]; simpl; [reflexivity|]. now rewrite Hy.
Qed.

Lemma selected_nonempty ids from i :
  selectIdentity ids from = Some i -> Nat.eqb (List.length ids) 0 = false.
Proof.
  destruct ids; [|reflexivity].
  unfold selectIdentity. destruct (truthy from); discriminate.
Qed.

(** The pipeline up to the body check, once the session and the
    identities have arrived. *)
Lemma send_missing_body srv input a ids i :
  srv_session srv = Ok a ->
  srv_identities srv = Ok ids ->
  selectIdentity ids (in_from input) = Some i ->
  (sendEmail srv input = Throw MissingBody <->
   truthy (in_textBody input) = false /\ truthy (in_htmlBody input) = false).
Proof.
  intros Hs Hi Hsel. unfold sendEmail.
  rewrite Hs, Hi. cbn [mapThrow obind].
  rewrite (selected_nonempty _ _ _ Hsel). cbn [negb]. rewrite Hsel.
  destruct (truthy (in_textBody input) || truthy (in_htmlBody input)) eqn:Hb.
  - split.
    + destruct (srv_mailboxes srv) as [mbs|st]; cbn [mapThrow obind]; [|discriminate].
      destruct (findMailbox "drafts" "draft" mbs); [|discriminate].
      destruct (findMailbox "sent" "sent" mbs); [|discriminate].
      match goal with |- context [srv_send srv ?r] => destruct (srv_send srv r) as [res|st] end;
        cbn [mapThrow obind]; [|discriminate].
      destruct (rs_submissionId res) as [sid|]; [|discriminate].
      destruct (nonEmpty sid); discriminate.
    + intros [Ht Hh]. rewrite Ht, Hh in Hb. discriminate.
  - split; [intros _|reflexivity]. now apply orb_false_elim in Hb.
Qed.

(** *** The request that goes out *)

(** The same server with another answer to the send request. *)
Definition withSend (srv : server) (send : sendRequest -> outcome Z sendResponse) : server :=
  {| srv_session := srv_session srv;
     srv_identities := srv_identities srv;
     srv_mailboxes := srv_mailboxes srv;
     srv_send := send |}.

(** What [sendEmail] makes of the server's answer to its request. *)
Definition answered (answer : outcome Z sendResponse)
  : outcome error (string * option string) :=
  match answer with
  | Throw status => Throw (RequestFailed status)
  | Ok res =>
      match rs_submissionId res with
      | Some submissionId =>
          if nonEmpty submissionId
          then Ok (submissionId, rs_createdEmailId res)
          else Throw SubmissionFailed
      | None => Throw SubmissionFailed
      end
  end.

(** Once the identity is selected, a body is present and the two mailboxes
    are found, one request goes out, whatever the server answers to it, and
    the result is made of the answer. *)
Lemma sendEmail_posts srv input a ids i mbs drafts sent :
  srv_session srv = Ok a ->
  srv_identities srv = Ok ids ->
  selectIdentity ids (in_from input) = Some i ->
  truthy (in_textBody input) || truthy (in_htmlBody input) = true ->
  srv_mailboxes srv = Ok mbs ->
  findMailbox "drafts" "draft" mbs = Some drafts ->
  findMailbox "sent" "sent" mbs = Some sent ->
  exists req,
    sendEmail srv input = answered (srv_send srv req) /\
    (forall send, sendEmail (withSend srv send) input = answered (send req)) /\
    rq_accountId req = a /\
    eo_mailboxIds (rq_create req) = [mb_id drafts] /\
    eo_from (rq_create req) = idn_email i /\
    eo_to (rq_create req) = in_to input /\
    eo_textBody (rq_create req)
    = (if truthy (in_textBody input) then in_textBody input else None) /\
    eo_htmlBody (rq_create req)
    = (if truthy (in_htmlBody input) then in_htmlBody input else None) /\
    sub_identityId (rq_submit req) = idn_id i /\
    sub_mailFrom (rq_submit req) = idn_email i /\
    sub_rcptTo (rq_submit req) = in_to input /\
    sub_onSuccessMailboxIds (rq_submit req) = [mb_id sent].
Proof.
  intros Hs Hi Hsel Hb Hm Hd Hst.
  assert (Hrun : forall send,
            sendEmail (withSend srv send) input
            = answered (send
                {| rq_accountId := a;
                   rq_create := {|
                     eo_mailboxIds := [mb_id drafts];
                     eo_draft := true;
                     eo_from := idn_email i;
                     eo_to := in_to input;
                     eo_cc := match in_cc input with Some l => l | None => [] end;
                     eo_bcc := match in_bcc input with Some l => l | None => [] end;
                     eo_subject := in_subject input;
                     eo_textBody := bodyPart (in_textBody input);
                     eo_htmlBody := bodyPart (in_htmlBody input) |};
                   rq_submit := {|
                     sub_emailRef := "#draft";
                     sub_identityId := idn_id i;
                     sub_mailFrom := idn_email i;
                     sub_rcptTo := in_to input;
                     sub_onSuccessRef := "#draft";
                     sub_onSuccessMailboxIds := [mb_id sent];
                     sub_onSuccessSeen := true |} |})).
  { intros send. unfold sendEmail, withSend. cbn [srv_session srv_identities srv_mailboxes srv_send].
    rewrite Hs, Hi. cbn [mapThrow obind].
    rewrite (selected_nonempty _ _ _ Hsel). cbn [negb]. rewrite Hsel, Hb, Hm.
    cbn [mapThrow obind]. rewrite Hd, Hst.
    match goal with |- context [send ?r] => destruct (send r) as [res|st] end; reflexivity. }
  eexists. split; [|split; [exact Hrun|]].
  - rewrite <- (Hrun (srv_send srv)). destruct srv; reflexivity.
  - cbn. repeat split; reflexivity.
Qed.

(** After the selection, the selection error is out of reach. *)
Lemma selected_not_refused srv input a ids i :
  srv_session srv = Ok a ->
  srv_identities srv = Ok ids ->
  selectIdentity ids (in_from input) = Some i ->
  sendEmail srv input <> Throw NoMatchingIdentity.
Proof.
  intros Hs Hi Hsel. unfold sendEmail.
  rewrite Hs, Hi. cbn [mapThrow obind].
  rewrite (selected_nonempty _ _ _ Hsel). cbn [negb]. rewrite Hsel.
  destruct (truthy (in_textBody input) || truthy (in_htmlBody input)); [|discriminate].
  destruct (srv_mailboxes srv) as [mbs|st]; cbn [mapThrow obind]; [|discriminate].
  destruct (findMailbox "drafts" "draft" mbs); [|discriminate].
  destruct (findMailbox "sent" "sent" mbs); [|discriminate].
  match goal with |- context [srv_send srv ?r] => destruct (srv_send srv r) as [res|st] end;
    cbn [mapThrow obind]; [|discriminate].
  destruct (rs_submissionId res) as [sid|]; [|discriminate].
  destruct (nonEmpty sid); discriminate.
Qed.

Lemma unselected_refused srv input a ids :
  srv_session srv = Ok a ->
  srv_identities srv = Ok ids ->
  ids <> [] ->
  selectIdentity ids (in_from input) = None ->
  sendEmail srv input = Throw NoMatchingIdentity.
Proof.
  intros Hs Hi Hne Hsel. unfold sendEmail.
  rewrite Hs, Hi. cbn [mapThrow obind]. rewrite Hsel.
  destruct ids; [congruence|reflexivity].
Qed.

(** *** The selection *)

Lemma selectIdentity_cases ids from :
  (truthy from = true ->
     (forall l1 i l2,
        ids = (l1 ++ i :: l2)%list ->
        toLowerCase (orEmpty (idn_email i)) = toLowerCase (orEmpty from) ->
        Forall (fun j => toLowerCase (orEmpty (idn_email j))
                         <> toLowerCase (orEmpty from)) l1 ->
        selectIdentity ids from = Some i) /\
     (Forall (fun j => toLowerCase (orEmpty (idn_email j))
                       <> toLowerCase (orEmpty from)) ids ->
      selectIdentity ids from = None)) /\
  (truthy from = false ->
     (forall l1 i l2,
        ids = (l1 ++ i :: l2)%list ->
        idn_mayDelete i = Some false ->
        Forall (fun j => idn_mayDelete j <> Some false) l1 ->
        selectIdentity ids from = Some i) /\
     (Forall (fun j => idn_mayDelete j <> Some false) ids ->
      selectIdentity ids from = hd_error ids) /\
     (ids <> [] -> selectIdentity ids from <> None)).
Proof.
  assert (Hneq : forall l f, Forall (fun j => toLowerCase (orEmpty (idn_email j)) <> f) l ->
                 Forall (fun j => String.eqb (toLowerCase (orEmpty (idn_email j))) f = false) l).
  { intros l f. apply Forall_impl. intros j Hj. now apply String.eqb_neq. }
  assert (Hprim : forall l, Forall (fun j => idn_mayDelete j <> Some false) l ->
                  Forall (fun j => isPrimary j = false) l).
  { intros l. apply Forall_impl. intros j Hj. unfold isPrimary.
    destruct (idn_mayDelete j) as [[|]|]; congruence. }
  unfold selectIdentity. split; intros Hf; rewrite Hf.
  - split.
    + intros l1 i l2 -> Hi Hl1. apply find_first.
      * unfold emailMatches. now apply String.eqb_eq.
      * apply Hneq, Hl1.
    + intros Hall. apply find_nowhere. apply Hneq, Hall.
  - repeat split.
    + intros l1 i l2 -> Hi Hl1. rewrite find_first; [reflexivity| |now apply Hprim].
      unfold isPrimary. now rewrite Hi.
    + intros Hall. now rewrite find_nowhere by now apply Hprim.
    + intros Hne. destruct (find isPrimary ids); [discriminate|].
      destruct ids; [contradiction|discriminate].
Qed.

(** The send operation goes on with identity [i]: it does not fail for want
    of an identity, and the request it posts, once a body is present and
    the two mailboxes are found, names [i] as the author of the message, as
    the identity of the submission and as the sender of the envelope. *)
Definition sendsAs (srv : server) (input : sendInput) (i : identity) : Prop :=
  sendEmail srv input <> Throw NoMatchingIdentity /\
  forall mbs drafts sent,
    truthy (in_textBody input) || truthy (in_htmlBody input) = true ->
    srv_mailboxes srv = Ok mbs ->
    findMailbox "drafts" "draft" mbs = Some drafts ->
    findMailbox "sent" "sent" mbs = Some sent ->
    exists req,
      sendEmail srv input = answered (srv_send srv req) /\
      (forall send, sendEmail (withSend srv send) input = answered (send req)) /\
      eo_from (rq_create req) = idn_email i /\
      sub_identityId (rq_submit req) = idn_id i /\
      sub_mailFrom (rq_submit req) = idn_email i.

Lemma selected_sendsAs srv input a ids i :
  srv_session srv = Ok a ->
  srv_identities srv = Ok ids ->
  selectIdentity ids (in_from input) = Some i ->
  selectIdentity ids (in_from input) = Some i /\ sendsAs srv input i.
Proof.
  intros Hs Hi Hsel. split; [exact Hsel|]. split.
  - exact (selected_not_refused srv input a ids i Hs Hi Hsel).
  - intros mbs drafts sent Hb Hm Hd Hst.
    destruct (sendEmail_posts srv input a ids i mbs drafts sent Hs Hi Hsel Hb Hm Hd Hst)
      as [req [Hrun [Hany [_ [_ [Hfrom [_ [_ [_ [Hid [Hmail _]]]]]]]]]]].
    now exists req.
Qed.

Definition alice : identity :=
  {| idn_id := "I1"; idn_email := Some "Alice@Example.com"; idn_mayDelete := Some true |}.

Definition bob : identity :=
  {| idn_id := "I2"; idn_email := Some "bob@example.com"; idn_mayDelete := Some false |}.

Definition exampleServer : server :=
  {| srv_session := Ok "acc1";
     srv_identities := Ok [alice; bob];
     srv_mailboxes := Ok [ {| mb_id := "D"; mb_role := Some "drafts"; mb_name := Some "Drafts" |};
                           {| mb_id := "S"; mb_role := None; mb_name := Some "Sent Items" |} ];
     srv_send := fun _ => Ok {| rs_createdEmailId := Some "E1";
                                rs_submissionId := Some "S1" |} |}.

Definition message (from text html : option string) : sendInput :=
  {| in_to := ["dan@example.com"]; in_cc := None; in_bcc := None;
     in_from := from; in_subject := "Hello";
     in_textBody := text; in_htmlBody := html |}.

(** C4, as stated, fails: a message that carries both bodies is not
    rejected. *)
Lemma both_bodies_accepted :
  ~ (forall srv input a ids i,
       srv_session srv = Ok a ->
       srv_identities srv = Ok ids ->
       selectIdentity ids (in_from input) = Some i ->
       xorb (truthy (in_textBody input)) (truthy (in_htmlBody input)) = false ->
       sendEmail srv input = Throw MissingBody).
Proof.
  intros Hclaim.
  specialize (Hclaim exampleServer (message None (Some "hi") (Some "<p>hi</p>"))
                     "acc1" [alice; bob] bob eq_refl eq_refl eq_refl eq_refl).
  vm_compute in Hclaim. discriminate.
Qed.

(** C4, amended: once an identity is selected, the send operation fails
    with the missing-body error exactly when neither a non-empty text body
    nor a non-empty HTML body is supplied.  A message with both bodies
    passes the check; and when the Drafts and the Sent mailbox are found,
    the message that goes to the server carries each non-empty body that
    was supplied, so both of them when both were, and the result is made of
    the server's answer to that request. *)
Theorem missing_body_iff_neither srv input a ids i :
  srv_session srv = Ok a ->
  srv_identities srv = Ok ids ->
  selectIdentity ids (in_from input) = Some i ->
  (sendEmail srv input = Throw MissingBody <->
   truthy (in_textBody input) = false /\ truthy (in_htmlBody input) = false) /\
  (truthy (in_textBody input) = true -> truthy (in_htmlBody input) = true ->
   sendEmail srv input <> Throw MissingBody) /\
  (forall mbs drafts sent,
     srv_mailboxes srv = Ok mbs ->
     findMailbox "drafts" "draft" mbs = Some drafts ->
     findMailbox "sent" "sent" mbs = Some sent ->
     truthy (in_textBody input) = true \/ truthy (in_htmlBody input) = true ->
     exists req,
       sendEmail srv input = answered (srv_send srv req) /\
       (forall send, sendEmail (withSend srv send) input = answered (send req)) /\
       eo_textBody (rq_create req)
       = (if truthy (in_textBody input) then in_textBody input else None) /\
       eo_htmlBody (rq_create req)
       = (if truthy (in_htmlBody input) then in_htmlBody input else None) /\
       (truthy (in_textBody input) = true -> truthy (in_htmlBody input) = true ->
        eo_textBody (rq_create req) = in_textBody input /\
        eo_htmlBody (rq_create req) = in_htmlBody input)).
Proof.
  intros Hs Hi Hsel.
  pose proof (send_missing_body srv input a ids i Hs Hi Hsel) as Hiff.
  split; [exact Hiff|]. split.
  - intros Ht Hh Hthrow. apply Hiff in Hthrow. destruct Hthrow. congruence.
  - intros mbs drafts sent Hm Hd Hst Hbody.
    assert (Hb : truthy (in_textBody input) || truthy (in_htmlBody input) = true).
    { destruct Hbody as [-> | ->]; [reflexivity | apply orb_true_r]. }
    destruct (sendEmail_posts srv input a ids i mbs drafts sent Hs Hi Hsel Hb Hm Hd Hst)
      as [req [Hrun [Hany [_ [_ [_ [_ [Htext [Hhtml _]]]]]]]]].
    exists req. split; [exact Hrun|]. split; [exact Hany|].
    split; [exact Htext|]. split; [exact Hhtml|].
    intros Ht Hh. rewrite Htext, Hhtml, Ht, Hh. split; reflexivity.
Qed.

Definition bothBodies : sendInput := message None (Some "hi") (Some "<p>hi</p>").

Lemma missing_body_iff_neither_witness :
  sendEmail exampleServer (message None None (Some "")) = Throw MissingBody /\
  exists req,
    sendEmail exampleServer bothBodies = answered (srv_send exampleServer req) /\
    eo_textBody (rq_create req) = Some "hi" /\
    eo_htmlBody (rq_create req) = Some "<p>hi</p>".
Proof.
  split.
  - apply (missing_body_iff_neither exampleServer (message None None (Some ""))
             "acc1" [alice; bob] bob eq_refl eq_refl eq_refl).
    split; reflexivity.
  - destruct (proj2 (proj2 (missing_body_iff_neither exampleServer bothBodies
                              "acc1" [alice; bob] bob eq_refl eq_refl eq_refl))
                _ _ _ eq_refl eq_refl eq_refl (or_introl eq_refl))
      as [req [Hrun [_ [_ [_ Hboth]]]]].
    exists req. split; [exact Hrun|]. exact (Hboth eq_refl eq_refl).
Defined.

Example both_bodies_sent :
  sendEmail exampleServer (message None (Some "hi") (Some "<p>hi</p>"))
  = Ok ("S1", Some "E1").
Proof. reflexivity. Qed.

(** C9, as stated, fails: with identities on file, a [from] address that
    matches none of them makes the send operation fail instead of falling
    back to the primary or the first identity. *)
Lemma unmatched_from_fails :
  ~ (forall srv input a ids,
       srv_session srv = Ok a ->
       srv_identities srv = Ok ids ->
       ids <> [] ->
       sendEmail srv input <> Throw NoMatchingIdentity).
Proof.
  intros Hclaim.
  apply (Hclaim exampleServer (message (Some "carol@example.com") (Some "hi") None)
                "acc1" [alice; bob] eq_refl eq_refl).
  - discriminate.
  - reflexivity.
Qed.

(** C9, amended: with identities on file, when a non-empty [from] address
    is given, the send operation goes on with the first identity whose email
    equals it up to letter case, and fails with the no-matching-identity
    error when no identity matches; when no [from] is given, it goes on with
    the first identity with [mayDelete = false], else with the first
    identity, and never fails for want of a matching identity. *)
Theorem identity_selection srv input a ids :
  srv_session srv = Ok a ->
  srv_identities srv = Ok ids ->
  ids <> [] ->
  (truthy (in_from input) = true ->
     (forall l1 i l2,
        ids = (l1 ++ i :: l2)%list ->
        toLowerCase (orEmpty (idn_email i)) = toLowerCase (orEmpty (in_from input)) ->
        Forall (fun j => toLowerCase (orEmpty (idn_email j))
                         <> toLowerCase (orEmpty (in_from input))) l1 ->
        selectIdentity ids (in_from input) = Some i /\ sendsAs srv input i) /\
     (Forall (fun j => toLowerCase (orEmpty (idn_email j))
                       <> toLowerCase (orEmpty (in_from input))) ids ->
      selectIdentity ids (in_from input) = None /\
      sendEmail srv input = Throw NoMatchingIdentity)) /\
  (truthy (in_from input) = false ->
     (forall l1 i l2,
        ids = (l1 ++ i :: l2)%list ->
        idn_mayDelete i = Some false ->
        Forall (fun j => idn_mayDelete j <> Some false) l1 ->
        selectIdentity ids (in_from input) = Some i /\ sendsAs srv input i) /\
     (forall i rest,
        ids = i :: rest ->
        Forall (fun j => idn_mayDelete j <> Some false) ids ->
        selectIdentity ids (in_from input) = Some i /\ sendsAs srv input i) /\
     sendEmail srv input <> Throw NoMatchingIdentity).
Proof.
  intros Hs Hi Hne.
  destruct (selectIdentity_cases ids (in_from input)) as [Hgiven Habsent].
  split; intros Hf.
  - destruct (Hgiven Hf) as [Hfirst Hnone]. split.
    + intros l1 i l2 Hids Hmatch Hl1.
      apply (selected_sendsAs srv input a ids i Hs Hi).
      exact (Hfirst l1 i l2 Hids Hmatch Hl1).
    + intros Hall. split; [exact (Hnone Hall)|].
      exact (unselected_refused srv input a ids Hs Hi Hne (Hnone Hall)).
  - destruct (Habsent Hf) as [Hprimary [Hhead Hsome]]. split; [|split].
    + intros l1 i l2 Hids Hp Hl1.
      apply (selected_sendsAs srv input a ids i Hs Hi).
      exact (Hprimary l1 i l2 Hids Hp Hl1).
    + intros i rest Hids Hall.
      apply (selected_sendsAs srv input a ids i Hs Hi).
      rewrite (Hhead Hall), Hids. reflexivity.
    + destruct (selectIdentity ids (in_from input)) as [i|] eqn:Hsel.
      * exact (selected_not_refused srv input a ids i Hs Hi Hsel).
      * now destruct (Hsome Hne).
Qed.

Lemma identity_selection_witness :
  sendsAs exampleServer (message (Some "ALICE@example.COM") (Some "hi") None) alice /\
  sendEmail exampleServer (message (Some "carol@example.com") (Some "hi") None)
  = Throw NoMatchingIdentity /\
  sendsAs exampleServer (message None (Some "hi") None) bob.
Proof.
  split; [|split].
  - apply (proj1 (proj1 (identity_selection exampleServer
                           (message (Some "ALICE@example.COM") (Some "hi") None)
                           "acc1" [alice; bob] eq_refl eq_refl ltac:(discriminate))
                    eq_refl) [] alice [bob]); [reflexivity | reflexivity | constructor].
  - apply (proj2 (proj1 (identity_selection exampleServer
                           (message (Some "carol@example.com") (Some "hi") None)
                           "acc1" [alice; bob] eq_refl eq_refl ltac:(discriminate))
                    eq_refl)).
    repeat constructor; discriminate.
  - apply (proj1 (proj2 (identity_selection exampleServer (message None (Some "hi") None)
                           "acc1" [alice; bob] eq_refl eq_refl ltac:(discriminate))
                    eq_refl) [alice] bob []); [reflexivity | reflexivity | ].
    constructor; [discriminate | constructor].
Defined.

End SendFacts.

(** ** Calendars: the last-calendar guard and the rights check *)

Module DavFacts.
Import Dav.
Local Open Scope handler_scope.

Lemma bind_invoke_ok {A B} c (answer : outcome Z A) a (k : A -> handler B) log :
  answer = Ok a -> bind (invoke c answer) k log = k a (log ++ [c])%list.
Proof. intros ->. reflexivity. Qed.

(** The URLs of the deletion calls in a log. *)
Fixpoint deletions (log : list call) : list string :=
  match log with
  | [] => []
  | DeleteObject url :: r => url :: deletions r
  | _ :: r => deletions r
  end.

(** C6: once the target is found in the fetched list, deleting a calendar
    fails with the last-calendar error and issues no deletion call when
    the list has at most one calendar; when it has two or more, exactly
    one deletion call is issued, against the target URL, and its answer
    decides the result. *)
Theorem delete_calendar_keeps_last caldav calendarId calendars c :
  login caldav = Ok tt ->
  fetchCalendars caldav = Ok calendars ->
  findCalendar calendars calendarId = Some c ->
  let result := run (delete_calendar caldav calendarId) in
  ((calendarCount calendars <= 1)%nat ->
     fst result = Throw LastCalendar /\
     snd result = [Login; FetchCalendars] /\
     deletions (snd result) = []) /\
  ((2 <= calendarCount calendars)%nat ->
     snd result = [Login; FetchCalendars; DeleteObject calendarId] /\
     deletions (snd result) = [calendarId] /\
     fst result = match deleteObject caldav calendarId with
                  | Ok _ => Ok "OK"
                  | Throw st => Throw (ClientError st)
                  end).
Proof.
  intros Hl Hf Hc. unfold run, delete_calendar.
  rewrite (bind_invoke_ok _ _ tt _ _ Hl), (bind_invoke_ok _ _ calendars _ _ Hf), Hc.
  cbv zeta. split; intros Hn.
  - apply Nat.leb_le in Hn. rewrite Hn. repeat split.
  - assert (Hgt : (calendarCount calendars <=? 1)%nat = false) by (apply Nat.leb_gt; lia).
    rewrite Hgt.
    unfold bind, invoke.
    destruct (deleteObject caldav calendarId) as [[]|st]; repeat split.
Qed.

Definition work : calendar :=
  {| cal_url := "https://caldav.fastmail.com/dav/calendars/user/test@fastmail.com/work/";
     cal_displayName := Some "Work"; cal_timezone := None |}.

Definition default : calendar :=
  {| cal_url := "https://caldav.fastmail.com/dav/calendars/user/test@fastmail.com/default/";
     cal_displayName := Some "Default"; cal_timezone := None |}.

(** The mock of [calendar-crud.test.ts], with the PROPFIND answer and the
    calendar list left open. *)
Definition mockCaldav (calendars : list calendar) (rights : outcome Z jsval) : client :=
  {| login := Ok tt;
     fetchCalendars := Ok (Some calendars);
     propfind := fun _ => rights;
     deleteObject := fun _ => Ok tt;
     davRequest := fun _ _ => Ok tt;
     createCalendarObject := fun _ _ _ => Ok {| r_ok := true; r_status := 201; r_body := "" |};
     fetchCalendarObjects := fun _ objectUrls =>
       Ok (Some (map (fun url => {| x_url := url; x_etag := Some "etag-1" |}) objectUrls));
     updateCalendarObject := fun _ _ _ => Ok {| r_ok := true; r_status := 204; r_body := "" |};
     deleteCalendarObject := fun _ _ => Ok {| r_ok := true; r_status := 204; r_body := "" |} |}.

(** URL resolution of a plain file name against a collection URL that
    ends in a slash. *)
Definition underCollection (relative base : string) : option string :=
  Some (base ++ relative).

Lemma delete_calendar_keeps_last_witness :
  run (delete_calendar (mockCaldav [default; work] (Ok (JArr []))) (cal_url work))
  = (Ok "OK", [Login; FetchCalendars; DeleteObject (cal_url work)]) /\
  run (delete_calendar (mockCaldav [work] (Ok (JArr []))) (cal_url work))
  = (Throw LastCalendar, [Login; FetchCalendars]).
Proof.
  split.
  - destruct (delete_calendar_keeps_last
                (mockCaldav [default; work] (Ok (JArr []))) (cal_url work)
                (Some [default; work]) work eq_refl eq_refl eq_refl) as [_ Hmany].
    destruct (Hmany ltac:(unfold calendarCount; simpl; lia)) as [Hlog [_ Hres]].
    apply injective_projections; [exact Hres | exact Hlog].
  - destruct (delete_calendar_keeps_last
                (mockCaldav [work] (Ok (JArr []))) (cal_url work)
                (Some [work]) work eq_refl eq_refl eq_refl) as [Hone _].
    destruct (Hone ltac:(unfold calendarCount; simpl; lia)) as [Hres [Hlog _]].
    apply injective_projections; [exact Hres | exact Hlog].
Defined.

End DavFacts.

Module RightsFacts.
Import Dav DavFacts.
Local Open Scope handler_scope.

(** The privilege set a PROPFIND answer yields. *)
Definition privilegesOf (res : jsval) : list string :=
  extractDavPrivileges (getProp "currentUserPrivilegeSet" (getProp "props" (getFirst res))).

Definition writeTokens : list string := ["write"; "writeContent"; "writeProperties"; "all"].

Lemma mem_false_iff s l : mem s l = false <-> ~ In s l.
Proof.
  rewrite <- JmapFacts.mem_In. destruct (mem s l); split; congruence.
Qed.

Lemma canWrite_false_iff privs :
  canWrite (computeDavRights privs) = false <->
  forall w, In w writeTokens -> ~ In w privs.
Proof.
  unfold computeDavRights, writeTokens; cbn [canWrite].
  rewrite !orb_false_iff, !mem_false_iff. split.
  - intros [[[H1 H2] H3] H4] w Hw. simpl in Hw.
    repeat (destruct Hw as [Hw | Hw]; [subst; assumption|]). contradiction.
  - intros Hall. repeat split; apply Hall; simpl; tauto.
Qed.

(** What the probe returns, and that it costs one PROPFIND whatever the
    answer. *)
Lemma getCalendarRights_run caldav url log :
  getCalendarRights caldav url log =
  (Ok match propfind caldav url with
      | Ok res => match privilegesOf res with
                  | [] => None
                  | ps => Some (computeDavRights ps)
                  end
      | Throw _ => None
      end, (log ++ [Propfind url])%list).
Proof.
  unfold getCalendarRights, catch, bind, invoke, privilegesOf.
  destruct (propfind caldav url) as [res|st]; cbn [mapThrow]; [|reflexivity].
  destruct (extractDavPrivileges _); reflexivity.
Qed.

(** The probe denies: it succeeds with a non-empty privilege set that holds
    none of the write tokens. *)
Definition denies (probe : outcome Z jsval) : Prop :=
  exists res, probe = Ok res /\ privilegesOf res <> [] /\
              forall w, In w writeTokens -> ~ In w (privilegesOf res).

Definition deniesb (probe : outcome Z jsval) : bool :=
  match probe with
  | Ok res => match privilegesOf res with
              | [] => false
              | ps => negb (canWrite (computeDavRights ps))
              end
  | Throw _ => false
  end.

Lemma denies_iff probe : denies probe <-> deniesb probe = true.
Proof.
  unfold denies, deniesb. destruct probe as [res|st].
  - destruct (privilegesOf res) as [|x ps] eqn:Hp.
    + split; [|discriminate]. intros [res' [Heq [Hne _]]].
      inversion Heq; subst res'. congruence.
    + rewrite negb_true_iff, canWrite_false_iff. split.
      * intros [res' [Heq [_ Hnone]]]. inversion Heq; subst res'. now rewrite Hp in Hnone.
      * intros Hnone. exists res. rewrite Hp. split; [reflexivity|]. split; [discriminate|].
        exact Hnone.
  - split; [|discriminate]. intros [res [Heq _]]. discriminate.
Qed.

Lemma not_denies_iff probe : ~ denies probe <-> deniesb probe = false.
Proof. rewrite denies_iff. now destruct (deniesb probe). Qed.

Lemma read_only_denies res : privilegesOf res = ["read"] -> deniesb (Ok res) = true.
Proof. intros Hp. unfold deniesb. rewrite Hp. reflexivity. Qed.

Lemma all_allows res : In "all" (privilegesOf res) -> deniesb (Ok res) = false.
Proof.
  intros Hall. apply not_denies_iff. intros [res' [Heq [_ Hnone]]].
  inversion Heq; subst res'.
  apply (Hnone "all"); [unfold writeTokens; simpl; tauto | assumption].
Qed.

(** The probe and the check, in front of the rest [k] of a tool. *)
Lemma checked_run {A} caldav url (k : handler A) log :
  (rights <- getCalendarRights caldav url ;; assertWritable rights ;; k) log
  = if deniesb (propfind caldav url)
    then (Throw ReadOnly, (log ++ [Propfind url])%list)
    else k (log ++ [Propfind url])%list.
Proof.
  unfold bind at 1. rewrite getCalendarRights_run. unfold deniesb.
  destruct (propfind caldav url) as [res|st]; [|reflexivity].
  destruct (privilegesOf res) as [|x ps]; [reflexivity|].
  unfold bind, assertWritable.
  destruct (canWrite (computeDavRights (x :: ps))); reflexivity.
Qed.

Section Create.
Variable H : Timezone.host.
Variable href : string -> string -> option string.
Variable caldav : client.
Variable rt : Ical.runtime.
Variable organizerEmail : option string.
Variable p : eventParams.

(** The part of [create_calendar_event] that follows the rights check. *)
Definition afterCheck (calendar : Dav.calendar) : handler (string * string) :=
  if negb (truthy organizerEmail) then throw MissingOrganizer
  else
    let tz := Timezone.resolveTimezone H
                (Timezone.extractCalendarTimezone (cal_timezone calendar)) in
    start <- liftTz (Timezone.ensureOffsetAware H (p_start p) tz) ;;
    end_ <- liftTz (Timezone.ensureOffsetAware H (p_end p) tz) ;;
    ev <- liftIcal (Ical.buildIcsEvent rt {|
            Ical.ev_title := p_title p;
            Ical.ev_start := start;
            Ical.ev_end := end_;
            Ical.ev_description := p_description p;
            Ical.ev_location := p_location p;
            Ical.ev_organizerEmail := orEmpty organizerEmail;
            Ical.ev_organizerName := None;
            Ical.ev_attendees := p_attendees p |}) ;;
    res <- invoke (CreateCalendarObject (cal_url calendar) (Ical.b_ics ev)
                     (Ical.b_filename ev))
                  (createCalendarObject caldav (cal_url calendar) (Ical.b_ics ev)
                     (Ical.b_filename ev)) ;;
    if r_ok res
    then match href (Ical.b_filename ev) (cal_url calendar) with
         | Some eventUrl => ret (Ical.b_uid ev, eventUrl)
         | None => throw BadUrl
         end
    else throw (CreateFailed (r_status res) (take 500 (r_body res))).

Lemma create_calendar_event_steps :
  create_calendar_event H href caldav rt organizerEmail p =
  (invoke Login (login caldav) ;;
   calendars <- invoke FetchCalendars (fetchCalendars caldav) ;;
   match findCalendar calendars (p_calendarId p) with
   | None => throw CalendarNotFound
   | Some calendar =>
       rights <- getCalendarRights caldav (cal_url calendar) ;;
       assertWritable rights ;;
       afterCheck calendar
   end).
Proof. reflexivity. Qed.

Lemma liftTz_cases {A B} (m : outcome Timezone.error A) (k : A -> handler B) log :
  (exists a, m = Ok a /\ bind (liftTz m) k log = k a log) \/
  (exists e, bind (liftTz m) k log = (Throw (BadDatetime e), log)).
Proof. destruct m as [a|e]; [left; exists a | right; exists e]; auto. Qed.

(** Nothing after the rights check reports a read-only calendar. *)
Lemma afterCheck_not_read_only calendar log :
  fst (afterCheck calendar log) <> Throw ReadOnly.
Proof.
  unfold afterCheck.
  destruct (negb (truthy organizerEmail)); [discriminate|]. cbv zeta.
  match goal with |- context [bind (liftTz ?m) ?k log] =>
    destruct (liftTz_cases m k log) as [[a [_ ->]] | [e ->]] end; [|discriminate].
  match goal with |- context [bind (liftTz ?m) ?k log] =>
    destruct (liftTz_cases m k log) as [[b [_ ->]] | [e ->]] end; [|discriminate].
  unfold bind at 1.
  match goal with |- context [liftIcal ?m] => destruct m as [ev|e] end;
    cbn [liftIcal ret throw]; [|discriminate].
  unfold bind, invoke.
  match goal with |- context [createCalendarObject ?c ?u ?i ?f] =>
    destruct (createCalendarObject c u i f) as [res|st] end;
    cbn [mapThrow]; [|discriminate].
  destruct (r_ok res); [|discriminate].
  match goal with |- context [href ?f ?u] => destruct (href f u) end; discriminate.
Qed.

(** The run of [create_calendar_event] once the calendar is found. *)
Lemma create_calendar_event_run calendars calendar :
  login caldav = Ok tt ->
  fetchCalendars caldav = Ok calendars ->
  findCalendar calendars (p_calendarId p) = Some calendar ->
  run (create_calendar_event H href caldav rt organizerEmail p)
  = if deniesb (propfind caldav (cal_url calendar))
    then (Throw ReadOnly, [Login; FetchCalendars; Propfind (cal_url calendar)])
    else afterCheck calendar [Login; FetchCalendars; Propfind (cal_url calendar)].
Proof.
  intros Hl Hf Hc. unfold run. rewrite create_calendar_event_steps.
  rewrite (bind_invoke_ok _ _ tt _ _ Hl), (bind_invoke_ok _ _ calendars _ _ Hf), Hc.
  apply checked_run.
Qed.

(** The rest of the tool when nothing stands in the way: the object is
    created, and the answer decides the result. *)
Lemma afterCheck_creates calendar start end_ ev log :
  truthy organizerEmail = true ->
  Timezone.ensureOffsetAware H (p_start p)
    (Timezone.resolveTimezone H (Timezone.extractCalendarTimezone (cal_timezone calendar)))
  = Ok start ->
  Timezone.ensureOffsetAware H (p_end p)
    (Timezone.resolveTimezone H (Timezone.extractCalendarTimezone (cal_timezone calendar)))
  = Ok end_ ->
  Ical.buildIcsEvent rt {|
    Ical.ev_title := p_title p;
    Ical.ev_start := start;
    Ical.ev_end := end_;
    Ical.ev_description := p_description p;
    Ical.ev_location := p_location p;
    Ical.ev_organizerEmail := orEmpty organizerEmail;
    Ical.ev_organizerName := None;
    Ical.ev_attendees := p_attendees p |} = Ok ev ->
  afterCheck calendar log
  = (match createCalendarObject caldav (cal_url calendar) (Ical.b_ics ev)
             (Ical.b_filename ev) with
     | Throw status => Throw (ClientError status)
     | Ok res =>
         if r_ok res
         then match href (Ical.b_filename ev) (cal_url calendar) with
              | Some eventUrl => Ok (Ical.b_uid ev, eventUrl)
              | None => Throw BadUrl
              end
         else Throw (CreateFailed (r_status res) (take 500 (r_body res)))
     end,
     (log ++ [CreateCalendarObject (cal_url calendar) (Ical.b_ics ev)
                (Ical.b_filename ev)])%list).
Proof.
  intros Ho Hs He Hb. unfold afterCheck. rewrite Ho. cbn [negb]. cbv zeta.
  rewrite Hs. cbn [liftTz]. unfold bind at 1. cbn [ret].
  rewrite He. cbn [liftTz]. unfold bind at 1. cbn [ret].
  rewrite Hb. cbn [liftIcal]. unfold bind at 1. cbn [ret].
  unfold bind, invoke.
  destruct (createCalendarObject caldav (cal_url calendar) (Ical.b_ics ev)
              (Ical.b_filename ev)) as [res|st]; cbn [mapThrow]; [|reflexivity].
  destruct (r_ok res); [|reflexivity].
  destruct (href (Ical.b_filename ev) (cal_url calendar)); reflexivity.
Qed.

End Create.

(** The answers of [calendar-crud.test.ts]: a privilege list holding only
    [read], and one holding [all] as a single, attribute-bearing item. *)
Definition readOnlyAnswer : jsval :=
  JArr [JObj [("props", JObj [("currentUserPrivilegeSet",
    JObj [("privilege", JArr [JObj [("read", JObj [])]])])])]].

Definition allAnswer : jsval :=
  JArr [JObj [("props", JObj [("currentUserPrivilegeSet",
    JObj [("privilege", JObj [("_attributes", JObj []); ("all", JObj [])])])])]].

Definition lunch : eventParams :=
  {| p_calendarId := cal_url work; p_title := "Lunch";
     p_start := "2026-02-23T12:00:00"; p_end := "2026-02-23T13:00:00.000Z";
     p_description := None; p_location := None; p_attendees := None |}.

Example probe_failure_lets_the_write_through :
  snd (run (create_calendar_event Timezone.utcHost underCollection
              (mockCaldav [default; work] (Throw 500%Z))
              Ical.exampleRuntime (Some "me@example.com") lunch))
  = [ Login; FetchCalendars; Propfind (cal_url work);
      CreateCalendarObject (cal_url work)
        (Text.join CRLF
           [ "BEGIN:VCALENDAR"; "VERSION:2.0"; "PRODID:-//fastmail-mcp//EN";
             "CALSCALE:GREGORIAN"; "BEGIN:VEVENT";
             "UID:3b241101-e2bb-4255-8caf-4136c566a962";
             "DTSTAMP:20260223T150000Z"; "DTSTART:20260223T120000Z";
             "DTEND:20260223T130000Z"; "ORGANIZER:mailto:me@example.com";
             "SUMMARY:Lunch"; "END:VEVENT"; "END:VCALENDAR" ] ++ CRLF)
        "3b241101-e2bb-4255-8caf-4136c566a962.ics" ].
Proof. vm_compute. reflexivity. Qed.

Example all_privilege_lets_the_write_through :
  fst (run (create_calendar_event Timezone.utcHost underCollection
              (mockCaldav [default; work] (Ok allAnswer))
              Ical.exampleRuntime (Some "me@example.com") lunch))
  = Ok ("3b241101-e2bb-4255-8caf-4136c566a962",
        cal_url work ++ "3b241101-e2bb-4255-8caf-4136c566a962.ics").
Proof. vm_compute. reflexivity. Qed.

End RightsFacts.

Module UpdateFacts.
Import Dav DavFacts RightsFacts.
Local Open Scope handler_scope.

Section Update.
Variable H : Timezone.host.
Variable caldav : client.
Variable calendarId : string.

(** The part of [update_calendar] that follows the rights check. *)
Definition afterUpdateCheck (name description color timezone : option string) : handler string :=
  tzProp <- match timezone with
            | Some tz =>
                match Timezone.buildCalendarTimezoneProperty H tz with
                | Ok blob => ret (Some blob)
                | Throw e => throw (BadDatetime e)
                end
            | None => ret None
            end ;;
  let setProps := List.concat [
    setProp "displayname" name;
    setProp "c:calendar-description" description;
    setProp "ca:calendar-color" color;
    setProp "c:calendar-timezone" tzProp ] in
  invoke (Proppatch calendarId setProps) (davRequest caldav calendarId setProps) ;;
  ret "OK".

Lemma update_tail_not_read_only name description color timezone log :
  fst (afterUpdateCheck name description color timezone log) <> Throw ReadOnly.
Proof.
  unfold afterUpdateCheck, bind, invoke.
  destruct timezone as [tz|].
  - destruct (Timezone.buildCalendarTimezoneProperty H tz) as [blob|e];
      cbn [ret throw]; [|discriminate].
    match goal with |- context [davRequest ?c ?u ?p] =>
      destruct (davRequest c u p) as [[]|st] end; discriminate.
  - cbn [ret].
    match goal with |- context [davRequest ?c ?u ?p] =>
      destruct (davRequest c u p) as [[]|st] end; discriminate.
Qed.

Definition someProperty (name description color timezone : option string) : bool :=
  match name, description, color, timezone with
  | None, None, None, None => false
  | _, _, _, _ => true
  end.

Definition timezoneAccepted (timezone : option string) : bool :=
  match timezone with
  | Some tz => Timezone.isValidTimezone H tz
  | None => true
  end.

Lemma update_calendar_steps name description color timezone :
  someProperty name description color timezone = true ->
  timezoneAccepted timezone = true ->
  update_calendar H caldav calendarId name description color timezone =
  (invoke Login (login caldav) ;;
   calendars <- invoke FetchCalendars (fetchCalendars caldav) ;;
   match findCalendar calendars calendarId with
   | None => throw CalendarNotFound
   | Some _ =>
       rights <- getCalendarRights caldav calendarId ;;
       assertWritable rights ;;
       afterUpdateCheck name description color timezone
   end).
Proof.
  unfold someProperty, timezoneAccepted, update_calendar.
  destruct name, description, color, timezone; try discriminate;
    intros _ Hv; try rewrite Hv; reflexivity.
Qed.

End Update.

(** The read-only case of [calendar-crud.test.ts]. *)
Example update_of_read_only_calendar_refused :
  run (update_calendar Timezone.utcHost
         (mockCaldav [default; work] (Ok readOnlyAnswer))
         (cal_url default) (Some "X") None None None)
  = (Throw ReadOnly, [Login; FetchCalendars; Propfind (cal_url default)]).
Proof. vm_compute. reflexivity. Qed.

Example update_sends_one_proppatch :
  run (update_calendar Timezone.utcHost
         (mockCaldav [default; work] (Ok (JArr [])))
         (cal_url default) None None (Some "#0000FF") None)
  = (Ok "OK", [Login; FetchCalendars; Propfind (cal_url default);
               Proppatch (cal_url default) [("ca:calendar-color", "#0000FF")]]).
Proof. vm_compute. reflexivity. Qed.

End UpdateFacts.

(** ** Calendars: which tools stand behind the rights check *)

Module GuardFacts.
Import Text Dav DavFacts RightsFacts UpdateFacts.
Local Open Scope handler_scope.

(** *** The guarded tools: [create_calendar_event] and [update_calendar] *)

(** A run that the rights check stopped: the probe was the last call. *)
Definition blockedAt {A} (url : string) (result : outcome error A * list call) : Prop :=
  result = (Throw ReadOnly, [Login; FetchCalendars; Propfind url]).

(** The guard in front of a write at the calendar [url]: [result] is the
    run of the tool, [probe] the answer to the PROPFIND at [url], and
    [written] says that the write went out. *)
Definition guarded {A} (probe : outcome Z jsval) (url : string)
           (result : outcome error A * list call) (written : Prop) : Prop :=
  (fst result = Throw ReadOnly <-> denies probe) /\
  (denies probe -> blockedAt url result) /\
  (~ denies probe -> written) /\
  (forall status, probe = Throw status -> written) /\
  (forall res, probe = Ok res -> privilegesOf res = [] -> written) /\
  (forall res, probe = Ok res -> privilegesOf res = ["read"] -> blockedAt url result) /\
  (forall res, probe = Ok res -> In "all" (privilegesOf res) -> written).

Lemma guarded_of_run {A} probe url (result : outcome error A * list call) (written : Prop) :
  (deniesb probe = true -> blockedAt url result) ->
  (deniesb probe = false -> fst result <> Throw ReadOnly /\ written) ->
  guarded probe url result written.
Proof.
  intros Hblocked Hgoes. unfold guarded.
  split; [|split; [|split; [|split; [|split; [|split]]]]].
  - rewrite denies_iff. destruct (deniesb probe) eqn:Hd.
    + split; [reflexivity|]. intros _. now rewrite (Hblocked eq_refl).
    + split; [|discriminate]. intros Hr. now destruct (Hgoes eq_refl).
  - intros Hd. apply Hblocked. now apply denies_iff.
  - intros Hd. apply Hgoes. now apply not_denies_iff.
  - intros st ->. now apply Hgoes.
  - intros res -> Hnil. apply Hgoes. unfold deniesb. now rewrite Hnil.
  - intros res -> Hread. apply Hblocked. now apply read_only_denies.
  - intros res -> Hall. apply Hgoes. now apply all_allows.
Qed.

Section Guard.
Variable H : Timezone.host.
Variable href : string -> string -> option string.
Variable caldav : client.

(** The write of [create_calendar_event] went out: with an organizer in
    the environment, both date-times accepted and the event built, the one
    call after the probe creates the object with the built text under the
    built file name, and its answer decides the result. *)
Definition created (rt : Ical.runtime) (organizerEmail : option string) (p : eventParams)
           (calendar : Dav.calendar) (result : outcome error (string * string) * list call)
  : Prop :=
  forall start end_ ev,
    truthy organizerEmail = true ->
    Timezone.ensureOffsetAware H (p_start p)
      (Timezone.resolveTimezone H (Timezone.extractCalendarTimezone (cal_timezone calendar)))
    = Ok start ->
    Timezone.ensureOffsetAware H (p_end p)
      (Timezone.resolveTimezone H (Timezone.extractCalendarTimezone (cal_timezone calendar)))
    = Ok end_ ->
    Ical.buildIcsEvent rt {|
      Ical.ev_title := p_title p;
      Ical.ev_start := start;
      Ical.ev_end := end_;
      Ical.ev_description := p_description p;
      Ical.ev_location := p_location p;
      Ical.ev_organizerEmail := orEmpty organizerEmail;
      Ical.ev_organizerName := None;
      Ical.ev_attendees := p_attendees p |} = Ok ev ->
    snd result
    = [ Login; FetchCalendars; Propfind (cal_url calendar);
        CreateCalendarObject (cal_url calendar) (Ical.b_ics ev) (Ical.b_filename ev) ] /\
    fst result
    = match createCalendarObject caldav (cal_url calendar) (Ical.b_ics ev)
              (Ical.b_filename ev) with
      | Throw status => Throw (ClientError status)
      | Ok res =>
          if r_ok res
          then match href (Ical.b_filename ev) (cal_url calendar) with
               | Some eventUrl => Ok (Ical.b_uid ev, eventUrl)
               | None => Throw BadUrl
               end
          else Throw (CreateFailed (r_status res) (take 500 (r_body res)))
      end.

(** The write of [update_calendar] went out: with the timezone property
    built when a timezone is given, the one call after the probe is the
    PROPPATCH of the given properties, and its answer decides the result. *)
Definition patched (calendarId : string) (name description color timezone : option string)
           (result : outcome error string * list call) : Prop :=
  forall tzProp,
    match timezone with
    | Some tz => Timezone.buildCalendarTimezoneProperty H tz = Ok tzProp
    | None => True
    end ->
    let setProps := List.concat [
      setProp "displayname" name;
      setProp "c:calendar-description" description;
      setProp "ca:calendar-color" color;
      setProp "c:calendar-timezone" (option_map (fun _ => tzProp) timezone) ] in
    snd result
    = [ Login; FetchCalendars; Propfind calendarId; Proppatch calendarId setProps ] /\
    fst result
    = match davRequest caldav calendarId setProps with
      | Throw status => Throw (ClientError status)
      | Ok _ => Ok "OK"
      end.

Lemma create_guarded rt organizerEmail p calendars calendar :
  login caldav = Ok tt ->
  fetchCalendars caldav = Ok calendars ->
  findCalendar calendars (p_calendarId p) = Some calendar ->
  guarded (propfind caldav (cal_url calendar)) (cal_url calendar)
    (run (create_calendar_event H href caldav rt organizerEmail p))
    (created rt organizerEmail p calendar
       (run (create_calendar_event H href caldav rt organizerEmail p))).
Proof.
  intros Hl Hf Hc.
  pose proof (create_calendar_event_run H href caldav rt organizerEmail p
                calendars calendar Hl Hf Hc) as Hrun.
  apply guarded_of_run; intros Hd; rewrite Hd in Hrun.
  - exact Hrun.
  - rewrite Hrun. split; [apply afterCheck_not_read_only|].
    intros start end_ ev Ho Hs He Hb.
    rewrite (afterCheck_creates H href caldav rt organizerEmail p calendar
               start end_ ev _ Ho Hs He Hb).
    split; reflexivity.
Qed.

Lemma update_calendar_run calendarId name description color timezone calendars calendar :
  someProperty name description color timezone = true ->
  timezoneAccepted H timezone = true ->
  login caldav = Ok tt ->
  fetchCalendars caldav = Ok calendars ->
  findCalendar calendars calendarId = Some calendar ->
  run (update_calendar H caldav calendarId name description color timezone)
  = if deniesb (propfind caldav calendarId)
    then (Throw ReadOnly, [Login; FetchCalendars; Propfind calendarId])
    else afterUpdateCheck H caldav calendarId name description color timezone
           [Login; FetchCalendars; Propfind calendarId].
Proof.
  intros Hp Hv Hl Hf Hc. unfold run.
  rewrite (update_calendar_steps H caldav calendarId name description color timezone Hp Hv).
  rewrite (bind_invoke_ok _ _ tt _ _ Hl), (bind_invoke_ok _ _ calendars _ _ Hf), Hc.
  apply checked_run.
Qed.

Lemma update_guarded calendarId name description color timezone calendars calendar :
  someProperty name description color timezone = true ->
  timezoneAccepted H timezone = true ->
  login caldav = Ok tt ->
  fetchCalendars caldav = Ok calendars ->
  findCalendar calendars calendarId = Some calendar ->
  guarded (propfind caldav calendarId) calendarId
    (run (update_calendar H caldav calendarId name description color timezone))
    (patched calendarId name description color timezone
       (run (update_calendar H caldav calendarId name description color timezone))).
Proof.
  intros Hp Hv Hl Hf Hc.
  pose proof (update_calendar_run calendarId name description color timezone
                calendars calendar Hp Hv Hl Hf Hc) as Hrun.
  apply guarded_of_run; intros Hd; rewrite Hd in Hrun.
  - exact Hrun.
  - rewrite Hrun. split; [apply update_tail_not_read_only|].
    intros tzProp Htz. cbv zeta. unfold afterUpdateCheck, bind, invoke.
    destruct timezone as [tz|].
    + rewrite Htz. cbn [ret option_map].
      match goal with |- context [davRequest ?c ?u ?ps] =>
        destruct (davRequest c u ps) as [[]|st] end; split; reflexivity.
    + cbn [ret option_map].
      match goal with |- context [davRequest ?c ?u ?ps] =>
        destruct (davRequest c u ps) as [[]|st] end; split; reflexivity.
Qed.

(** *** The tools that write without a probe *)

Lemma delete_calendar_run calendarId calendars calendar :
  login caldav = Ok tt ->
  fetchCalendars caldav = Ok calendars ->
  findCalendar calendars calendarId = Some calendar ->
  (2 <= calendarCount calendars)%nat ->
  run (delete_calendar caldav calendarId)
  = (match deleteObject caldav calendarId with
     | Throw status => Throw (ClientError status)
     | Ok _ => Ok "OK"
     end, [Login; FetchCalendars; DeleteObject calendarId]).
Proof.
  intros Hl Hf Hc Hn. unfold run, delete_calendar.
  rewrite (bind_invoke_ok _ _ tt _ _ Hl), (bind_invoke_ok _ _ calendars _ _ Hf), Hc.
  assert (Hgt : (calendarCount calendars <=? 1)%nat = false) by (apply Nat.leb_gt; lia).
  rewrite Hgt. unfold bind, invoke.
  destruct (deleteObject caldav calendarId) as [[]|st]; reflexivity.
Qed.

Lemma update_calendar_event_run eventId iCalString calendars calendar objs existing :
  login caldav = Ok tt ->
  fetchCalendars caldav = Ok calendars ->
  findEventCalendar calendars eventId = Some calendar ->
  fetchCalendarObjects caldav calendar [eventId] = Ok objs ->
  firstObject objs = Some existing ->
  run (update_calendar_event caldav eventId iCalString)
  = (match updateCalendarObject caldav (x_url existing) (x_etag existing) iCalString with
     | Throw status => Throw (ClientError status)
     | Ok res => if r_ok res then Ok "OK" else Throw (UpdateFailed (r_status res))
     end,
     [ Login; FetchCalendars; FetchCalendarObjects (cal_url calendar) [eventId];
       UpdateCalendarObject (x_url existing) (x_etag existing) iCalString ]).
Proof.
  intros Hl Hf Hc Ho He. unfold run, update_calendar_event.
  rewrite (bind_invoke_ok _ _ tt _ _ Hl), (bind_invoke_ok _ _ calendars _ _ Hf), Hc.
  rewrite (bind_invoke_ok _ _ objs _ _ Ho), He.
  unfold bind, invoke.
  destruct (updateCalendarObject caldav (x_url existing) (x_etag existing) iCalString)
    as [res|st]; cbn [mapThrow]; [|reflexivity].
  destruct (r_ok res); reflexivity.
Qed.

Lemma delete_calendar_event_run eventId calendars calendar objs existing :
  login caldav = Ok tt ->
  fetchCalendars caldav = Ok calendars ->
  findEventCalendar calendars eventId = Some calendar ->
  fetchCalendarObjects caldav calendar [eventId] = Ok objs ->
  firstObject objs = Some existing ->
  run (delete_calendar_event caldav eventId)
  = (match deleteCalendarObject caldav (x_url existing) (x_etag existing) with
     | Throw status => Throw (ClientError status)
     | Ok res => if r_ok res then Ok "OK" else Throw (DeleteFailed (r_status res))
     end,
     [ Login; FetchCalendars; FetchCalendarObjects (cal_url calendar) [eventId];
       DeleteCalendarObject (x_url existing) (x_etag existing) ]).
Proof.
  intros Hl Hf Hc Ho He. unfold run, delete_calendar_event.
  rewrite (bind_invoke_ok _ _ tt _ _ Hl), (bind_invoke_ok _ _ calendars _ _ Hf), Hc.
  rewrite (bind_invoke_ok _ _ objs _ _ Ho), He.
  unfold bind, invoke.
  destruct (deleteCalendarObject caldav (x_url existing) (x_etag existing))
    as [res|st]; cbn [mapThrow]; [|reflexivity].
  destruct (r_ok res); reflexivity.
Qed.

(** C3, amended: of the tools that write to a calendar, two stand behind
    the privilege probe, [create_calendar_event] and [update_calendar].
    Each of them, once the calendar is found, is blocked with the read-only
    error exactly when the probe succeeds and yields a non-empty privilege
    set that holds none of write, writeContent, writeProperties and all,
    and then the probe is its last call: nothing is written.  When the
    probe throws, or yields an empty set, or a set with all, the write goes
    out: the object is created, or the properties are patched, by the one
    call that follows the probe, and the answer to that call decides the
    result; a set of only read blocks.  The other three, [delete_calendar],
    [update_calendar_event] and [delete_calendar_event], never probe: their
    write goes out whatever the privileges on the calendar are. *)
Theorem calendar_write_guard calendars :
  login caldav = Ok tt ->
  fetchCalendars caldav = Ok calendars ->
  (forall rt organizerEmail p calendar,
     findCalendar calendars (p_calendarId p) = Some calendar ->
     guarded (propfind caldav (cal_url calendar)) (cal_url calendar)
       (run (create_calendar_event H href caldav rt organizerEmail p))
       (created rt organizerEmail p calendar
          (run (create_calendar_event H href caldav rt organizerEmail p)))) /\
  (forall calendarId name description color timezone calendar,
     someProperty name description color timezone = true ->
     timezoneAccepted H timezone = true ->
     findCalendar calendars calendarId = Some calendar ->
     guarded (propfind caldav calendarId) calendarId
       (run (update_calendar H caldav calendarId name description color timezone))
       (patched calendarId name description color timezone
          (run (update_calendar H caldav calendarId name description color timezone)))) /\
  (forall calendarId calendar,
     findCalendar calendars calendarId = Some calendar ->
     (2 <= calendarCount calendars)%nat ->
     run (delete_calendar caldav calendarId)
     = (match deleteObject caldav calendarId with
        | Throw status => Throw (ClientError status)
        | Ok _ => Ok "OK"
        end, [Login; FetchCalendars; DeleteObject calendarId])) /\
  (forall eventId iCalString calendar objs existing,
     findEventCalendar calendars eventId = Some calendar ->
     fetchCalendarObjects caldav calendar [eventId] = Ok objs ->
     firstObject objs = Some existing ->
     run (update_calendar_event caldav eventId iCalString)
     = (match updateCalendarObject caldav (x_url existing) (x_etag existing) iCalString with
        | Throw status => Throw (ClientError status)
        | Ok res => if r_ok res then Ok "OK" else Throw (UpdateFailed (r_status res))
        end,
        [ Login; FetchCalendars; FetchCalendarObjects (cal_url calendar) [eventId];
          UpdateCalendarObject (x_url existing) (x_etag existing) iCalString ])) /\
  (forall eventId calendar objs existing,
     findEventCalendar calendars eventId = Some calendar ->
     fetchCalendarObjects caldav calendar [eventId] = Ok objs ->
     firstObject objs = Some existing ->
     run (delete_calendar_event caldav eventId)
     = (match deleteCalendarObject caldav (x_url existing) (x_etag existing) with
        | Throw status => Throw (ClientError status)
        | Ok res => if r_ok res then Ok "OK" else Throw (DeleteFailed (r_status res))
        end,
        [ Login; FetchCalendars; FetchCalendarObjects (cal_url calendar) [eventId];
          DeleteCalendarObject (x_url existing) (x_etag existing) ])).
Proof.
  intros Hl Hf. split; [|split; [|split; [|split]]].
  - intros rt organizerEmail p calendar Hc. now apply (create_guarded _ _ _ calendars).
  - intros calendarId name description color timezone calendar Hp Hv Hc.
    now apply (update_guarded _ _ _ _ _ calendars calendar).
  - intros calendarId calendar Hc Hn. now apply (delete_calendar_run _ calendars calendar).
  - intros eventId iCalString calendar objs existing Hc Ho He.
    now apply (update_calendar_event_run _ _ calendars calendar objs).
  - intros eventId calendar objs existing Hc Ho He.
    now apply (delete_calendar_event_run _ calendars calendar objs).
Qed.

End Guard.

Definition lunchUrl : string :=
  cal_url work ++ "3b241101-e2bb-4255-8caf-4136c566a962.ics".

(** C3, as stated, fails: a write against a calendar whose privilege set
    holds only read is not blocked when the tool is
    [update_calendar_event], which never asks for the privileges and sends
    the new text of the event. *)
Lemma read_only_calendar_is_written :
  ~ (forall caldav eventId iCalString calendars calendar res,
       login caldav = Ok tt ->
       fetchCalendars caldav = Ok calendars ->
       findEventCalendar calendars eventId = Some calendar ->
       propfind caldav (cal_url calendar) = Ok res ->
       privilegesOf res = ["read"] ->
       fst (run (update_calendar_event caldav eventId iCalString)) = Throw ReadOnly).
Proof.
  intros Hclaim.
  specialize (Hclaim (mockCaldav [default; work] (Ok readOnlyAnswer)) lunchUrl
                     "BEGIN:VCALENDAR" (Some [default; work]) work readOnlyAnswer
                     eq_refl eq_refl eq_refl eq_refl eq_refl).
  vm_compute in Hclaim. discriminate.
Qed.

(** The same calendar can be deleted. *)
Example read_only_calendar_is_deleted :
  run (delete_calendar (mockCaldav [default; work] (Ok readOnlyAnswer)) (cal_url work))
  = (Ok "OK", [Login; FetchCalendars; DeleteObject (cal_url work)]).
Proof. vm_compute. reflexivity. Qed.

Definition lunchEvent : Ical.built :=
  {| Ical.b_uid := "3b241101-e2bb-4255-8caf-4136c566a962";
     Ical.b_ics :=
       Text.join CRLF
         [ "BEGIN:VCALENDAR"; "VERSION:2.0"; "PRODID:-//fastmail-mcp//EN";
           "CALSCALE:GREGORIAN"; "BEGIN:VEVENT";
           "UID:3b241101-e2bb-4255-8caf-4136c566a962";
           "DTSTAMP:20260223T150000Z"; "DTSTART:20260223T120000Z";
           "DTEND:20260223T130000Z"; "ORGANIZER:mailto:me@example.com";
           "SUMMARY:Lunch"; "END:VEVENT"; "END:VCALENDAR" ] ++ CRLF;
     Ical.b_filename := "3b241101-e2bb-4255-8caf-4136c566a962.ics" |}.

Lemma calendar_write_guard_witness :
  blockedAt (cal_url work)
    (run (create_calendar_event Timezone.utcHost underCollection
            (mockCaldav [default; work] (Ok readOnlyAnswer))
            Ical.exampleRuntime (Some "me@example.com") lunch)) /\
  fst (run (create_calendar_event Timezone.utcHost underCollection
              (mockCaldav [default; work] (Ok allAnswer))
              Ical.exampleRuntime (Some "me@example.com") lunch))
  = Ok ("3b241101-e2bb-4255-8caf-4136c566a962", lunchUrl) /\
  run (update_calendar Timezone.utcHost (mockCaldav [default; work] (Throw 500%Z))
         (cal_url default) None None (Some "#0000FF") None)
  = (Ok "OK", [ Login; FetchCalendars; Propfind (cal_url default);
                Proppatch (cal_url default) [("ca:calendar-color", "#0000FF")] ]) /\
  run (delete_calendar_event (mockCaldav [default; work] (Ok readOnlyAnswer)) lunchUrl)
  = (Ok "OK", [ Login; FetchCalendars; FetchCalendarObjects (cal_url work) [lunchUrl];
                DeleteCalendarObject lunchUrl (Some "etag-1") ]).
Proof.
  split; [|split; [|split]].
  - destruct (calendar_write_guard Timezone.utcHost underCollection
                (mockCaldav [default; work] (Ok readOnlyAnswer))
                (Some [default; work]) eq_refl eq_refl) as [Hcreate _].
    destruct (Hcreate Ical.exampleRuntime (Some "me@example.com") lunch work eq_refl)
      as [_ [_ [_ [_ [_ [Hread _]]]]]].
    exact (Hread readOnlyAnswer eq_refl eq_refl).
  - destruct (calendar_write_guard Timezone.utcHost underCollection
                (mockCaldav [default; work] (Ok allAnswer))
                (Some [default; work]) eq_refl eq_refl) as [Hcreate _].
    destruct (Hcreate Ical.exampleRuntime (Some "me@example.com") lunch work eq_refl)
      as [_ [_ [_ [_ [_ [_ Hall]]]]]].
    destruct (Hall allAnswer eq_refl ltac:(vm_compute; tauto)
                "2026-02-23T12:00:00.000Z" "2026-02-23T13:00:00.000Z" lunchEvent
                eq_refl ltac:(vm_compute; reflexivity) ltac:(vm_compute; reflexivity)
                ltac:(vm_compute; reflexivity)) as [_ Hres].
    exact Hres.
  - destruct (calendar_write_guard Timezone.utcHost underCollection
                (mockCaldav [default; work] (Throw 500%Z))
                (Some [default; work]) eq_refl eq_refl) as [_ [Hupdate _]].
    destruct (Hupdate (cal_url default) None None (Some "#0000FF") None default
                eq_refl eq_refl eq_refl) as [_ [_ [_ [Hthrow _]]]].
    destruct (Hthrow 500%Z eq_refl "" I) as [Hlog Hres].
    apply injective_projections; [exact Hres | exact Hlog].
  - destruct (calendar_write_guard Timezone.utcHost underCollection
                (mockCaldav [default; work] (Ok readOnlyAnswer))
                (Some [default; work]) eq_refl eq_refl) as [_ [_ [_ [_ Hdelete]]]].
    exact (Hdelete lunchUrl work _ _ eq_refl eq_refl eq_refl).
Defined.

End GuardFacts.

(** ** Text lemmas shared by the codec proofs *)

Module TextFacts.

Lemma append_assoc (a b c : string) : (a ++ b) ++ c = a ++ (b ++ c).
Proof. induction a as [|x a IH]; simpl; [reflexivity | now rewrite IH]. Qed.

Lemma forallb_app p a b : Text.forallb p (a ++ b) = Text.forallb p a && Text.forallb p b.
Proof.
  induction a as [|x a IH]; simpl; [reflexivity|]. now rewrite IH, andb_assoc.
Qed.

Lemma forallb_impl (p q : ascii -> bool) s :
  (forall c, p c = true -> q c = true) -> Text.forallb p s = true -> Text.forallb q s = true.
Proof.
  intros Hpq. induction s as [|c s IH]; simpl; [reflexivity|].
  intros Hs. apply andb_prop in Hs. destruct Hs as [Hc Hs].
  now rewrite (Hpq _ Hc), IH.
Qed.

Definition notWhite (c : ascii) : bool := negb (isWhiteSpace c).
Definition notBreak (c : ascii) : bool := negb (isLineTerminator c).

(** Text without CR or LF. *)
Definition noBreak (s : string) : bool := Text.forallb notBreak s.

Lemma trimEnd_notWhite s : Text.forallb notWhite s = true -> trimEnd s = s.
Proof.
  induction s as [|c s IH]; simpl; [reflexivity|].
  intros Hs. apply andb_prop in Hs. destruct Hs as [Hc Hs].
  rewrite (IH Hs). unfold notWhite in Hc. apply negb_true_iff in Hc. rewrite Hc.
  now destruct s.
Qed.

Lemma trim_notWhite s : Text.forallb notWhite s = true -> trim s = s.
Proof.
  intros Hs. unfold trim.
  assert (Hst : trimStart s = s).
  { destruct s as [|c s]; [reflexivity|]. simpl in *.
    apply andb_prop in Hs. destruct Hs as [Hc _].
    unfold notWhite in Hc. apply negb_true_iff in Hc. now rewrite Hc. }
  rewrite Hst. now apply trimEnd_notWhite.
Qed.

(** [differs key l]: [l] departs from [key] at a position both have, so
    that no text starting with [l] starts with [key]. *)
Fixpoint differs (key l : string) : bool :=
  match key, l with
  | String a k, String b l' => if Ascii.eqb a b then differs k l' else true
  | _, _ => false
  end.

Lemma differs_dropPrefix key l s : differs key l = true -> dropPrefix key (l ++ s) = None.
Proof.
  revert l; induction key as [|a key IH]; intros l; destruct l as [|b l]; simpl;
    try discriminate.
  destruct (Ascii.eqb a b); [apply IH | reflexivity].
Qed.

(** No position of [pre] can start an occurrence of [key], whatever
    follows [pre]. *)
Fixpoint neverStarts (key pre : string) : bool :=
  match pre with
  | EmptyString => true
  | String _ r => differs key pre && neverStarts key r
  end.

End TextFacts.

(** ** The timezone resolver *)

Module TimezoneFacts.
Import Timezone TextFacts.

(** The alphabet of tz database names: ASCII letters and digits, and the
    characters [/ _ - + .] *)
Definition ianaChar (c : ascii) : bool :=
  let n := code c in
  (((65 <=? n) && (n <=? 90)) || ((97 <=? n) && (n <=? 122)) || isDigit c ||
   Text.mem (String c "") ["/"; "_"; "-"; "+"; "."])%N.

Definition ianaId (tz : string) : bool := nonEmpty tz && Text.forallb ianaChar tz.

Lemma ianaChar_plain c : ianaChar c = true -> notWhite c = true /\ notBreak c = true.
Proof.
  destruct c as [[] [] [] [] [] [] [] []]; vm_compute; intros Hc;
    try discriminate; split; reflexivity.
Qed.

Lemma lineRun_line v r :
  noBreak v = true -> lineRun (v ++ String CR r) = v.
Proof.
  induction v as [|c v IH]; simpl; [reflexivity|].
  intros Hv. apply andb_prop in Hv. destruct Hv as [Hc Hv].
  unfold notBreak in Hc. apply negb_true_iff in Hc. rewrite Hc. now rewrite IH.
Qed.

Lemma tzidMatch_skip pre s :
  neverStarts "TZID:" pre = true -> tzidMatch (pre ++ s) = tzidMatch s.
Proof.
  induction pre as [|c pre IH]; [reflexivity|].
  cbn [neverStarts]. intros Hn. apply andb_prop in Hn. destruct Hn as [Hd Hn].
  change (tzidMatch (String c pre ++ s))
    with (match tzidHere (String c pre ++ s) with
          | Some v => Some v
          | None => tzidMatch (pre ++ s)
          end).
  unfold tzidHere. rewrite (differs_dropPrefix _ _ s Hd). now apply IH.
Qed.

Lemma extract_tzid_line pre tz post :
  neverStarts "TZID:" pre = true ->
  nonEmpty tz = true ->
  Text.forallb notWhite tz = true ->
  noBreak tz = true ->
  extractCalendarTimezone (Some (pre ++ "TZID:" ++ tz ++ String CR post)) = Some tz.
Proof.
  intros Hpre Hne Hw Hb. unfold extractCalendarTimezone.
  assert (Ht : truthy (Some (pre ++ "TZID:" ++ tz ++ String CR post)) = true)
    by (destruct pre; reflexivity).
  rewrite Ht. cbn [orEmpty]. rewrite (tzidMatch_skip _ _ Hpre).
  assert (Hm : tzidMatch ("TZID:" ++ tz ++ String CR post) = Some tz).
  { cbn [tzidMatch append]. unfold tzidHere. cbn [dropPrefix Ascii.eqb Bool.eqb].
    rewrite (lineRun_line tz post Hb). now destruct tz. }
  rewrite Hm, (trim_notWhite _ Hw), Hne. reflexivity.
Qed.

(** C7: for every identifier the host's tz database accepts and that is
    written in the alphabet of tz database names, the synthesized
    VCALENDAR/VTIMEZONE property is built, and extracting the timezone from
    it gives the identifier back. *)
Theorem timezone_property_round_trip (H : host) (tz : string) :
  isValidTimezone H tz = true ->
  ianaId tz = true ->
  exists blob,
    buildCalendarTimezoneProperty H tz = Ok blob /\
    extractCalendarTimezone (Some blob) = Some tz.
Proof.
  unfold isValidTimezone, ianaId. intros Hvalid Hid.
  apply andb_prop in Hid. destruct Hid as [Hne Hchars].
  assert (Hw : Text.forallb notWhite tz = true)
    by (revert Hchars; apply forallb_impl; intros c Hc; now apply ianaChar_plain).
  assert (Hb : noBreak tz = true)
    by (revert Hchars; apply forallb_impl; intros c Hc; now apply ianaChar_plain).
  unfold buildCalendarTimezoneProperty, offsetMsAt.
  destruct (zoneOffset H tz) as [offset|]; [|discriminate].
  cbn [obind]. eexists. split; [reflexivity|].
  refine (extract_tzid_line
            ("BEGIN:VCALENDAR" ++ CRLF ++ "PRODID:-//fastmail-mcp//EN" ++ CRLF ++
             "VERSION:2.0" ++ CRLF ++ "BEGIN:VTIMEZONE" ++ CRLF)
            tz _ _ Hne Hw Hb).
  reflexivity.
Qed.

Lemma timezone_property_round_trip_witness :
  exists blob,
    buildCalendarTimezoneProperty utcHost "Europe/London" = Ok blob /\
    extractCalendarTimezone (Some blob) = Some "Europe/London".
Proof.
  apply (timezone_property_round_trip utcHost "Europe/London"); reflexivity.
Defined.

Example timezone_property_of_utc :
  buildCalendarTimezoneProperty utcHost "UTC"
  = Ok (join CRLF [ "BEGIN:VCALENDAR"; "PRODID:-//fastmail-mcp//EN"; "VERSION:2.0";
                    "BEGIN:VTIMEZONE"; "TZID:UTC"; "BEGIN:STANDARD";
                    "DTSTART:19700101T000000"; "TZOFFSETFROM:+0000";
                    "TZOFFSETTO:+0000"; "END:STANDARD"; "END:VTIMEZONE";
                    "END:VCALENDAR" ]).
Proof. vm_compute. reflexivity. Qed.

End TimezoneFacts.

Module NaiveFacts.
Import Timezone.
Local Open Scope Z_scope.

Lemma UTC_whole_seconds y mo d h mi s : exists k, JsDate.UTC y mo d h mi s = 1000 * k.
Proof.
  unfold JsDate.UTC, JsDate.msPerDay, JsDate.msPerMinute, JsDate.msPerSecond.
  set (day := JsDate.daysFromCivil _ _ _ + d - 1).
  exists (day * 86400 + h * 3600 + mi * 60 + s). lia.
Qed.

(** On a host whose own zone has a fixed offset, the two readings differ by
    the zone's offset at the instant itself. *)
Lemma offsetMsAt_fixedHost name m tz offset k :
  tzdata tz = Some offset ->
  offsetMsAt (fixedHost name m) tz (1000 * k) = Ok (offset (1000 * k) * 60000).
Proof.
  intros Htz. unfold offsetMsAt, reprIn, utcOffset, fixedHost, JsDate.msPerMinute.
  cbn [zoneOffset localOffset]. rewrite Htz. f_equal.
  replace (1000 * k + offset (1000 * k) * 60000)
    with ((k + offset (1000 * k) * 60) * 1000) by lia.
  replace (1000 * k + 0 * 60000) with (k * 1000) by lia.
  rewrite !Z.div_mul by lia. lia.
Qed.

(** What [naiveToUtcIso] computes on such a host: the naive fields are read
    as a UTC instant, and the zone's offset AT THAT INSTANT is taken away. *)
Lemma naiveToUtcIso_fixedHost name m naive tz offset y mo d h mi s :
  matchNaive naive = Some (y, mo, d, h, mi, s) ->
  tzdata tz = Some offset ->
  let asUtc := JsDate.UTC y (mo - 1) d h mi s in
  naiveToUtcIso (fixedHost name m) naive tz
  = Ok (JsDate.toISOString (asUtc - offset asUtc * 60000)).
Proof.
  intros Hn Htz asUtc. unfold naiveToUtcIso. rewrite Hn. fold asUtc.
  destruct (UTC_whole_seconds y (mo - 1) d h mi s) as [k Hk]. fold asUtc in Hk.
  rewrite Hk, (offsetMsAt_fixedHost name m tz offset k Htz). reflexivity.
Qed.

(** C1 fails on the code: on every host whose own zone has a fixed offset
    (UTC, for one), 03:30 on 8 March 2026 in New York is resolved with the
    standard offset that is in effect at 03:30 UTC, before the change, and
    comes out as 08:30 UTC, not as the 07:30 UTC that the claim and the
    repository's own test expect. *)
Theorem spring_forward_resolved_with_old_offset name m :
  naiveToUtcIso (fixedHost name m) "2026-03-08T03:30:00" "America/New_York"
  = Ok "2026-03-08T08:30:00.000Z".
Proof.
  rewrite (naiveToUtcIso_fixedHost name m "2026-03-08T03:30:00" "America/New_York"
             newYorkOffset 2026 3 8 3 30 0 eq_refl eq_refl).
  vm_compute. reflexivity.
Qed.

(** A time inside the skipped hour is treated the same way: 02:30 is read
    with the offset from before the gap. *)
Example skipped_hour_resolved_with_old_offset :
  naiveToUtcIso utcHost "2026-03-08T02:30:00" "America/New_York"
  = Ok "2026-03-08T07:30:00.000Z".
Proof. vm_compute. reflexivity. Qed.

(** On a host that is itself in New York the two readings straddle the
    host's own change, an hour is lost, and the test's value comes out. *)
Example spring_forward_on_new_york_host :
  naiveToUtcIso newYorkHost "2026-03-08T03:30:00" "America/New_York"
  = Ok "2026-03-08T07:30:00.000Z".
Proof. vm_compute. reflexivity. Qed.

Example standard_time_example :
  naiveToUtcIso utcHost "2026-01-15T14:30:00" "America/New_York"
  = Ok "2026-01-15T19:30:00.000Z".
Proof. vm_compute. reflexivity. Qed.

Example daylight_time_example :
  naiveToUtcIso utcHost "2026-06-15T14:30:00" "America/New_York"
  = Ok "2026-06-15T18:30:00.000Z".
Proof. vm_compute. reflexivity. Qed.

Example offset_suffix_refused :
  naiveToUtcIso utcHost "2026-02-23T15:00:00Z" "UTC"
  = Throw (InvalidNaiveDatetime "2026-02-23T15:00:00Z").
Proof. vm_compute. reflexivity. Qed.

End NaiveFacts.

(** ** Content lines: unfolding and searching *)

Module ContentLineFacts.
Import ContentLine TextFacts.

Lemma notBreak_eqb c :
  notBreak c = true -> Ascii.eqb c LF = false /\ Ascii.eqb c CR = false.
Proof.
  unfold notBreak, isLineTerminator. intros Hc.
  apply negb_true_iff in Hc. now apply orb_false_elim in Hc.
Qed.

Lemma unfold_step c1 r1 :
  unfold (String c1 r1) =
  match r1 with
  | String c2 r2 =>
      if Ascii.eqb c1 LF && isFoldSpace c2 then unfold r2
      else match r2 with
           | String c3 r3 =>
               if Ascii.eqb c1 CR && Ascii.eqb c2 LF && isFoldSpace c3
               then unfold r3
               else String c1 (unfold r1)
           | EmptyString => String c1 (unfold r1)
           end
  | EmptyString => String c1 EmptyString
  end.
Proof. destruct r1; reflexivity. Qed.

Lemma unfold_cons_plain c r : notBreak c = true -> unfold (String c r) = String c (unfold r).
Proof.
  intros Hc. destruct (notBreak_eqb c Hc) as [Hlf Hcr].
  rewrite unfold_step. destruct r as [|c2 r2]; [reflexivity|].
  rewrite Hlf, Hcr. cbn [andb]. now destruct r2.
Qed.

Lemma unfold_plain_app a s : noBreak a = true -> unfold (a ++ s) = a ++ unfold s.
Proof.
  induction a as [|c a IH]; [reflexivity|].
  cbn [noBreak Text.forallb append]. intros Ha.
  apply andb_prop in Ha. destruct Ha as [Hc Ha].
  rewrite (unfold_cons_plain _ _ Hc). now rewrite (IH Ha).
Qed.

(** The start of a line that is no continuation line. *)
Definition startsOk (s : string) : bool :=
  match s with
  | String c _ => negb (isFoldSpace c)
  | EmptyString => true
  end.

Lemma unfold_crlf s : startsOk s = true -> unfold (CRLF ++ s) = CRLF ++ unfold s.
Proof.
  intros Hs. change (CRLF ++ s) with (String CR (String LF s)).
  rewrite unfold_step. change (Ascii.eqb CR LF) with false. cbn [andb].
  destruct s as [|c3 r3]; [reflexivity|].
  cbn [startsOk] in Hs. apply negb_true_iff in Hs.
  change (Ascii.eqb CR CR) with true. change (Ascii.eqb LF LF) with true.
  rewrite Hs. cbn [andb].
  rewrite (unfold_step LF). rewrite Hs.
  change (Ascii.eqb LF CR) with false. cbn [andb].
  change (Ascii.eqb LF LF) with true. cbn [andb].
  now destruct r3.
Qed.

Lemma unfold_continuation s : unfold (CRLF ++ String SP s) = unfold s.
Proof. reflexivity. Qed.

(** Lines, each closed by CRLF, before the text [s]. *)
Definition block (ls : list string) (s : string) : string :=
  fold_right (fun l acc => l ++ CRLF ++ acc) s ls.

Lemma join_block ls : ls <> [] -> join CRLF ls ++ CRLF = block ls "".
Proof.
  induction ls as [|l ls IH]; [congruence|]. intros _.
  destruct ls as [|l' ls'].
  - reflexivity.
  - change (join CRLF (l :: l' :: ls')) with (l ++ CRLF ++ join CRLF (l' :: ls')).
    rewrite !append_assoc. rewrite IH by discriminate. reflexivity.
Qed.


Lemma startsOk_block l ls s : startsOk l = true -> startsOk (block (l :: ls) s) = true.
Proof. destruct l; intros Hl; [reflexivity | exact Hl]. Qed.

(** *** Searching for a key *)

Lemma valueMatch_step key c s :
  valueMatch key (String c s) =
  match valueHere key (String c s) with
  | Some m => Some m
  | None => valueMatch key s
  end.
Proof. reflexivity. Qed.

Lemma valueMatch_skip_char key c s :
  Ascii.eqb c LF = false -> valueMatch key (String c s) = valueMatch key s.
Proof.
  intros Hc. rewrite valueMatch_step. unfold valueHere. cbn [dropPrefix].
  rewrite Ascii.eqb_sym, Hc. reflexivity.
Qed.

Lemma valueMatch_skip key a s :
  noBreak a = true -> valueMatch key (a ++ s) = valueMatch key s.
Proof.
  induction a as [|c a IH]; [reflexivity|].
  cbn [noBreak Text.forallb append]. intros Ha.
  apply andb_prop in Ha. destruct Ha as [Hc Ha].
  rewrite valueMatch_skip_char by now apply notBreak_eqb. now apply IH.
Qed.

Lemma dropPrefix_app_some key l l' x :
  dropPrefix key l = Some l' -> dropPrefix key (l ++ x) = Some (l' ++ x).
Proof.
  revert l; induction key as [|a key IH]; intros l; cbn [dropPrefix].
  - now intros [= ->].
  - destruct l as [|b l]; [discriminate|]. cbn [append].
    destruct (Ascii.eqb a b); [apply IH | discriminate].
Qed.

Lemma dropPrefix_app_none key l s :
  noBreak key = true -> dropPrefix key l = None -> dropPrefix key (l ++ String CR s) = None.
Proof.
  revert l; induction key as [|a key IH]; intros l; cbn [dropPrefix]; [discriminate|].
  cbn [noBreak Text.forallb]. intros Hk. apply andb_prop in Hk. destruct Hk as [Ha Hk].
  destruct l as [|b l]; cbn [append].
  - intros _. destruct (notBreak_eqb a Ha) as [_ Hcr]. now rewrite Hcr.
  - destruct (Ascii.eqb a b); [now apply IH | reflexivity].
Qed.

Lemma afterColon_app l v x : afterColon l = Some v -> afterColon (l ++ x) = Some (v ++ x).
Proof.
  induction l as [|c l IH]; cbn [afterColon append]; [discriminate|].
  destruct (Ascii.eqb c ":"); [now intros [= ->] | exact IH].
Qed.

Lemma afterColon_noBreak l v : afterColon l = Some v -> noBreak l = true -> noBreak v = true.
Proof.
  induction l as [|c l IH]; cbn [afterColon noBreak Text.forallb]; [discriminate|].
  intros Hc Hl. apply andb_prop in Hl. destruct Hl as [_ Hl].
  destruct (Ascii.eqb c ":"); [now inversion Hc; subst | now apply IH].
Qed.

Lemma dropPrefix_noBreak key l l' :
  dropPrefix key l = Some l' -> noBreak l = true -> noBreak l' = true.
Proof.
  revert l; induction key as [|a key IH]; intros l; cbn [dropPrefix].
  - now intros [= ->].
  - destruct l as [|b l]; [discriminate|]. cbn [noBreak Text.forallb].
    intros Hd Hl. apply andb_prop in Hl. destruct Hl as [_ Hl].
    destruct (Ascii.eqb a b); [now apply (IH l) | discriminate].
Qed.

Lemma dotRun_line v s : noBreak v = true -> dotRun (v ++ String CR s) = (v, String CR s).
Proof.
  induction v as [|c v IH]; [reflexivity|].
  cbn [noBreak Text.forallb append dotRun]. intros Hv.
  apply andb_prop in Hv. destruct Hv as [Hc Hv].
  unfold notBreak in Hc. apply negb_true_iff in Hc. rewrite Hc. now rewrite (IH Hv).
Qed.

(** A line that carries the key: the value is what follows its first
    colon after the key, and the search resumes at the line's CR. *)
Lemma valueMatch_line_hit key l l' v s :
  noBreak l = true ->
  dropPrefix key l = Some l' ->
  afterColon l' = Some v ->
  valueMatch key (String LF (l ++ String CR s)) = Some (v, String CR s).
Proof.
  intros Hl Hd Hc. rewrite valueMatch_step. unfold valueHere. cbn [dropPrefix].
  change (Ascii.eqb LF LF) with true. cbn iota.
  rewrite (dropPrefix_app_some _ _ _ _ Hd), (afterColon_app _ _ _ Hc).
  rewrite dotRun_line; [reflexivity|].
  eapply afterColon_noBreak; [eassumption|]. eapply dropPrefix_noBreak; eassumption.
Qed.

(** A line that does not start with the key is passed over. *)
Lemma valueMatch_line_miss key l s :
  noBreak key = true ->
  noBreak l = true ->
  dropPrefix key l = None ->
  valueMatch key (String LF (l ++ String CR s)) = valueMatch key s.
Proof.
  intros Hk Hl Hd. rewrite valueMatch_step. unfold valueHere. cbn [dropPrefix].
  change (Ascii.eqb LF LF) with true. cbn iota.
  rewrite (dropPrefix_app_none _ _ _ Hk Hd).
  rewrite (valueMatch_skip _ _ _ Hl). now apply valueMatch_skip_char.
Qed.


(** The loop of [getAll], one round at a time. *)
Lemma getAll_step key text :
  getAll key text =
  match valueMatch key text with
  | None => []
  | Some (v, rest) => trim v :: getAll key rest
  end.
Proof.
  assert (Hclause : forall o (e : valueMatch key text = o),
            getAll_unfold_clause_1 key text (exist _ o e) =
            match o with
            | None => []
            | Some (v, rest) => trim v :: getAll key rest
            end).
  { intros [[v rest]|] e; reflexivity. }
  rewrite getAll_equation_1. apply Hclause.
Qed.

End ContentLineFacts.

(** ** The iCalendar codec *)

Module IcalFacts.
Import ContentLine Ical TextFacts ContentLineFacts.

Lemma take_drop n s : take n s ++ drop n s = s.
Proof.
  revert s; induction n as [|n IH]; intros s; [reflexivity|].
  destruct s as [|c s]; [reflexivity|]. cbn [take drop append]. now rewrite IH.
Qed.

Lemma noBreak_take n s : noBreak s = true -> noBreak (take n s) = true.
Proof.
  revert s; induction n as [|n IH]; intros s; [reflexivity|].
  destruct s as [|c s]; [reflexivity|]. cbn [take noBreak Text.forallb].
  intros Hs. apply andb_prop in Hs. destruct Hs as [Hc Hs].
  rewrite Hc. now apply IH.
Qed.

Lemma noBreak_drop n s : noBreak s = true -> noBreak (drop n s) = true.
Proof.
  revert s; induction n as [|n IH]; intros s; [now destruct s|].
  destruct s as [|c s]; [reflexivity|]. cbn [drop noBreak Text.forallb].
  intros Hs. apply andb_prop in Hs. destruct Hs as [_ Hs]. now apply IH.
Qed.

Lemma foldParts_eq rest :
  foldParts rest =
  if (max <? String.length rest)%nat
  then take max rest :: foldParts (String SP (drop max rest))
  else [rest].
Proof.
  assert (Hclause : forall o (e : (max <? String.length rest)%nat = o),
            foldParts_unfold_clause_1 rest (exist _ o e) =
            if o then take max rest :: foldParts (String SP (drop max rest))
            else [rest]).
  { intros [|] e; reflexivity. }
  rewrite foldParts_equation_1. apply Hclause.
Qed.

Lemma foldParts_head c x :
  exists y ps, foldParts (String c x) = String c y :: ps.
Proof.
  rewrite foldParts_eq. destruct (max <? String.length (String c x))%nat.
  - eexists. eexists. reflexivity.
  - eexists. eexists. reflexivity.
Qed.

Lemma join_head sep c y ps : exists z, join sep (String c y :: ps) = String c z.
Proof. destruct ps; eexists; reflexivity. Qed.

Lemma join_cons sep p q ps : join sep (p :: q :: ps) = p ++ sep ++ join sep (q :: ps).
Proof. reflexivity. Qed.

(** Unfolding undoes the folding of a line without line breaks, whatever
    follows the folded line. *)
Lemma unfold_foldParts rest :
  noBreak rest = true ->
  forall tail, unfold (join CRLF (foldParts rest) ++ tail) = rest ++ unfold tail.
Proof.
  apply (foldParts_elim (fun rest parts =>
    noBreak rest = true ->
    forall tail, unfold (join CRLF parts ++ tail) = rest ++ unfold tail)).
  - clear rest. intros rest _ IH _ Hrest tail.
    destruct (foldParts_head SP (drop max rest)) as [y [ps Hps]].
    rewrite Hps in *.
    destruct (join_head CRLF SP y ps) as [z Hz].
    rewrite join_cons, Hz, !append_assoc.
    rewrite (unfold_plain_app _ _ (noBreak_take max rest Hrest)).
    change (String SP z ++ tail) with (String SP (z ++ tail)).
    rewrite unfold_continuation.
    assert (Hrest' : noBreak (String SP (drop max rest)) = true)
      by (change (notBreak SP && noBreak (drop max rest) = true);
          now rewrite (noBreak_drop max rest Hrest)).
    specialize (IH Hrest' tail). rewrite Hz in IH.
    change (String SP z ++ tail) with (String SP (z ++ tail)) in IH.
    rewrite unfold_cons_plain in IH by reflexivity.
    cbn [append] in IH. injection IH as IH. rewrite IH.
    now rewrite <- append_assoc, take_drop.
  - clear rest. intros rest _ _ Hrest tail. cbn [join].
    now apply unfold_plain_app.
Qed.

Lemma unfold_foldLine l tail :
  noBreak l = true -> unfold (foldLine l ++ tail) = l ++ unfold tail.
Proof.
  intros Hl. unfold foldLine. destruct (String.length l <=? max)%nat.
  - now apply unfold_plain_app.
  - now apply unfold_foldParts.
Qed.

Lemma startsOk_foldLine l : startsOk (foldLine l) = startsOk l.
Proof.
  destruct l as [|c x]; [reflexivity|]. unfold foldLine.
  destruct (String.length (String c x) <=? max)%nat; [reflexivity|].
  destruct (foldParts_head c x) as [y [ps ->]].
  destruct (join_head CRLF c y ps) as [z ->]. reflexivity.
Qed.

(** *** Escaping *)

Lemma forallb_replaceChar p c by_ v :
  Text.forallb p by_ = true ->
  Text.forallb p (replaceChar c by_ v) = Text.forallb (fun a => Ascii.eqb a c || p a) v.
Proof.
  intros Hby. induction v as [|a v IH]; [reflexivity|].
  cbn [replaceChar Text.forallb]. rewrite forallb_app, IH.
  destruct (Ascii.eqb a c); cbn [orb Text.forallb]; [now rewrite Hby|].
  now rewrite andb_true_r.
Qed.

Lemma forallb_true p s : (forall c, p c = true) -> Text.forallb p s = true.
Proof.
  intros Hp. induction s as [|c s IH]; [reflexivity|]. cbn [Text.forallb].
  now rewrite Hp, IH.
Qed.

Lemma noBreak_escText v : noBreak (escText v) = true.
Proof.
  unfold noBreak, escText.
  rewrite !forallb_replaceChar by reflexivity.
  apply forallb_true. intros c. unfold notBreak, isLineTerminator.
  destruct (Ascii.eqb c LF), (Ascii.eqb c CR); cbn; rewrite ?orb_true_r; reflexivity.
Qed.

Lemma replaceChar_absent c by_ v :
  Text.forallb (fun a => negb (Ascii.eqb a c)) v = true -> replaceChar c by_ v = v.
Proof.
  induction v as [|a v IH]; [reflexivity|]. cbn [Text.forallb replaceChar].
  intros Hv. apply andb_prop in Hv. destruct Hv as [Ha Hv].
  apply negb_true_iff in Ha. rewrite Ha, (IH Hv). reflexivity.
Qed.

(** Characters that [escText] leaves alone. *)
Definition plainChar (c : ascii) : bool :=
  negb (Ascii.eqb c "\" || Ascii.eqb c LF || Ascii.eqb c CR ||
        Ascii.eqb c ";" || Ascii.eqb c ",").

Lemma escText_plain v : Text.forallb plainChar v = true -> escText v = v.
Proof.
  intros Hv. unfold escText.
  assert (Habsent : forall x,
            (forall c, plainChar c = true -> negb (Ascii.eqb c x) = true) ->
            Text.forallb (fun a => negb (Ascii.eqb a x)) v = true).
  { intros x Hx. revert Hv. now apply forallb_impl. }
  assert (Hcases : forall c, plainChar c = true ->
            Ascii.eqb c "\" = false /\ Ascii.eqb c LF = false /\ Ascii.eqb c CR = false /\
            Ascii.eqb c ";" = false /\ Ascii.eqb c "," = false).
  { intros c. unfold plainChar.
    destruct (Ascii.eqb c "\"), (Ascii.eqb c LF), (Ascii.eqb c CR),
             (Ascii.eqb c ";"), (Ascii.eqb c ","); cbn; intros Hc;
      try discriminate; repeat split. }
  rewrite (replaceChar_absent "\" _ v)
    by (apply Habsent; intros c Hc; apply negb_true_iff; apply (Hcases c Hc)).
  rewrite (replaceChar_absent LF _ v)
    by (apply Habsent; intros c Hc; apply negb_true_iff; apply (Hcases c Hc)).
  rewrite (replaceChar_absent CR _ v)
    by (apply Habsent; intros c Hc; apply negb_true_iff; apply (Hcases c Hc)).
  rewrite (replaceChar_absent ";" _ v)
    by (apply Habsent; intros c Hc; apply negb_true_iff; apply (Hcases c Hc)).
  apply replaceChar_absent.
  apply Habsent; intros c Hc; apply negb_true_iff; apply (Hcases c Hc).
Qed.

End IcalFacts.

Module EventFacts.
Import ContentLine Ical TextFacts ContentLineFacts IcalFacts.

(** *** The date and time stamps have no line breaks *)

Lemma noBreak_app a b : noBreak (a ++ b) = noBreak a && noBreak b.
Proof. apply forallb_app. Qed.

Lemma noBreak_uint d : noBreak (NilEmpty.string_of_uint d) = true.
Proof. induction d; cbn; auto. Qed.

Lemma noBreak_decimal n : noBreak (JsDate.decimal n) = true.
Proof.
  unfold JsDate.decimal, NilZero.string_of_int, NilZero.string_of_uint.
  destruct (Z.to_int n) as [d|d].
  - destruct d; try reflexivity; apply (noBreak_uint (_ _)).
  - change (notBreak "-" && noBreak match d with
                                    | Decimal.Nil => "0"
                                    | _ => NilEmpty.string_of_uint d
                                    end = true).
    destruct d; try reflexivity; apply (noBreak_uint (_ _)).
Qed.

Lemma noBreak_zeros k : noBreak (String.concat "" (repeat "0" k)) = true.
Proof.
  induction k as [|k IH]; [reflexivity|].
  cbn [repeat String.concat]. destruct (repeat "0" k) eqn:Hr; [reflexivity|].
  rewrite !noBreak_app, IH. reflexivity.
Qed.

Lemma noBreak_pad w n : noBreak (JsDate.pad w n) = true.
Proof.
  unfold JsDate.pad, JsDate.padStart.
  now rewrite noBreak_app, noBreak_zeros, noBreak_decimal.
Qed.

Lemma toIcsDateTime_noBreak rt iso dt : toIcsDateTime rt iso = Ok dt -> noBreak dt = true.
Proof.
  unfold toIcsDateTime. destruct (parseDate rt iso) as [t|]; [|discriminate].
  generalize (JsDate.utcFields t). intros f [= <-].
  rewrite noBreak_app, noBreak_decimal.
  rewrite noBreak_app, noBreak_pad.
  rewrite noBreak_app, noBreak_pad.
  match goal with
  | |- context [noBreak (String ?c ?s)] =>
      change (noBreak (String c s)) with (notBreak c && noBreak s)
  end.
  rewrite noBreak_app, noBreak_pad.
  rewrite noBreak_app, noBreak_pad.
  rewrite noBreak_app, noBreak_pad.
  reflexivity.
Qed.

(** *** The lines of an event, as written and as read back *)

Inductive line :=
| Raw (l : string)
| Folded (l : string).

Definition logical (x : line) : string :=
  match x with Raw l | Folded l => l end.

Definition phys (x : line) : string :=
  match x with Raw l => l | Folded l => foldLine l end.

Definition lineOk (x : line) : bool := noBreak (logical x) && startsOk (logical x).

Lemma startsOk_phys x : startsOk (phys x) = startsOk (logical x).
Proof. destruct x; [reflexivity | apply startsOk_foldLine]. Qed.

Lemma unfold_phys x tail :
  noBreak (logical x) = true -> unfold (phys x ++ tail) = logical x ++ unfold tail.
Proof.
  destruct x; cbn [phys logical]; [apply unfold_plain_app | apply unfold_foldLine].
Qed.

(** Unfolding a run of lines gives the lines back unfolded, and goes on
    with the text after them. *)
Lemma unfold_block ls T :
  Forall (fun x => lineOk x = true) ls ->
  startsOk T = true ->
  unfold (block (map phys ls) T) = block (map logical ls) (unfold T).
Proof.
  intros Hls HT. induction Hls as [|x ls Hx Hls IH]; [reflexivity|].
  unfold lineOk in Hx. apply andb_prop in Hx. destruct Hx as [Hb Hs].
  change (block (map phys (x :: ls)) T) with (phys x ++ CRLF ++ block (map phys ls) T).
  change (block (map logical (x :: ls)) (unfold T))
    with (logical x ++ CRLF ++ block (map logical ls) (unfold T)).
  rewrite (unfold_phys _ _ Hb), unfold_crlf, IH; [reflexivity|].
  destruct Hls as [|y ls' Hy _]; [exact HT|].
  cbn [map]. apply startsOk_block. rewrite startsOk_phys.
  unfold lineOk in Hy. now apply andb_prop in Hy.
Qed.

Definition headLines (uid dtstamp dtstart dtend : string) (input : CreateEventInput)
  : list line :=
  [ Raw "BEGIN:VCALENDAR";
    Raw "VERSION:2.0";
    Raw "PRODID:-//fastmail-mcp//EN";
    Raw "CALSCALE:GREGORIAN";
    Raw "BEGIN:VEVENT";
    Raw ("UID:" ++ uid);
    Raw ("DTSTAMP:" ++ dtstamp);
    Raw ("DTSTART:" ++ dtstart);
    Raw ("DTEND:" ++ dtend);
    Folded ("ORGANIZER" ++ cnParam (ev_organizerName input) ++
            ":mailto:" ++ ev_organizerEmail input);
    Folded ("SUMMARY:" ++ escText (ev_title input)) ].

Definition tailLines (input : CreateEventInput) : list string :=
  (optionalLine "DESCRIPTION:" (ev_description input) ++
   optionalLine "LOCATION:" (ev_location input) ++
   attendeeLines (ev_attendees input) ++
   [ "END:VEVENT"; "END:VCALENDAR" ])%list.



Lemma noBreak_cnParam name : noBreak (cnParam name) = true.
Proof.
  unfold cnParam. destruct (truthy name); [|reflexivity].
  now rewrite noBreak_app, noBreak_escText.
Qed.

End EventFacts.

Module RoundTripFacts.
Import ContentLine Ical TextFacts ContentLineFacts IcalFacts EventFacts.










End RoundTripFacts.

(** ** The vCard codec: the structured name *)

Module VCardFacts.
Import VCard TextFacts.

Definition allWhite (w : string) : bool := Text.forallb isWhiteSpace w.

(** A token: a non-empty run without white space. *)
Definition isToken (t : string) : bool := nonEmpty t && Text.forallb notWhite t.

(** What may follow a token: the end of the text, or white space. *)
Definition atBoundary (s : string) : bool :=
  match s with
  | EmptyString => true
  | String c _ => isWhiteSpace c
  end.

(** The white-space-delimited tokens of a text, as a relation: the text is
    some white space, a token, and a rest that starts at a boundary and has
    the remaining tokens; or it is white space only. *)
Inductive tokensOf : string -> list string -> Prop :=
| tokens_none w : allWhite w = true -> tokensOf w []
| tokens_more w t s ts :
    allWhite w = true -> isToken t = true -> atBoundary s = true ->
    tokensOf s ts -> tokensOf (w ++ t ++ s) (t :: ts).

Lemma trimEnd_allWhite w : allWhite w = true -> trimEnd w = "".
Proof.
  induction w as [|c w IH]; [reflexivity|]. cbn [allWhite Text.forallb trimEnd].
  intros Hw. apply andb_prop in Hw. destruct Hw as [Hc Hw].
  fold (allWhite w) in Hw. now rewrite (IH Hw), Hc.
Qed.

Lemma trimEnd_app_nonempty a x : trimEnd x <> "" -> trimEnd (a ++ x) = a ++ trimEnd x.
Proof.
  intros Hx. induction a as [|c a IH]; [reflexivity|].
  cbn [append trimEnd]. rewrite IH.
  destruct (a ++ trimEnd x) eqn:Hax; [|reflexivity].
  destruct a; [cbn in Hax; congruence | discriminate].
Qed.

Lemma trimEnd_token_app t s : isToken t = true -> trimEnd (t ++ s) = t ++ trimEnd s.
Proof.
  unfold isToken. intros Ht. apply andb_prop in Ht. destruct Ht as [Hne Ht].
  induction t as [|c t IH]; [discriminate|].
  cbn [Text.forallb] in Ht. apply andb_prop in Ht. destruct Ht as [Hc Ht].
  unfold notWhite in Hc. apply negb_true_iff in Hc.
  cbn [append trimEnd]. destruct t as [|c' t'].
  - cbn [append]. rewrite Hc. now destruct (trimEnd s).
  - rewrite (IH eq_refl Ht). reflexivity.
Qed.

Lemma token_not_empty t s : isToken t = true -> t ++ s <> "".
Proof. destruct t; [discriminate | discriminate]. Qed.

Lemma trimStart_white_app w x : allWhite w = true -> trimStart (w ++ x) = trimStart x.
Proof.
  induction w as [|c w IH]; [reflexivity|]. cbn [allWhite Text.forallb append trimStart].
  intros Hw. apply andb_prop in Hw. destruct Hw as [Hc Hw]. rewrite Hc. now apply IH.
Qed.

Lemma trimStart_token_app t s : isToken t = true -> trimStart (t ++ s) = t ++ s.
Proof.
  unfold isToken. destruct t as [|c t]; [discriminate|]. cbn [nonEmpty Text.forallb andb].
  intros Ht. apply andb_prop in Ht. destruct Ht as [Hc _].
  unfold notWhite in Hc. apply negb_true_iff in Hc. cbn [append trimStart]. now rewrite Hc.
Qed.

Lemma splitGo_skip_white w x : allWhite w = true -> splitGo true "" (w ++ x) = splitGo true "" x.
Proof.
  induction w as [|c w IH]; [reflexivity|]. cbn [allWhite Text.forallb append splitGo].
  intros Hw. apply andb_prop in Hw. destruct Hw as [Hc Hw]. rewrite Hc. now apply IH.
Qed.

Lemma splitGo_token b cur t x :
  isToken t = true -> splitGo b cur (t ++ x) = splitGo false (cur ++ t) x.
Proof.
  unfold isToken. intros Ht. apply andb_prop in Ht. destruct Ht as [Hne Ht].
  revert b cur. induction t as [|c t IH]; [discriminate|]. intros b cur.
  cbn [Text.forallb] in Ht. apply andb_prop in Ht. destruct Ht as [Hc Ht].
  unfold notWhite in Hc. apply negb_true_iff in Hc.
  cbn [append splitGo]. rewrite Hc.
  destruct t as [|c' t'].
  - cbn [append]. reflexivity.
  - rewrite (IH eq_refl Ht).
    now rewrite append_assoc.
Qed.

(** After a token, the trimmed rest splits into the token read so far and
    the tokens of the rest. *)
Lemma splitGo_rest s ts :
  tokensOf s ts -> atBoundary s = true ->
  forall cur, splitGo false cur (trimEnd s) = cur :: ts.
Proof.
  intros Hs. induction Hs as [w Hw | w t s ts Hw Ht Hb Hs IH]; intros Hbound cur.
  - now rewrite (trimEnd_allWhite _ Hw).
  - assert (Hrest : trimEnd (t ++ s) = t ++ trimEnd s) by now apply trimEnd_token_app.
    rewrite trimEnd_app_nonempty
      by (rewrite Hrest; now apply token_not_empty).
    rewrite Hrest.
    destruct w as [|c w].
    + (* no separator before the token: impossible after a token *)
      exfalso. unfold isToken in Ht. destruct t as [|c t]; [discriminate|].
      cbn [nonEmpty andb Text.forallb] in Ht. apply andb_prop in Ht. destruct Ht as [Hc _].
      unfold notWhite in Hc. apply negb_true_iff in Hc.
      cbn [append atBoundary] in Hbound. congruence.
    + cbn [allWhite Text.forallb] in Hw. apply andb_prop in Hw. destruct Hw as [Hc Hw].
      cbn [append splitGo]. rewrite Hc.
      rewrite (splitGo_skip_white _ _ Hw), (splitGo_token _ _ _ _ Ht).
      cbn [append]. now rewrite (IH Hb).
Qed.

(** The split of the code, [fullName.trim().split(/\s+/)], yields the
    tokens of the name when there is one at least. *)
Lemma split_trim_tokens name t ts :
  tokensOf name (t :: ts) -> splitWs (trim name) = t :: ts.
Proof.
  intros Hn. inversion Hn as [|w t' s ts' Hw Ht Hb Hs]; subst.
  unfold splitWs, trim.
  rewrite (trimStart_white_app _ _ Hw), (trimStart_token_app _ _ Ht).
  rewrite (trimEnd_token_app _ _ Ht), (splitGo_token _ _ _ _ Ht).
  cbn [append]. now apply splitGo_rest.
Qed.

Lemma last_snoc {A} (l : list A) x d : last (l ++ [x]) d = x.
Proof.
  induction l as [|y l IH]; [reflexivity|].
  cbn [app]. destruct (l ++ [x])%list eqn:Hl; [now destruct l|].
  cbn [last]. now rewrite <- IH.
Qed.

Lemma esc_plain v : Text.forallb IcalFacts.plainChar v = true -> esc v = v.
Proof. apply IcalFacts.escText_plain. Qed.

Lemma plain_join ts :
  Forall (fun t => Text.forallb IcalFacts.plainChar t = true) ts ->
  Text.forallb IcalFacts.plainChar (join " " ts) = true.
Proof.
  intros Hts. induction Hts as [|t ts Ht Hts IH]; [reflexivity|].
  destruct ts as [|t' ts']; [exact Ht|].
  change (join " " (t :: t' :: ts')) with (t ++ " " ++ join " " (t' :: ts')).
  now rewrite !forallb_app, Ht, IH.
Qed.

(** The first four lines of a card, and the lines after the N line. *)
Definition opening (uid : string) (input : CreateContactInput) : string :=
  "BEGIN:VCARD" ++ CRLF ++ "VERSION:3.0" ++ CRLF ++ ("UID:" ++ uid) ++ CRLF ++
  ("FN:" ++ esc (ct_fullName input)) ++ CRLF.

Definition closingLines (input : CreateContactInput) : list string :=
  List.concat [
    map (fun email => "EMAIL;TYPE=INTERNET:" ++ esc email) (orNil (ct_emails input));
    map (fun tel => "TEL;TYPE=CELL:" ++ esc tel) (orNil (ct_phones input));
    (if truthy (ct_note input) then ["NOTE:" ++ esc (orEmpty (ct_note input))] else []);
    [ "END:VCARD" ] ].

Definition closing (input : CreateContactInput) : string :=
  join CRLF (closingLines input) ++ CRLF.

(** The card that [buildVCard] writes, around its N line. *)
Lemma buildVCard_text uid input :
  b_vcard (buildVCard uid input)
  = opening uid input ++ nameLine (ct_fullName input) ++ CRLF ++ closing input.
Proof.
  unfold buildVCard, closing, closingLines, opening. cbn [b_vcard List.concat].
  rewrite ContentLineFacts.join_block by discriminate.
  rewrite ContentLineFacts.join_block.
  2:{ intros Hnil. apply app_eq_nil in Hnil. destruct Hnil as [_ Hnil].
      apply app_eq_nil in Hnil. destruct Hnil as [_ Hnil].
      apply app_eq_nil in Hnil. destruct Hnil as [_ Hnil]. discriminate. }
  unfold cardLines. cbn [List.concat].
  cbn [app ContentLineFacts.block fold_right]. rewrite !append_assoc. reflexivity.
Qed.

(** C8: in the card that [buildVCard] writes, the structured N field is
    the fifth line, after BEGIN, VERSION, UID and FN and before the EMAIL,
    TEL, NOTE and END lines, and is derived from the white-space-delimited
    tokens of the full name: with two or more tokens, the last token is the
    family-name component and the others, joined by single spaces, are the
    given-name component; with a single token, the token is the family-name
    component and the given-name component is empty.  The components are
    written through [esc], which changes nothing in tokens without
    backslash, comma or semicolon. *)
Theorem name_field_from_tokens uid input tokens :
  tokensOf (ct_fullName input) tokens ->
  (forall given family,
     tokens = (given ++ [family])%list -> given <> [] ->
     b_vcard (buildVCard uid input)
     = opening uid input ++
       ("N:" ++ esc family ++ ";" ++ esc (join " " given) ++ ";;;") ++ CRLF ++
       closing input /\
     (Forall (fun t => Text.forallb IcalFacts.plainChar t = true) tokens ->
      b_vcard (buildVCard uid input)
      = opening uid input ++
        ("N:" ++ family ++ ";" ++ join " " given ++ ";;;") ++ CRLF ++
        closing input)) /\
  (forall only,
     tokens = [only] ->
     b_vcard (buildVCard uid input)
     = opening uid input ++ ("N:" ++ esc only ++ ";;;;") ++ CRLF ++ closing input /\
     (Text.forallb IcalFacts.plainChar only = true ->
      b_vcard (buildVCard uid input)
      = opening uid input ++ ("N:" ++ only ++ ";;;;") ++ CRLF ++ closing input)).
Proof.
  intros Htok. rewrite buildVCard_text. unfold nameLine. split.
  - intros given family -> Hg.
    destruct given as [|g given]; [congruence|].
    cbn [app] in Htok. rewrite (split_trim_tokens _ _ _ Htok).
    unfold familyOf, givenOf.
    assert (Hlen : (1 <? List.length (g :: given ++ [family]))%nat = true).
    { apply Nat.ltb_lt. cbn [List.length]. rewrite length_app. cbn. lia. }
    rewrite Hlen.
    change (g :: given ++ [family])%list with ((g :: given) ++ [family])%list.
    rewrite last_snoc, removelast_last. split; [reflexivity|].
    intros Hplain. apply Forall_app in Hplain. destruct Hplain as [Hgiven Hfamily].
    inversion Hfamily as [|x xs Hf _]; subst.
    now rewrite (esc_plain _ Hf), (esc_plain _ (plain_join _ Hgiven)).
  - intros only ->. rewrite (split_trim_tokens _ _ _ Htok).
    cbn [familyOf givenOf List.length Nat.ltb Nat.leb hd].
    split; [reflexivity|].
    intros Hplain. now rewrite (esc_plain _ Hplain).
Qed.

Definition ada : CreateContactInput :=
  {| ct_fullName := "  Ada  King Lovelace ";
     ct_emails := Some ["ada@example.com"];
     ct_phones := None;
     ct_note := None |}.

Lemma ada_tokens : tokensOf (ct_fullName ada) ["Ada"; "King"; "Lovelace"].
Proof.
  apply (tokens_more "  " "Ada" "  King Lovelace "); try reflexivity.
  apply (tokens_more "  " "King" " Lovelace "); try reflexivity.
  apply (tokens_more " " "Lovelace" " "); try reflexivity.
  now apply tokens_none.
Qed.

Lemma name_field_from_tokens_witness :
  b_vcard (buildVCard "u-1" ada)
  = "BEGIN:VCARD" ++ CRLF ++ "VERSION:3.0" ++ CRLF ++ "UID:u-1" ++ CRLF ++
    "FN:  Ada  King Lovelace " ++ CRLF ++
    "N:Lovelace;Ada King;;;" ++ CRLF ++
    "EMAIL;TYPE=INTERNET:ada@example.com" ++ CRLF ++ "END:VCARD" ++ CRLF.
Proof.
  apply (proj1 (name_field_from_tokens "u-1" ada ["Ada"; "King"; "Lovelace"] ada_tokens)
           ["Ada"; "King"] "Lovelace"); [reflexivity | discriminate | ].
  repeat constructor.
Defined.

Example single_token_name :
  nameLine "Plato" = "N:Plato;;;;".
Proof. reflexivity. Qed.

End VCardFacts.

(** ** The summary parsers *)

Module SummaryFacts.
Import ContentLine TextFacts ContentLineFacts.

Definition notColon (c : ascii) : bool := negb (Ascii.eqb c ":").

(** A content line of an unfolded document: no line break inside, no
    leading space or tab, and a colon before its value. *)
Definition contentLine (l : string) : bool :=
  noBreak l && startsOk l &&
  match afterColon l with Some _ => true | None => false end.

(** The trimmed value of a content line. *)
Definition valueOf (l : string) : string :=
  match afterColon l with Some v => trim v | None => "" end.

(** The values of the lines that start with [key], in document order. *)
Definition values (key : string) (lines : list string) : list string :=
  map valueOf (filter (startsWith key) lines).



Lemma getAll_same key a b : valueMatch key a = valueMatch key b -> getAll key a = getAll key b.
Proof. intros Hab. now rewrite (getAll_step key a), (getAll_step key b), Hab. Qed.

Lemma getOne_hd key text : getOne key text = hd_error (getAll key text).
Proof.
  unfold getOne. rewrite getAll_step.
  now destruct (valueMatch key text) as [[v rest]|].
Qed.

Lemma afterColon_prefix key l l' :
  Text.forallb notColon key = true -> dropPrefix key l = Some l' ->
  afterColon l = afterColon l'.
Proof.
  revert l; induction key as [|a key IH]; intros l; cbn [Text.forallb dropPrefix].
  - now intros _ [= ->].
  - intros Hk. apply andb_prop in Hk. destruct Hk as [Ha Hk].
    destruct l as [|b l]; [discriminate|].
    destruct (Ascii.eqb a b) eqn:Hab; [|discriminate].
    apply Ascii.eqb_eq in Hab. subst b.
    unfold notColon in Ha. apply negb_true_iff in Ha.
    cbn [afterColon]. rewrite Ha. now apply IH.
Qed.

(** The [re.exec] loop over the lines of a document. *)
Lemma getAll_lines key lines :
  noBreak key = true ->
  Text.forallb notColon key = true ->
  Forall (fun l => contentLine l = true) lines ->
  getAll key (String CR (String LF (block lines ""))) = values key lines.
Proof.
  intros Hk Hcolon Hlines. induction Hlines as [|l ls Hl _ IH].
  - rewrite getAll_step, valueMatch_skip_char by reflexivity.
    now destruct key.
  - unfold contentLine in Hl. apply andb_prop in Hl. destruct Hl as [Hl Hc].
    apply andb_prop in Hl. destruct Hl as [Hb _].
    change (block (l :: ls) "") with (l ++ String CR (String LF (block ls ""))).
    unfold values in *. cbn [filter]. unfold startsWith at 1.
    destruct (dropPrefix key l) as [l'|] eqn:Hd.
    + rewrite getAll_step, valueMatch_skip_char by reflexivity.
      unfold valueOf at 1. cbn [map].
      rewrite (afterColon_prefix key l l' Hcolon Hd) in *.
      destruct (afterColon l') as [v|] eqn:Hv; [|discriminate].
      rewrite (valueMatch_line_hit key l l' v _ Hb Hd Hv).
      now rewrite IH.
    + rewrite <- IH. apply getAll_same.
      rewrite valueMatch_skip_char by reflexivity.
      rewrite (valueMatch_line_miss key l _ Hk Hb Hd).
      now rewrite (valueMatch_skip_char key CR) by reflexivity.
Qed.

Lemma getAll_document key l0 lines :
  noBreak key = true ->
  Text.forallb notColon key = true ->
  Forall (fun l => contentLine l = true) (l0 :: lines) ->
  getAll key (block (l0 :: lines) "") = values key lines.
Proof.
  intros Hk Hcolon Hall. inversion Hall as [|x xs Hl0 Hlines]; subst.
  rewrite <- (getAll_lines key lines Hk Hcolon Hlines). apply getAll_same.
  change (block (l0 :: lines) "") with (l0 ++ String CR (String LF (block lines ""))).
  unfold contentLine in Hl0. apply andb_prop in Hl0. destruct Hl0 as [Hl0 _].
  apply andb_prop in Hl0. destruct Hl0 as [Hb _].
  now rewrite (valueMatch_skip _ _ _ Hb).
Qed.

Lemma unfold_document lines :
  Forall (fun l => contentLine l = true) lines ->
  unfold (block lines "") = block lines "".
Proof.
  intros Hlines.
  assert (Hraw : map EventFacts.phys (map EventFacts.Raw lines) = lines)
    by (rewrite map_map; apply map_id).
  assert (Hlog : map EventFacts.logical (map EventFacts.Raw lines) = lines)
    by (rewrite map_map; apply map_id).
  rewrite <- Hraw at 1. rewrite EventFacts.unfold_block; [now rewrite Hlog | | reflexivity].
  apply Forall_map. revert Hlines. apply Forall_impl. intros l Hl.
  unfold contentLine in Hl. apply andb_prop in Hl. destruct Hl as [Hl _]. exact Hl.
Qed.





(** Nor is every value it collects an EMAIL value: after a line EMAIL
    without a colon, the value of the next line is taken. *)
Example next_line_taken_for_an_email :
  VCard.parseVCardSummary ("BEGIN:VCARD" ++ CRLF ++ "EMAIL" ++ CRLF ++ "TEL:5" ++ CRLF)
  = {| VCard.s_uid := None; VCard.s_fullName := None;
       VCard.s_emails := ["5"]; VCard.s_phones := ["5"] |}.
Proof. vm_compute. reflexivity. Qed.




Example card_summary :
  VCard.parseVCardSummary
    (VCard.b_vcard (VCard.buildVCard "u-1"
       {| VCard.ct_fullName := "Ada Lovelace";
          VCard.ct_emails := Some ["ada@example.com"; "countess@example.org"];
          VCard.ct_phones := Some ["+44 20 7946 0000"];
          VCard.ct_note := None |}))
  = {| VCard.s_uid := Some "u-1";
       VCard.s_fullName := Some "Ada Lovelace";
       VCard.s_emails := ["ada@example.com"; "countess@example.org"];
       VCard.s_phones := ["+44 20 7946 0000"] |}.
Proof. vm_compute. reflexivity. Qed.

Example not_a_card :
  VCard.parseVCardSummary "hello, world"
  = {| VCard.s_uid := None; VCard.s_fullName := None;
       VCard.s_emails := []; VCard.s_phones := [] |}.
Proof. vm_compute. reflexivity. Qed.

End SummaryFacts.

(** * Further properties of the modelled code *)

(** ** The privilege set and the rights probe *)

Module PrivilegeFacts.
Import Dav DavFacts RightsFacts.

Lemma dedup_In seen out x : In x (dedup seen out) <-> In x out /\ ~ In x seen.
Proof.
  revert seen; induction out as [|k r IH]; intros seen; cbn [dedup].
  - simpl. tauto.
  - destruct (mem k seen) eqn:Hm.
    + apply JmapFacts.mem_In in Hm. rewrite IH. simpl. split.
      * intros [Hin Hs]. tauto.
      * intros [[Hk | Hin] Hs]; [subst; contradiction | tauto].
    + apply mem_false_iff in Hm. simpl. rewrite IH. simpl. split.
      * intros [Hk | [Hin Hs]]; [subst; tauto | tauto].
      * intros [[Hk | Hin] Hs]; [tauto|].
        destruct (string_dec k x) as [Heq | Hne]; [tauto|]. right. tauto.
Qed.

Lemma dedup_NoDup seen out : NoDup (dedup seen out).
Proof.
  revert seen; induction out as [|k r IH]; intros seen; cbn [dedup]; [constructor|].
  destruct (mem k seen); [apply IH|].
  constructor; [|apply IH]. rewrite dedup_In. simpl. tauto.
Qed.

(** X1: The privilege set is in normal form whatever the PROPFIND answer looks
    like: no token twice, never the [_attributes] key of the XML reader, and
    a single privilege object gives what the one-element list of it gives. *)
Theorem privilege_set_normal_form :
  (forall v, NoDup (extractDavPrivileges v)) /\
  (forall v, ~ In "_attributes" (extractDavPrivileges v)) /\
  (forall fields rest,
     extractDavPrivileges (JObj (("privilege", JObj fields) :: rest))
     = extractDavPrivileges (JObj (("privilege", JArr [JObj fields]) :: rest))).
Proof.
  split; [|split].
  - intros v. apply dedup_NoDup.
  - intros v. unfold extractDavPrivileges. rewrite dedup_In. intros [Hin _].
    apply in_flat_map in Hin. destruct Hin as [item [_ Hin]].
    destruct (isObject item); [|contradiction].
    apply filter_In in Hin. destruct Hin as [_ Hne]. discriminate.
  - reflexivity.
Qed.

(** X2: The rights probe never fails: whatever PROPFIND answers, and also when
    it throws, the probe returns, having issued exactly one PROPFIND for
    the calendar; the rights it returns, if any, come from a non-empty
    privilege set. *)
Theorem rights_probe_never_throws caldav calendarUrl log :
  exists rights,
    getCalendarRights caldav calendarUrl log = (Ok rights, (log ++ [Propfind calendarUrl])%list) /\
    (forall r, rights = Some r -> privileges r <> [] /\ r = computeDavRights (privileges r)) /\
    (forall st, propfind caldav calendarUrl = Throw st -> rights = None).
Proof.
  rewrite getCalendarRights_run. eexists. split; [reflexivity|]. split.
  - intros r. destruct (propfind caldav calendarUrl) as [res|st]; [|discriminate].
    destruct (privilegesOf res) as [|x ps]; [discriminate|].
    intros [= <-]. split; [discriminate | reflexivity].
  - intros st ->. reflexivity.
Qed.

End PrivilegeFacts.

(** ** What the calendar tools never do *)

Module CalendarSafety.
Import Dav DavFacts RightsFacts UpdateFacts.
Local Open Scope handler_scope.

Lemma findCalendar_url calendars calendarId c :
  findCalendar calendars calendarId = Some c -> cal_url c = calendarId.
Proof.
  unfold findCalendar. intros Hf. apply find_some in Hf.
  destruct Hf as [_ Heq]. now apply String.eqb_eq in Heq.
Qed.

(** X3: Whatever the server answers, [delete_calendar] deletes nothing, or
    deletes the target and only the target; and it deletes only after a
    successful login, with the target in the fetched list and at least two
    calendars in it. *)
Theorem delete_calendar_only_the_target caldav calendarId :
  let log := snd (run (delete_calendar caldav calendarId)) in
  deletions log = [] \/
  (deletions log = [calendarId] /\
   login caldav = Ok tt /\
   exists calendars c,
     fetchCalendars caldav = Ok calendars /\
     findCalendar calendars calendarId = Some c /\
     cal_url c = calendarId /\
     (2 <= calendarCount calendars)%nat).
Proof.
  unfold run, delete_calendar, bind, invoke.
  destruct (login caldav) as [[]|st] eqn:Hl; cbn [mapThrow]; [|now left].
  destruct (fetchCalendars caldav) as [calendars|st] eqn:Hf; cbn [mapThrow]; [|now left].
  destruct (findCalendar calendars calendarId) as [c|] eqn:Hc; [|now left].
  destruct (calendarCount calendars <=? 1)%nat eqn:Hn; [now left|].
  apply Nat.leb_gt in Hn. right.
  split; [destruct (deleteObject caldav calendarId) as [[]|st]; reflexivity|].
  split; [reflexivity|].
  exists calendars, c. split; [reflexivity || assumption|]. split; [assumption|].
  split; [now apply (findCalendar_url calendars) | lia].
Qed.

Lemma update_calendar_rejections H caldav calendarId name description color timezone :
  (someProperty name description color timezone = false ->
   run (update_calendar H caldav calendarId name description color timezone)
   = (Throw NoProperty, [])) /\
  (forall tz,
     timezone = Some tz -> Timezone.isValidTimezone H tz = false ->
     run (update_calendar H caldav calendarId name description color timezone)
     = (Throw (InvalidTimezone tz), [])).
Proof.
  split.
  - unfold someProperty. destruct name, description, color, timezone; try discriminate.
    reflexivity.
  - intros tz -> Hv. unfold run, update_calendar.
    destruct name, description, color; unfold bind; rewrite Hv; reflexivity.
Qed.

(** X4: [update_calendar] fails fast: without any property to set, or with a
    timezone the host does not know, it throws before the first call on the
    server. *)
Theorem update_calendar_fails_fast H caldav calendarId name description color timezone :
  (someProperty name description color timezone = false ->
   run (update_calendar H caldav calendarId name description color timezone)
   = (Throw NoProperty, [])) /\
  (forall tz,
     timezone = Some tz -> Timezone.isValidTimezone H tz = false ->
     run (update_calendar H caldav calendarId name description color timezone)
     = (Throw (InvalidTimezone tz), [])).
Proof. apply update_calendar_rejections. Qed.

Example update_calendar_fails_fast_example :
  run (update_calendar Timezone.utcHost (mockCaldav [default; work] (Ok (JArr [])))
         (cal_url work) (Some "Renamed") None None (Some "Mars/Olympus"))
  = (Throw (InvalidTimezone "Mars/Olympus"), []).
Proof. vm_compute. reflexivity. Qed.

Definition patchProps (name description color tzProp : option string)
  : list (string * string) :=
  List.concat [setProp "displayname" name;
               setProp "c:calendar-description" description;
               setProp "ca:calendar-color" color;
               setProp "c:calendar-timezone" tzProp].

Lemma patchProps_In name description color tzProp k v :
  In (k, v) (patchProps name description color tzProp) <->
  (k = "displayname" /\ name = Some v) \/
  (k = "c:calendar-description" /\ description = Some v) \/
  (k = "ca:calendar-color" /\ color = Some v) \/
  (k = "c:calendar-timezone" /\ tzProp = Some v).
Proof.
  unfold patchProps. cbn [List.concat]. rewrite !in_app_iff.
  unfold setProp. split.
  - intros [Hi | [Hi | [Hi | [Hi | []]]]].
    + destruct name; [|contradiction]. destruct Hi as [[= <- <-]|[]]. tauto.
    + destruct description; [|contradiction]. destruct Hi as [[= <- <-]|[]]. tauto.
    + destruct color; [|contradiction]. destruct Hi as [[= <- <-]|[]]. tauto.
    + destruct tzProp; [|contradiction]. destruct Hi as [[= <- <-]|[]]. tauto.
  - intros [[-> ->] | [[-> ->] | [[-> ->] | [-> ->]]]]; cbn; tauto.
Qed.

(** The log after the rights check: unchanged, or one PROPPATCH longer. *)
Lemma afterUpdateCheck_log H caldav calendarId name description color timezone log :
  snd (afterUpdateCheck H caldav calendarId name description color timezone log) = log \/
  exists tzProp,
    snd (afterUpdateCheck H caldav calendarId name description color timezone log)
    = (log ++ [Proppatch calendarId (patchProps name description color tzProp)])%list /\
    (forall v, tzProp = Some v <->
               exists tz, timezone = Some tz /\
                          Timezone.buildCalendarTimezoneProperty H tz = Ok v).
Proof.
  unfold afterUpdateCheck, bind, invoke.
  destruct timezone as [tz|].
  - destruct (Timezone.buildCalendarTimezoneProperty H tz) as [blob|e] eqn:Hb;
      cbn [ret throw]; [|now left].
    right. exists (Some blob). split.
    + fold (patchProps name description color (Some blob)).
      now destruct (davRequest caldav calendarId _) as [[]|st].
    + intros v. split.
      * intros [= <-]. now exists tz.
      * intros [tz' [[= <-] Hb']]. congruence.
  - cbn [ret]. right. exists None. split.
    + fold (patchProps name description color None).
      now destruct (davRequest caldav calendarId _) as [[]|st].
    + intros v. split; [discriminate | intros [tz' [Htz _]]; discriminate].
Qed.

(** X5: A PROPPATCH that [update_calendar] issues goes to the calendar asked
    for, which is then in the fetched list, and sets exactly the properties
    that were provided: the name, the description, the colour, and for a
    timezone the VTIMEZONE text built from it. *)
Theorem update_calendar_patches_what_was_given
        H caldav calendarId name description color timezone url setProps :
  In (Proppatch url setProps)
     (snd (run (update_calendar H caldav calendarId name description color timezone))) ->
  url = calendarId /\
  (exists calendars c,
     fetchCalendars caldav = Ok calendars /\ findCalendar calendars calendarId = Some c) /\
  (forall k v,
     In (k, v) setProps <->
     (k = "displayname" /\ name = Some v) \/
     (k = "c:calendar-description" /\ description = Some v) \/
     (k = "ca:calendar-color" /\ color = Some v) \/
     (k = "c:calendar-timezone" /\
      exists tz, timezone = Some tz /\
                 Timezone.buildCalendarTimezoneProperty H tz = Ok v)).
Proof.
  destruct (someProperty name description color timezone) eqn:Hp.
  2:{ rewrite (proj1 (update_calendar_rejections H caldav calendarId
                        name description color timezone) Hp). intros []. }
  destruct (timezoneAccepted H timezone) eqn:Hv.
  2:{ unfold timezoneAccepted in Hv. destruct timezone as [tz|]; [|discriminate].
      rewrite (proj2 (update_calendar_rejections H caldav calendarId
                        name description color (Some tz)) tz eq_refl Hv). intros []. }
  unfold run. rewrite (update_calendar_steps H caldav calendarId _ _ _ _ Hp Hv).
  unfold bind at 1, invoke at 1.
  destruct (login caldav) as [[]|st]; cbn [mapThrow];
    [|cbn; intros [Hin|[]]; discriminate].
  unfold bind at 1, invoke at 1.
  destruct (fetchCalendars caldav) as [calendars|st] eqn:Hf; cbn [mapThrow];
    [|cbn; intros [Hin|[Hin|[]]]; discriminate].
  destruct (findCalendar calendars calendarId) as [c|] eqn:Hc;
    [|cbn; intros [Hin|[Hin|[]]]; discriminate].
  unfold bind at 1. rewrite getCalendarRights_run.
  set (rights := match propfind caldav calendarId with
                 | Ok res => _
                 | Throw _ => None
                 end).
  set (log := ((([] ++ [Login]) ++ [FetchCalendars]) ++ [Propfind calendarId])%list).
  assert (Hnone : ~ In (Proppatch url setProps) log)
    by (cbn; intros [Hin|[Hin|[Hin|[]]]]; discriminate).
  unfold bind at 1. intros Hin.
  assert (Hlog : In (Proppatch url setProps)
            (snd (afterUpdateCheck H caldav calendarId name description color timezone log))).
  { destruct rights as [r|]; cbn [assertWritable] in Hin.
    - destruct (canWrite r); cbn [ret throw] in Hin; [exact Hin | contradiction].
    - exact Hin. }
  destruct (afterUpdateCheck_log H caldav calendarId name description color timezone log)
    as [Hsame | [tzProp [Hmore Htz]]].
  - rewrite Hsame in Hlog. contradiction.
  - rewrite Hmore in Hlog. apply in_app_iff in Hlog.
    destruct Hlog as [Hlog | [Hlog | []]]; [contradiction|].
    injection Hlog as <- <-. split; [reflexivity|]. split.
    + exists calendars, c. split; [reflexivity || assumption | assumption].
    + intros k v. rewrite patchProps_In, Htz. tauto.
Qed.

End CalendarSafety.

Module CalendarSafetyExamples.
Import Dav DavFacts RightsFacts CalendarSafety.

Lemma update_calendar_patches_what_was_given_witness :
  cal_url default = cal_url default /\
  exists calendars c,
    fetchCalendars (mockCaldav [default; work] (Ok (JArr []))) = Ok calendars /\
    findCalendar calendars (cal_url default) = Some c.
Proof.
  destruct (update_calendar_patches_what_was_given Timezone.utcHost
              (mockCaldav [default; work] (Ok (JArr []))) (cal_url default)
              None None (Some "#0000FF") None
              (cal_url default) [("ca:calendar-color", "#0000FF")])
    as [Hurl [Hfound _]].
  - vm_compute. tauto.
  - split; [exact Hurl | exact Hfound].
Defined.

End CalendarSafetyExamples.

(** ** The send pipeline: mailbox discovery and what a successful send did *)

Module PipelineFacts.
Import Jmap SendFacts.

Definition hasRole (role : string) (m : mailbox) : bool :=
  match mb_role m with Some r => String.eqb r role | None => false end.

Definition nameHas (pat : string) (m : mailbox) : bool :=
  includes pat (toLowerCase (orEmpty (mb_name m))).

(** X6: Mailbox discovery is by role first: the first mailbox with the role is
    taken whatever the names of the mailboxes before it; only when no
    mailbox has the role is the first mailbox taken whose lower-cased name
    contains the pattern; and without that either, nothing is found. *)
Theorem mailbox_discovery_by_role_then_name role pat mailboxes :
  (forall l1 m l2,
     mailboxes = (l1 ++ m :: l2)%list ->
     mb_role m = Some role ->
     Forall (fun x => mb_role x <> Some role) l1 ->
     findMailbox role pat mailboxes = Some m) /\
  (Forall (fun x => mb_role x <> Some role) mailboxes ->
   (forall l1 m l2,
      mailboxes = (l1 ++ m :: l2)%list ->
      nameHas pat m = true ->
      Forall (fun x => nameHas pat x = false) l1 ->
      findMailbox role pat mailboxes = Some m) /\
   (Forall (fun x => nameHas pat x = false) mailboxes ->
    findMailbox role pat mailboxes = None)).
Proof.
  assert (Hrole : forall l, Forall (fun x => mb_role x <> Some role) l ->
                  Forall (fun x => hasRole role x = false) l).
  { intros l. apply Forall_impl. intros x Hx. unfold hasRole.
    destruct (mb_role x) as [r|]; [|reflexivity].
    apply String.eqb_neq. congruence. }
  unfold findMailbox. fold (hasRole role). fold (nameHas pat). split.
  - intros l1 m l2 -> Hm Hl1.
    rewrite (find_first (hasRole role) l1 m l2); [reflexivity| |now apply Hrole].
    unfold hasRole. rewrite Hm. apply String.eqb_refl.
  - intros Hnone. rewrite (find_nowhere _ _ (Hrole _ Hnone)). split.
    + intros l1 m l2 -> Hm Hl1. now apply find_first.
    + apply find_nowhere.
Qed.

Example sent_found_by_name_only_without_role :
  findMailbox "sent" "sent"
    [ {| mb_id := "A"; mb_role := None; mb_name := Some "Absent friends" |};
      {| mb_id := "B"; mb_role := Some "sent"; mb_name := Some "Outbox" |} ]
  = Some {| mb_id := "B"; mb_role := Some "sent"; mb_name := Some "Outbox" |}.
Proof. reflexivity. Qed.

Lemma selectIdentity_In ids from i : selectIdentity ids from = Some i -> In i ids.
Proof.
  unfold selectIdentity. destruct (truthy from).
  - intros Hf. now apply find_some in Hf.
  - destruct (find isPrimary ids) as [j|] eqn:Hj.
    + intros [= <-]. now apply find_some in Hj.
    + destruct ids; [discriminate|]. intros [= <-]. now left.
Qed.

Lemma findMailbox_In role pat mbs m : findMailbox role pat mbs = Some m -> In m mbs.
Proof.
  unfold findMailbox.
  destruct (find _ mbs) as [x|] eqn:Hx.
  - intros [= <-]. now apply find_some in Hx.
  - intros Hf. now apply find_some in Hf.
Qed.

(** X7: What a successful send has done: one request went out, for the
    session's account; it creates the message as a draft in a mailbox of
    the account's list, from the selected identity, which is one of the
    account's identities, and to the given recipients; it submits that
    draft with an envelope that lists the [to] addresses only, and moves it
    to a mailbox of the list on success; and the submission id returned is
    the non-empty one the server gave. *)
Theorem successful_send_request srv input submissionId emailId :
  sendEmail srv input = Ok (submissionId, emailId) ->
  exists account ids i mbs drafts sent req res,
    srv_session srv = Ok account /\
    srv_identities srv = Ok ids /\ In i ids /\
    srv_mailboxes srv = Ok mbs /\ In drafts mbs /\ In sent mbs /\
    srv_send srv req = Ok res /\
    rs_submissionId res = Some submissionId /\ submissionId <> "" /\
    emailId = rs_createdEmailId res /\
    rq_accountId req = account /\
    eo_mailboxIds (rq_create req) = [mb_id drafts] /\
    eo_draft (rq_create req) = true /\
    eo_from (rq_create req) = idn_email i /\
    eo_to (rq_create req) = in_to input /\
    sub_emailRef (rq_submit req) = "#draft" /\
    sub_identityId (rq_submit req) = idn_id i /\
    sub_mailFrom (rq_submit req) = idn_email i /\
    sub_rcptTo (rq_submit req) = in_to input /\
    sub_onSuccessMailboxIds (rq_submit req) = [mb_id sent] /\
    (truthy (in_from input) = true ->
     toLowerCase (orEmpty (idn_email i)) = toLowerCase (orEmpty (in_from input))) /\
    (truthy (in_textBody input) = true \/ truthy (in_htmlBody input) = true).
Proof.
  unfold sendEmail.
  destruct (srv_session srv) as [account|st]; cbn [mapThrow obind]; [|discriminate].
  destruct (srv_identities srv) as [ids|st]; cbn [mapThrow obind]; [|discriminate].
  destruct (negb (Nat.eqb (List.length ids) 0)); [|discriminate].
  destruct (selectIdentity ids (in_from input)) as [i|] eqn:Hsel; [|discriminate].
  destruct (truthy (in_textBody input) || truthy (in_htmlBody input)) eqn:Hbody;
    [|discriminate].
  destruct (srv_mailboxes srv) as [mbs|st]; cbn [mapThrow obind]; [|discriminate].
  destruct (findMailbox "drafts" "draft" mbs) as [drafts|] eqn:Hd; [|discriminate].
  destruct (findMailbox "sent" "sent" mbs) as [sent|] eqn:Hs; [|discriminate].
  match goal with |- context [srv_send srv ?r] =>
    set (req := r); destruct (srv_send srv req) as [res|st] eqn:Hsend end;
    cbn [mapThrow obind]; [|discriminate].
  destruct (rs_submissionId res) as [sid|] eqn:Hsid; [|discriminate].
  destruct (nonEmpty sid) eqn:Hne; [|discriminate].
  intros [= <- <-].
  exists account, ids, i, mbs, drafts, sent, req, res.
  repeat match goal with |- _ /\ _ => split end; try reflexivity; try assumption.
  - now apply (selectIdentity_In ids (in_from input)).
  - now apply (findMailbox_In "drafts" "draft").
  - now apply (findMailbox_In "sent" "sent").
  - intros ->. discriminate.
  - intros Hfrom. unfold selectIdentity in Hsel. rewrite Hfrom in Hsel.
    apply find_some in Hsel. destruct Hsel as [_ Hm].
    now apply String.eqb_eq in Hm.
  - now apply orb_prop in Hbody.
Qed.

Lemma successful_send_request_witness :
  exists req res,
    srv_send exampleServer req = Ok res /\ rs_submissionId res = Some "S1" /\
    sub_rcptTo (rq_submit req) = ["dan@example.com"].
Proof.
  destruct (successful_send_request exampleServer
              (message (Some "BOB@example.com") (Some "hi") None) "S1" (Some "E1") eq_refl)
    as [account [ids [i [mbs [drafts [sent [req [res H]]]]]]]].
  exists req, res. repeat split; apply H.
Defined.

End PipelineFacts.

(** ** The timezone resolver: formats and the two-pass conversion *)

Module ResolverFacts.
Import Timezone TextFacts.
Local Open Scope Z_scope.

(** *** [trim] *)

Lemma trimEnd_idempotent s : trimEnd (trimEnd s) = trimEnd s.
Proof.
  induction s as [|c r IH]; [reflexivity|]. cbn [trimEnd].
  destruct (trimEnd r) as [|c' r'] eqn:Hr.
  - destruct (isWhiteSpace c) eqn:Hc; [reflexivity|]. cbn [trimEnd]. now rewrite Hc.
  - cbn [trimEnd] in *. cbn [trimEnd]. now rewrite IH.
Qed.

Lemma trimStart_head s :
  trimStart s = "" \/ exists c r, trimStart s = String c r /\ isWhiteSpace c = false.
Proof.
  induction s as [|c r IH]; [now left|]. cbn [trimStart].
  destruct (isWhiteSpace c) eqn:Hc; [exact IH|]. right. now exists c, r.
Qed.

Lemma trimEnd_head c r :
  isWhiteSpace c = false -> exists r', trimEnd (String c r) = String c r'.
Proof.
  intros Hc. cbn [trimEnd]. destruct (trimEnd r); [rewrite Hc|]; eexists; reflexivity.
Qed.

Lemma trim_idempotent s : trim (trim s) = trim s.
Proof.
  unfold trim. destruct (trimStart_head s) as [-> | [c [r [-> Hc]]]]; [reflexivity|].
  destruct (trimEnd_head c r Hc) as [r' Hr'].
  assert (Hst : trimStart (trimEnd (String c r)) = trimEnd (String c r))
    by (rewrite Hr'; cbn [trimStart]; now rewrite Hc).
  rewrite Hst. apply trimEnd_idempotent.
Qed.

Lemma forallb_trimStart p s : Text.forallb p s = true -> Text.forallb p (trimStart s) = true.
Proof.
  induction s as [|c r IH]; [reflexivity|]. cbn [trimStart].
  destruct (isWhiteSpace c); [|easy]. cbn [Text.forallb]. intros Hs.
  apply andb_prop in Hs. now apply IH.
Qed.

Lemma forallb_trimEnd p s : Text.forallb p s = true -> Text.forallb p (trimEnd s) = true.
Proof.
  induction s as [|c r IH]; [reflexivity|]. cbn [Text.forallb trimEnd]. intros Hs.
  apply andb_prop in Hs. destruct Hs as [Hc Hr]. specialize (IH Hr).
  destruct (trimEnd r) as [|c' r'].
  - destruct (isWhiteSpace c); [reflexivity|]. cbn [Text.forallb]. now rewrite Hc.
  - cbn [Text.forallb] in *. now rewrite Hc, IH.
Qed.

Lemma forallb_trim p s : Text.forallb p s = true -> Text.forallb p (trim s) = true.
Proof. intros Hs. now apply forallb_trimEnd, forallb_trimStart. Qed.

(** *** [extractCalendarTimezone] *)

Lemma noBreak_lineRun s : noBreak (lineRun s) = true.
Proof.
  induction s as [|c r IH]; [reflexivity|]. cbn [lineRun].
  destruct (isLineTerminator c) eqn:Hc; [reflexivity|].
  cbn [noBreak Text.forallb]. unfold notBreak at 1. rewrite Hc. exact IH.
Qed.

Lemma tzidMatch_found s v :
  tzidMatch s = Some v -> noBreak v = true /\ includes "TZID:" s = true.
Proof.
  induction s as [|c r IH].
  - cbn. discriminate.
  - change (tzidMatch (String c r))
      with (match tzidHere (String c r) with Some v => Some v | None => tzidMatch r end).
    change (includes "TZID:" (String c r))
      with (startsWith "TZID:" (String c r) || includes "TZID:" r).
    unfold tzidHere, startsWith.
    destruct (dropPrefix "TZID:" (String c r)) as [rest|].
    + destruct (lineRun rest) as [|c' v'] eqn:Hrun.
      * intros Hm. destruct (IH Hm) as [Hv Hi]. rewrite Hi. now rewrite orb_true_r.
      * intros [= <-]. split; [|reflexivity]. rewrite <- Hrun. apply noBreak_lineRun.
    + intros Hm. destruct (IH Hm) as [Hv Hi]. now rewrite Hi.
Qed.

(** X8: A timezone that [extractCalendarTimezone] returns is never blank: it
    is non-empty, has no white space around it and no line break in it,
    and the text it was taken from contains [TZID:]. *)
Theorem extracted_timezone_well_formed vtimezone tz :
  extractCalendarTimezone vtimezone = Some tz ->
  tz <> "" /\ trim tz = tz /\ noBreak tz = true /\
  exists blob, vtimezone = Some blob /\ includes "TZID:" blob = true.
Proof.
  unfold extractCalendarTimezone.
  destruct vtimezone as [blob|]; [|discriminate].
  destruct (truthy (Some blob)); [|discriminate]. cbn [orEmpty].
  destruct (tzidMatch blob) as [v|] eqn:Hm; [|discriminate].
  destruct (tzidMatch_found _ _ Hm) as [Hv Hi].
  destruct (nonEmpty (trim v)) eqn:Hne; [|discriminate].
  intros [= <-]. split; [|split; [|split]].
  - intros Heq. rewrite Heq in Hne. discriminate.
  - apply trim_idempotent.
  - now apply forallb_trim.
  - now exists blob.
Qed.

Lemma extracted_timezone_well_formed_witness :
  trim "Europe/Paris" = "Europe/Paris".
Proof.
  apply (extracted_timezone_well_formed
           (Some ("BEGIN:VTIMEZONE" ++ CRLF ++ "TZID: Europe/Paris " ++ CRLF ++ "END:VTIMEZONE"))
           "Europe/Paris").
  reflexivity.
Defined.

(** *** Offset-aware and naive date-times *)

Lemma forallb_digits_last (l : list ascii) c :
  List.forallb isDigit (l ++ [c]) = true -> isDigit c = true.
Proof.
  rewrite List.forallb_app. intros Hl. apply andb_prop in Hl. destruct Hl as [_ Hc].
  cbn in Hc. now rewrite andb_true_r in Hc.
Qed.

End ResolverFacts.

Module FormatFacts.
Import Timezone TextFacts ResolverFacts.
Local Open Scope Z_scope.

Ltac step_match :=
  match goal with
  | |- context [match ?x with _ => _ end] => is_var x; destruct x
  end.

(** What a text that [matchNaive] accepts looks like. *)
Lemma matchNaive_shape naive r :
  matchNaive naive = Some r ->
  exists y1 y2 y3 y4 mo1 mo2 d1 d2 h1 h2 mi1 mi2 s1 s2,
    list_ascii_of_string naive
    = [y1; y2; y3; y4; "-"%char; mo1; mo2; "-"%char; d1; d2; "T"%char;
       h1; h2; ":"%char; mi1; mi2; ":"%char; s1; s2] /\
    List.forallb isDigit [y1; y2; y3; y4; mo1; mo2; d1; d2; h1; h2; mi1; mi2; s1; s2] = true /\
    r = (number [y1; y2; y3; y4], number [mo1; mo2], number [d1; d2],
         number [h1; h2], number [mi1; mi2], number [s1; s2]).
Proof.
  unfold matchNaive. generalize (list_ascii_of_string naive). intros l.
  repeat (first [ discriminate | step_match ]).
  destruct (List.forallb _ _) eqn:E; [|discriminate].
  intros [= <-]. do 14 eexists. split; [reflexivity|]. split; [exact E | reflexivity].
Qed.

(** What a text that [hasTimezoneOffset] accepts ends in. *)
Lemma hasTimezoneOffset_shape datetime :
  hasTimezoneOffset datetime = true ->
  (exists r, rev (list_ascii_of_string datetime) = "Z"%char :: r) \/
  (exists m2 m1 h2 h1 sign r,
     rev (list_ascii_of_string datetime) = m2 :: m1 :: ":"%char :: h2 :: h1 :: sign :: r /\
     (Ascii.eqb sign "+" || Ascii.eqb sign "-") = true).
Proof.
  unfold hasTimezoneOffset. generalize (rev (list_ascii_of_string datetime)). intros l.
  repeat (first [ discriminate | step_match ]);
    try (intros _; left; eexists; reflexivity);
    (intros Hd; apply andb_prop in Hd; destruct Hd as [_ Hs];
     right; do 6 eexists; split; [reflexivity | exact Hs]).
Qed.

(** X9: The two formats exclude each other: a date-time that counts as
    offset-aware is never accepted as naive, so [naiveToUtcIso] refuses it
    with the invalid-format error, on every host and for every zone. *)
Theorem offset_aware_is_refused_as_naive H datetime tzId :
  hasTimezoneOffset datetime = true ->
  naiveToUtcIso H datetime tzId = Throw (InvalidNaiveDatetime datetime).
Proof.
  intros Hoff. unfold naiveToUtcIso.
  destruct (matchNaive datetime) as [r|] eqn:Hn; [exfalso|reflexivity].
  apply matchNaive_shape in Hn.
  destruct Hn as [y1 [y2 [y3 [y4 [mo1 [mo2 [d1 [d2 [h1 [h2 [mi1 [mi2 [s1 [s2
    [Hl [Hd _]]]]]]]]]]]]]]]].
  apply hasTimezoneOffset_shape in Hoff. rewrite Hl in Hoff. cbn [rev app] in Hoff.
  destruct Hoff as [[r' Hz] | [m2 [m1 [h2' [h1' [sign [r' [Hz Hs]]]]]]]].
  - injection Hz as Hz _. subst s2.
    change [y1; y2; y3; y4; mo1; mo2; d1; d2; h1; h2; mi1; mi2; s1; "Z"%char]
      with ([y1; y2; y3; y4; mo1; mo2; d1; d2; h1; h2; mi1; mi2; s1] ++ ["Z"%char])%list in Hd.
    apply forallb_digits_last in Hd. discriminate.
  - injection Hz as _ _ _ _ Hsign _. subst sign. discriminate.
Qed.

Lemma offset_aware_is_refused_as_naive_witness :
  naiveToUtcIso utcHost "2026-02-23T15:00:00+05:30" "Asia/Kolkata"
  = Throw (InvalidNaiveDatetime "2026-02-23T15:00:00+05:30").
Proof.
  apply (offset_aware_is_refused_as_naive utcHost "2026-02-23T15:00:00+05:30" "Asia/Kolkata").
  reflexivity.
Defined.

(** *** The two-pass conversion *)

Lemma UTC_seconds y mo d h mi s : exists k, JsDate.UTC y mo d h mi s = 1000 * k.
Proof.
  unfold JsDate.UTC, JsDate.msPerDay, JsDate.msPerMinute, JsDate.msPerSecond.
  set (day := JsDate.daysFromCivil _ _ _ + d - 1).
  exists (day * 86400 + h * 3600 + mi * 60 + s). lia.
Qed.

(** On a host whose own zone keeps one offset, the offset measured at a
    whole second is the zone's own at that instant, in milliseconds. *)
Lemma offsetMsAt_fixed_local H m tzId offset y mo d h mi s :
  (forall civil, localOffset H civil = m) ->
  zoneOffset H tzId = Some offset ->
  let asUtc := JsDate.UTC y mo d h mi s in
  offsetMsAt H tzId asUtc = Ok (offset asUtc * 60000).
Proof.
  intros Hm Htz asUtc. unfold offsetMsAt. rewrite Htz. f_equal.
  destruct (UTC_seconds y mo d h mi s) as [k Hk]. fold asUtc in Hk.
  unfold reprIn, utcOffset, JsDate.msPerMinute. rewrite !Hm, Hk.
  replace (1000 * k + offset (1000 * k) * 60000)
    with ((k + offset (1000 * k) * 60) * 1000) by lia.
  replace (1000 * k + 0 * 60000) with (k * 1000) by lia.
  rewrite !Z.div_mul by lia. lia.
Qed.

(** X10: On a host whose own zone keeps one offset, whatever that offset is,
    [naiveToUtcIso] reads the naive fields as a UTC instant and takes away
    the offset that the target zone has AT THAT INSTANT (not at the civil
    time meant): the result does not depend on the host's offset, and is
    the civil time minus the zone's offset wherever the zone's offset is
    the same at both instants. *)
Theorem two_pass_samples_offset_at_naive_instant H m naive tzId offset y mo d h mi s :
  (forall civil, localOffset H civil = m) ->
  zoneOffset H tzId = Some offset ->
  matchNaive naive = Some (y, mo, d, h, mi, s) ->
  let asUtc := JsDate.UTC y (mo - 1) d h mi s in
  naiveToUtcIso H naive tzId = Ok (JsDate.toISOString (asUtc - offset asUtc * 60000)).
Proof.
  intros Hm Htz Hn asUtc. unfold naiveToUtcIso. rewrite Hn. fold asUtc.
  unfold asUtc. rewrite (offsetMsAt_fixed_local H m tzId offset _ _ _ _ _ _ Hm Htz).
  reflexivity.
Qed.

Lemma two_pass_samples_offset_at_naive_instant_witness :
  naiveToUtcIso (fixedHost "Asia/Tokyo" 540) "2026-03-01T09:00:00" "Asia/Tokyo"
  = Ok "2026-03-01T00:00:00.000Z".
Proof.
  rewrite (two_pass_samples_offset_at_naive_instant (fixedHost "Asia/Tokyo" 540) 540
             "2026-03-01T09:00:00" "Asia/Tokyo" (fun _ => 540) 2026 3 1 9 0 0
             (fun _ => eq_refl) eq_refl eq_refl).
  vm_compute. reflexivity.
Defined.

End FormatFacts.

(** ** The calendar behind [Date.UTC] and [toISOString] *)

Module CivilFacts.
Import Text JsDate Timezone FormatFacts.
Local Open Scope Z_scope.

Ltac div_lia := Z.div_mod_to_equations; lia.

(** The Gregorian calendar. *)
Definition isLeap (y : Z) : bool :=
  (y mod 4 =? 0) && negb (y mod 100 =? 0) || (y mod 400 =? 0).

Definition daysInMonth (y m : Z) : Z :=
  if m =? 2 then (if isLeap y then 29 else 28)
  else if (m =? 4) || (m =? 6) || (m =? 9) || (m =? 11) then 30 else 31.

Definition validDate (y m d : Z) : bool :=
  (1 <=? m) && (m <=? 12) && (1 <=? d) && (d <=? daysInMonth y m).

(** The year of the era comes back from the day of the era; [doy] counts
    from 1 March, so that day 365 is 29 February of the year after. *)
Lemma yoe_recovered yoe doy :
  0 <= yoe < 400 -> 0 <= doy <= 365 ->
  (doy = 365 -> isLeap (yoe + 1) = true) ->
  let doe := yoe * 365 + yoe / 4 - yoe / 100 + doy in
  (doe - doe / 1460 + doe / 36524 - doe / 146096) / 365 = yoe /\ 0 <= doe < 146097.
Proof.
  intros Hy Hd Hl doe. subst doe.
  assert (Hl' : doy = 365 ->
                (yoe + 1) mod 4 = 0 /\ ((yoe + 1) mod 100 <> 0 \/ (yoe + 1) mod 400 = 0)).
  { intros E. specialize (Hl E). unfold isLeap in Hl.
    apply orb_prop in Hl. destruct Hl as [Hl | Hl].
    - apply andb_prop in Hl. destruct Hl as [H4 H100].
      apply Z.eqb_eq in H4. apply negb_true_iff, Z.eqb_neq in H100. tauto.
    - apply Z.eqb_eq in Hl. split; [div_lia | now right]. }
  clear Hl.
  assert (Hc : yoe / 100 = 0 \/ yoe / 100 = 1 \/ yoe / 100 = 2 \/ yoe / 100 = 3) by div_lia.
  destruct Hc as [Hc | [Hc | [Hc | Hc]]]; rewrite Hc; div_lia.
Qed.

Lemma civilFromDays_era era yoe doy :
  0 <= yoe < 400 -> 0 <= doy <= 365 ->
  (doy = 365 -> isLeap (yoe + 1) = true) ->
  civilFromDays (era * 146097 + (yoe * 365 + yoe / 4 - yoe / 100 + doy) - 719468)
  = let mp := (5 * doy + 2) / 153 in
    let m := if mp <? 10 then mp + 3 else mp - 9 in
    (yoe + era * 400 + (if m <=? 2 then 1 else 0), m, doy - (153 * mp + 2) / 5 + 1).
Proof.
  intros Hy Hd Hl. destruct (yoe_recovered yoe doy Hy Hd Hl) as [Hyoe Hdoe].
  cbv zeta in Hyoe, Hdoe. unfold civilFromDays.
  set (doe := yoe * 365 + yoe / 4 - yoe / 100 + doy) in *.
  replace (era * 146097 + doe - 719468 + 719468) with (doe + era * 146097) by lia.
  rewrite Z.div_add by lia. rewrite (Z.div_small doe) by lia.
  cbv zeta. replace (doe + era * 146097 - (0 + era) * 146097) with doe by lia.
  rewrite Hyoe.
  replace (doe - (365 * yoe + yoe / 4 - yoe / 100)) with doy by (unfold doe; lia).
  replace (0 + era) with era by lia. reflexivity.
Qed.

Lemma isLeap_period y k : isLeap (y + k * 400) = isLeap y.
Proof.
  unfold isLeap.
  replace ((y + k * 400) mod 4) with (y mod 4) by div_lia.
  replace ((y + k * 400) mod 100) with (y mod 100) by div_lia.
  replace ((y + k * 400) mod 400) with (y mod 400) by div_lia.
  reflexivity.
Qed.

(** The day number of a date of the calendar gives the date back. *)
Lemma civil_round_trip y m d :
  validDate y m d = true -> civilFromDays (daysFromCivil y m d) = (y, m, d).
Proof.
  unfold validDate. intros Hv.
  apply andb_prop in Hv. destruct Hv as [Hv Hd2].
  apply andb_prop in Hv. destruct Hv as [Hv Hd1].
  apply andb_prop in Hv. destruct Hv as [Hm1 Hm2].
  apply Z.leb_le in Hm1, Hm2, Hd1, Hd2.
  unfold daysFromCivil. cbv zeta.
  set (y' := if m <=? 2 then y - 1 else y).
  set (era := y' / 400). set (yoe := y' - era * 400).
  set (mp := if 2 <? m then m - 3 else m + 9).
  set (doy := (153 * mp + 2) / 5 + d - 1).
  assert (Hyoe : 0 <= yoe < 400) by (unfold yoe, era; div_lia).
  assert (Hleap : m = 2 -> isLeap (yoe + 1) = isLeap y).
  { intros ->. unfold yoe, y'. cbn [Z.leb Z.compare Pos.compare Pos.compare_cont].
    replace (y - 1 - era * 400 + 1) with (y + (- era) * 400) by lia.
    apply isLeap_period. }
  assert (Hcases : m = 1 \/ m = 2 \/ m = 3 \/ m = 4 \/ m = 5 \/ m = 6 \/ m = 7 \/ m = 8
                   \/ m = 9 \/ m = 10 \/ m = 11 \/ m = 12) by lia.
  assert (Hdoy : 0 <= doy <= 365 /\ (doy = 365 -> isLeap (yoe + 1) = true) /\
                 (5 * doy + 2) / 153 = mp /\ doy - (153 * mp + 2) / 5 + 1 = d).
  { assert (Hmp : mp = m - 3 /\ 3 <= m \/ mp = m + 9 /\ m <= 2).
    { unfold mp. destruct (2 <? m) eqn:E2; [apply Z.ltb_lt in E2 | apply Z.ltb_ge in E2]; lia. }
    unfold doy. clearbody mp. unfold daysInMonth in Hd2.
    destruct (isLeap y) eqn:El;
      repeat (destruct Hcases as [Hc | Hcases]; [subst m|]); try subst m;
      try specialize (Hleap eq_refl); cbn in Hd2;
      (split; [div_lia|]); (split; [try (intros; congruence); try div_lia|]);
      (split; div_lia). }
  destruct Hdoy as [Hr [Hl [Hmp Hdd]]].
  rewrite (civilFromDays_era era yoe doy Hyoe Hr Hl). cbv zeta.
  rewrite Hmp, Hdd.
  assert (Hmm : (if mp <? 10 then mp + 3 else mp - 9) = m).
  { unfold mp. destruct (2 <? m) eqn:E2.
    - apply Z.ltb_lt in E2. destruct (m - 3 <? 10) eqn:E3; [lia|]. apply Z.ltb_ge in E3. lia.
    - apply Z.ltb_ge in E2. destruct (m + 9 <? 10) eqn:E3; [|lia]. apply Z.ltb_lt in E3. lia. }
  rewrite Hmm. f_equal. f_equal.
  unfold yoe, y'. destruct (m <=? 2); lia.
Qed.

(** [Date.UTC] on the fields of a date of the calendar, and the fields it
    gives back. *)
Definition effectiveYear (y : Z) : Z :=
  if (0 <=? y) && (y <=? 99) then 1900 + y else y.

Lemma UTC_civil y mo d h mi s :
  1 <= mo <= 12 ->
  UTC y (mo - 1) d h mi s
  = daysFromCivil (effectiveYear y) mo d * msPerDay
    + h * 3600000 + mi * msPerMinute + s * msPerSecond.
Proof.
  intros Hmo. unfold UTC, effectiveYear. cbv zeta.
  replace ((mo - 1) / 12) with 0 by div_lia.
  replace ((mo - 1) mod 12) with (mo - 1) by div_lia.
  replace (mo - 1 + 1) with mo by lia. rewrite Z.add_0_r.
  do 3 f_equal. unfold daysFromCivil. lia.
Qed.

Lemma utcFields_civil y m d h mi s :
  validDate y m d = true -> 0 <= h <= 23 -> 0 <= mi <= 59 -> 0 <= s <= 59 ->
  utcFields (daysFromCivil y m d * msPerDay + h * 3600000 + mi * msPerMinute + s * msPerSecond)
  = {| f_year := y; f_month := m; f_day := d;
       f_hours := h; f_minutes := mi; f_seconds := s; f_ms := 0 |}.
Proof.
  intros Hv Hh Hmi Hs. unfold utcFields, msPerDay, msPerMinute, msPerSecond.
  set (D := daysFromCivil y m d).
  replace ((D * 86400000 + h * 3600000 + mi * 60000 + s * 1000) / 86400000) with D by div_lia.
  replace ((D * 86400000 + h * 3600000 + mi * 60000 + s * 1000) mod 86400000)
    with (h * 3600000 + mi * 60000 + s * 1000) by div_lia.
  unfold D. rewrite (civil_round_trip y m d Hv).
  f_equal; div_lia.
Qed.

(** Digits and the numbers they spell. *)
Definition digits : list ascii :=
  ["0"; "1"; "2"; "3"; "4"; "5"; "6"; "7"; "8"; "9"]%char.

Lemma isDigit_digits c : isDigit c = true -> In c digits.
Proof.
  destruct c as [[] [] [] [] [] [] [] []]; intros Hc; try discriminate Hc;
    unfold digits; cbn [In]; repeat (first [ left; reflexivity | right ]).
Qed.

Lemma digit_range c : isDigit c = true -> 0 <= digit c <= 9.
Proof.
  intros Hc. apply isDigit_digits in Hc. unfold digits in Hc. cbn [In] in Hc.
  repeat (destruct Hc as [<- | Hc]; [vm_compute; split; discriminate|]). contradiction.
Qed.

Definition spells2 (a b : ascii) : bool :=
  String.eqb (pad 2 (number [a; b])) (String a (String b "")).

Lemma pad2_number a b :
  isDigit a = true -> isDigit b = true -> pad 2 (number [a; b]) = String a (String b "").
Proof.
  intros Ha Hb. apply String.eqb_eq. change (spells2 a b = true).
  assert (Hall : List.forallb (fun a => List.forallb (spells2 a) digits) digits = true)
    by (vm_compute; reflexivity).
  rewrite forallb_forall in Hall. specialize (Hall a (isDigit_digits a Ha)).
  rewrite forallb_forall in Hall. exact (Hall b (isDigit_digits b Hb)).
Qed.

Definition spells4 (shift : Z) (lead : string) (a b c d : ascii) : bool :=
  String.eqb (pad 4 (shift + number [a; b; c; d])) (lead ++ String c (String d "")).

Lemma pad4_number a b c d :
  isDigit a = true -> isDigit b = true -> isDigit c = true -> isDigit d = true ->
  pad 4 (number [a; b; c; d]) = String a (String b (String c (String d ""))).
Proof.
  intros Ha Hb Hc Hd. apply String.eqb_eq.
  change (spells4 0 (String a (String b "")) a b c d = true).
  assert (Hall : List.forallb (fun a => List.forallb (fun b => List.forallb (fun c =>
                   List.forallb (spells4 0 (String a (String b "")) a b c) digits)
                   digits) digits) digits = true)
    by (vm_compute; reflexivity).
  rewrite forallb_forall in Hall. specialize (Hall a (isDigit_digits a Ha)).
  rewrite forallb_forall in Hall. specialize (Hall b (isDigit_digits b Hb)).
  rewrite forallb_forall in Hall. specialize (Hall c (isDigit_digits c Hc)).
  rewrite forallb_forall in Hall. exact (Hall d (isDigit_digits d Hd)).
Qed.

Lemma pad4_nineteen c d :
  isDigit c = true -> isDigit d = true ->
  pad 4 (1900 + number [c; d]) = String "1" (String "9" (String c (String d ""))).
Proof.
  intros Hc Hd. apply String.eqb_eq.
  change (spells4 1900 "19" "0" "0" c d = true).
  assert (Hall : List.forallb (fun c => List.forallb (spells4 1900 "19" "0" "0" c) digits)
                   digits = true)
    by (vm_compute; reflexivity).
  rewrite forallb_forall in Hall. specialize (Hall c (isDigit_digits c Hc)).
  rewrite forallb_forall in Hall. exact (Hall d (isDigit_digits d Hd)).
Qed.

Lemma number2_range a b :
  isDigit a = true -> isDigit b = true -> 0 <= number [a; b] <= 99.
Proof.
  intros Ha Hb. apply digit_range in Ha, Hb. unfold number. cbn [fold_left]. lia.
Qed.

Lemma number4_range a b c d :
  isDigit a = true -> isDigit b = true -> isDigit c = true -> isDigit d = true ->
  0 <= number [a; b; c; d] <= 9999.
Proof.
  intros Ha Hb Hc Hd. apply digit_range in Ha, Hb, Hc, Hd. unfold number. cbn [fold_left]. lia.
Qed.

Lemma digit_zero c : isDigit c = true -> digit c = 0 -> c = "0"%char.
Proof.
  intros Hc. apply isDigit_digits in Hc. unfold digits in Hc. cbn [In] in Hc.
  destruct Hc as [<- | Hc]; [reflexivity|].
  repeat (destruct Hc as [<- | Hc]; [vm_compute; discriminate|]). contradiction.
Qed.

Lemma number4_small a b c d :
  isDigit a = true -> isDigit b = true -> isDigit c = true -> isDigit d = true ->
  number [a; b; c; d] <= 99 ->
  a = "0"%char /\ b = "0"%char /\ number [a; b; c; d] = number [c; d].
Proof.
  intros Ha Hb Hc Hd.
  pose proof (digit_range a Ha). pose proof (digit_range b Hb).
  pose proof (digit_range c Hc). pose proof (digit_range d Hd).
  unfold number. cbn [fold_left]. intros Hle.
  assert (Ea : digit a = 0) by lia. assert (Eb : digit b = 0) by lia.
  split; [now apply digit_zero|]. split; [now apply digit_zero|]. lia.
Qed.

(** A zone whose offset is always zero measures as such on every host: the
    two readings are of the same text. *)
Lemma offsetMsAt_zero H tzId offset t :
  zoneOffset H tzId = Some offset -> (forall t, offset t = 0) ->
  offsetMsAt H tzId t = Ok 0.
Proof.
  intros Htz Hzero. unfold offsetMsAt. rewrite Htz. f_equal.
  unfold reprIn, utcOffset. rewrite Hzero. lia.
Qed.

(** The text [toISOString] prints for a date of the calendar and a time of
    the day given by digits. *)
Lemma toISOString_civil yr m d h1 h2 mi1 mi2 s1 s2 :
  validDate yr m d = true -> 0 <= yr <= 9999 ->
  List.forallb isDigit [h1; h2; mi1; mi2; s1; s2] = true ->
  number [h1; h2] <= 23 -> number [mi1; mi2] <= 59 -> number [s1; s2] <= 59 ->
  toISOString (daysFromCivil yr m d * msPerDay + number [h1; h2] * 3600000
               + number [mi1; mi2] * msPerMinute + number [s1; s2] * msPerSecond)
  = pad 4 yr ++ "-" ++ pad 2 m ++ "-" ++ pad 2 d ++
    String "T" (String h1 (String h2 (String ":" (String mi1 (String mi2
      (String ":" (String s1 (String s2 ".000Z")))))))).
Proof.
  intros Hv Hyr Hd Hh Hmi Hs. cbn [List.forallb] in Hd.
  repeat (apply andb_prop in Hd; let Hc := fresh "Hc" in destruct Hd as [Hc Hd]).
  pose proof (number2_range h1 h2 Hc Hc0).
  pose proof (number2_range mi1 mi2 Hc1 Hc2).
  pose proof (number2_range s1 s2 Hc3 Hc4).
  unfold toISOString. rewrite (utcFields_civil _ _ _ _ _ _ Hv) by lia.
  cbn [f_year f_month f_day f_hours f_minutes f_seconds f_ms].
  rewrite !pad2_number by assumption. change (pad 3 0) with "000".
  replace ((0 <=? yr) && (yr <=? 9999)) with true
    by (symmetry; apply andb_true_intro; split; apply Z.leb_le; lia).
  reflexivity.
Qed.

Lemma number2_is a b n :
  isDigit a = true -> isDigit b = true -> number [a; b] = n ->
  0 <= n <= 99 /\ pad 2 n = String a (String b "").
Proof.
  intros Ha Hb <-. split; [now apply number2_range | now apply pad2_number].
Qed.

Lemma pad2_injective a b a' b' :
  isDigit a = true -> isDigit b = true -> isDigit a' = true -> isDigit b' = true ->
  number [a; b] = number [a'; b'] -> a = a' /\ b = b'.
Proof.
  intros Ha Hb Ha' Hb' Hn.
  pose proof (pad2_number a b Ha Hb) as H1. pose proof (pad2_number a' b' Ha' Hb') as H2.
  rewrite Hn, H2 in H1. now injection H1 as -> ->.
Qed.

(** In the years 0000 to 0099 every date of the calendar is one of the
    year 1900 later too, but for 29 February of the year 0000. *)
Lemma validDate_shifted y m d :
  0 <= y <= 99 -> validDate y m d = true ->
  validDate (1900 + y) m d = true \/ (y = 0 /\ m = 2 /\ d = 29).
Proof.
  intros Hy. unfold validDate, daysInMonth.
  destruct (m =? 2) eqn:Em; [|now left].
  apply Z.eqb_eq in Em. subst m.
  assert (Hleap : y = 0 \/ isLeap (1900 + y) = isLeap y).
  { destruct (Z.eq_dec y 0) as [->|Hne]; [now left|]. right. unfold isLeap.
    replace ((1900 + y) mod 4) with (y mod 4) by div_lia.
    replace ((1900 + y) mod 100) with (y mod 100) by div_lia.
    replace (y mod 100) with y by div_lia.
    replace ((1900 + y) mod 400 =? 0) with false by (symmetry; apply Z.eqb_neq; div_lia).
    replace (y mod 400 =? 0) with false by (symmetry; apply Z.eqb_neq; div_lia).
    reflexivity. }
  destruct Hleap as [-> | ->]; [|now left].
  change (isLeap (1900 + 0)) with false. change (isLeap 0) with true. cbv iota.
  intros Hv. apply andb_prop in Hv. destruct Hv as [Hv H29].
  apply andb_prop in Hv. destruct Hv as [_ H1].
  apply Z.leb_le in H1, H29.
  destruct (Z.eq_dec d 29) as [->|Hne]; [now right|]. left.
  apply andb_true_intro. split; [|apply Z.leb_le; lia].
  apply andb_true_intro. split; [reflexivity | apply Z.leb_le; lia].
Qed.

(** X11: In a zone whose offset is always zero, on any host, a naive
    date-time that names a time of the day and a date of the calendar
    comes back as it was given, with [.000Z] after it, when its year is
    0100 or later.  A year from 0000 to 0099 comes back as 1900 to 1999,
    which is what [Date.UTC] makes of a year below 100: the date is kept
    when it is a date of that later year too, and the one date that is not,
    29 February 0000, comes back as 1 March 1900. *)
Theorem zero_offset_zone_keeps_the_fields H naive tzId offset y mo d h mi s :
  zoneOffset H tzId = Some offset ->
  (forall t, offset t = 0) ->
  matchNaive naive = Some (y, mo, d, h, mi, s) ->
  h <= 23 -> mi <= 59 -> s <= 59 ->
  (100 <= y -> validDate y mo d = true ->
   naiveToUtcIso H naive tzId = Ok (naive ++ ".000Z")) /\
  (y <= 99 -> validDate (1900 + y) mo d = true ->
   naiveToUtcIso H naive tzId = Ok ("19" ++ drop 2 naive ++ ".000Z")) /\
  (y <= 99 -> validDate y mo d = true -> validDate (1900 + y) mo d = false ->
   y = 0 /\ mo = 2 /\ d = 29 /\
   naiveToUtcIso H naive tzId = Ok ("1900-03-01" ++ drop 10 naive ++ ".000Z")).
Proof.
  intros Htz Hzero Hn Hh Hmi Hs.
  assert (Hrun : naiveToUtcIso H naive tzId = Ok (toISOString (UTC y (mo - 1) d h mi s))).
  { unfold naiveToUtcIso. rewrite Hn. cbv zeta.
    rewrite (offsetMsAt_zero H tzId offset _ Htz Hzero). cbn [obind].
    now rewrite Z.sub_0_r. }
  rewrite Hrun. clear Hrun.
  apply matchNaive_shape in Hn.
  destruct Hn as [y1 [y2 [y3 [y4 [mo1 [mo2 [d1 [d2 [h1 [h2 [mi1 [mi2 [s1 [s2
    [Hl [Hd Hr]]]]]]]]]]]]]]]].
  assert (Hnaive : naive = string_of_list_ascii (list_ascii_of_string naive))
    by (symmetry; apply string_of_list_ascii_of_string).
  rewrite Hl in Hnaive. cbn [string_of_list_ascii] in Hnaive.
  cbn [List.forallb] in Hd.
  repeat (apply andb_prop in Hd; let Hc := fresh "Hc" in destruct Hd as [Hc Hd]).
  assert (Htime : List.forallb isDigit [h1; h2; mi1; mi2; s1; s2] = true)
    by (cbn [List.forallb]; now rewrite Hc7, Hc8, Hc9, Hc10, Hc11, Hc12).
  injection Hr as -> -> -> -> -> ->.
  pose proof (number4_range y1 y2 y3 y4 Hc Hc0 Hc1 Hc2) as Hy.
  assert (Hmonth : forall yr, validDate yr (number [mo1; mo2]) (number [d1; d2]) = true ->
                              1 <= number [mo1; mo2] <= 12).
  { intros yr Hv. unfold validDate in Hv. apply andb_prop in Hv. destruct Hv as [Hv _].
    apply andb_prop in Hv. destruct Hv as [Hv _].
    apply andb_prop in Hv. destruct Hv as [H1 H2]. apply Z.leb_le in H1, H2. lia. }
  split; [|split].
  - (* the year is kept *)
    intros Hbig Hv. f_equal.
    rewrite (UTC_civil _ _ _ _ _ _ (Hmonth _ Hv)). unfold effectiveYear.
    replace (number [y1; y2; y3; y4] <=? 99) with false
      by (symmetry; apply Z.leb_gt; lia).
    rewrite andb_false_r.
    rewrite (toISOString_civil _ _ _ _ _ _ _ _ _ Hv) by (assumption || lia).
    rewrite pad4_number, !pad2_number by assumption.
    rewrite Hnaive. reflexivity.
  - (* the year moves to 19yy, the date is kept *)
    intros Hsmall Hv. f_equal.
    destruct (number4_small y1 y2 y3 y4 Hc Hc0 Hc1 Hc2 Hsmall) as [Ey1 [Ey2 Hnum]].
    subst y1 y2.
    rewrite (UTC_civil _ _ _ _ _ _ (Hmonth _ Hv)). unfold effectiveYear.
    replace ((0 <=? number ["0"%char; "0"%char; y3; y4])
             && (number ["0"%char; "0"%char; y3; y4] <=? 99)) with true
      by (symmetry; apply andb_true_intro; split; apply Z.leb_le; lia).
    rewrite (toISOString_civil _ _ _ _ _ _ _ _ _ Hv) by (assumption || lia).
    rewrite Hnum, pad4_nineteen, !pad2_number by assumption.
    rewrite Hnaive. reflexivity.
  - (* 29 February 0000 *)
    intros Hsmall Hv Hnot.
    destruct (validDate_shifted _ _ _ (conj (proj1 Hy) Hsmall) Hv) as [Hv' | [E0 [E2 E29]]];
      [congruence|].
    split; [exact E0|]. split; [exact E2|]. split; [exact E29|]. f_equal.
    destruct (number4_small y1 y2 y3 y4 Hc Hc0 Hc1 Hc2 Hsmall) as [Ey1 [Ey2 Hnum]].
    subst y1 y2. rewrite Hnum in E0.
    destruct (pad2_injective y3 y4 "0" "0" Hc1 Hc2 eq_refl eq_refl E0) as [-> ->].
    destruct (pad2_injective mo1 mo2 "0" "2" Hc3 Hc4 eq_refl eq_refl E2) as [-> ->].
    destruct (pad2_injective d1 d2 "2" "9" Hc5 Hc6 eq_refl eq_refl E29) as [-> ->].
    change (UTC (number ["0"; "0"; "0"; "0"]%char) (number ["0"; "2"]%char - 1)
                (number ["2"; "9"]%char) (number [h1; h2]) (number [mi1; mi2])
                (number [s1; s2]))
      with (daysFromCivil 1900 3 1 * msPerDay + number [h1; h2] * 3600000
            + number [mi1; mi2] * msPerMinute + number [s1; s2] * msPerSecond).
    rewrite (toISOString_civil 1900 3 1) by (reflexivity || assumption || lia).
    rewrite Hnaive. reflexivity.
Qed.

Lemma zero_offset_zone_keeps_the_fields_witness :
  naiveToUtcIso newYorkHost "2024-02-29T23:59:59" "UTC" = Ok "2024-02-29T23:59:59.000Z" /\
  naiveToUtcIso newYorkHost "0096-02-29T12:00:00" "UTC" = Ok "1996-02-29T12:00:00.000Z" /\
  naiveToUtcIso newYorkHost "0000-02-29T12:00:00" "UTC" = Ok "1900-03-01T12:00:00.000Z".
Proof.
  split; [|split].
  - apply (proj1 (zero_offset_zone_keeps_the_fields newYorkHost
                    "2024-02-29T23:59:59" "UTC" (fun _ => 0) 2024 2 29 23 59 59
                    eq_refl (fun _ => eq_refl) eq_refl
                    ltac:(lia) ltac:(lia) ltac:(lia))); [lia | reflexivity].
  - apply (proj1 (proj2 (zero_offset_zone_keeps_the_fields newYorkHost
                    "0096-02-29T12:00:00" "UTC" (fun _ => 0) 96 2 29 12 0 0
                    eq_refl (fun _ => eq_refl) eq_refl
                    ltac:(lia) ltac:(lia) ltac:(lia)))); [lia | reflexivity].
  - apply (proj2 (proj2 (zero_offset_zone_keeps_the_fields newYorkHost
                    "0000-02-29T12:00:00" "UTC" (fun _ => 0) 0 2 29 12 0 0
                    eq_refl (fun _ => eq_refl) eq_refl
                    ltac:(lia) ltac:(lia) ltac:(lia)))); [lia | reflexivity | reflexivity].
Defined.

End CivilFacts.

(** ** The codecs: escaping and folding *)

Module CodecFacts.
Import Text ContentLine Ical TextFacts ContentLineFacts IcalFacts.

(** *** Escaping is one pass *)

(** What one character becomes. *)
Definition escOne (c : ascii) : string :=
  if Ascii.eqb c "\" then "\\"
  else if Ascii.eqb c LF then "\n"
  else if Ascii.eqb c CR then ""
  else if Ascii.eqb c ";" then "\;"
  else if Ascii.eqb c "," then "\,"
  else String c "".

Lemma replaceChar_app c by_ a b :
  replaceChar c by_ (a ++ b) = replaceChar c by_ a ++ replaceChar c by_ b.
Proof.
  induction a as [|x a IH]; [reflexivity|].
  cbn [append replaceChar]. now rewrite IH, append_assoc.
Qed.

Lemma escText_app a b : escText (a ++ b) = escText a ++ escText b.
Proof. unfold escText. now rewrite !replaceChar_app. Qed.

Lemma escText_one c : escText (String c "") = escOne c.
Proof. destruct c as [[] [] [] [] [] [] [] []]; reflexivity. Qed.

(** X12: The five replacements of [escText], and of the [esc] of the vCard
    codec, which is the same text, never touch what an earlier one wrote:
    together they are one pass that maps each character by a fixed table,
    so the escape of a concatenation is the concatenation of the escapes,
    and nothing is escaped twice. *)
Theorem escaping_is_one_pass :
  (forall c, escText (String c "") = escOne c) /\
  (forall a b, escText (a ++ b) = escText a ++ escText b) /\
  (forall v, VCard.esc v = escText v).
Proof.
  split; [exact escText_one|]. split; [exact escText_app|]. reflexivity.
Qed.

(** *** Folding *)

Lemma take_length n s : String.length (take n s) <= n.
Proof.
  revert s; induction n as [|n IH]; intros s; [cbn; lia|].
  destruct s as [|c s]; cbn [take String.length]; [lia|]. specialize (IH s). lia.
Qed.

Definition continuation (p : string) : bool :=
  match p with String c _ => Ascii.eqb c SP | EmptyString => false end.

Lemma foldParts_parts rest :
  Forall (fun p => String.length p <= max) (foldParts rest) /\
  Forall (fun p => continuation p = true) (tl (foldParts rest)).
Proof.
  apply (foldParts_elim (fun rest parts =>
    Forall (fun p => String.length p <= max) parts /\
    Forall (fun p => continuation p = true) (tl parts))).
  - clear rest. intros rest e [IH1 IH2] _. split.
    + constructor; [apply take_length | exact IH1].
    + cbn [tl]. destruct (foldParts_head SP (drop max rest)) as [y [ps Hps]].
      rewrite Hps in *. cbn [tl] in IH2. constructor; [reflexivity | exact IH2].
  - clear rest. intros rest e _. split; [|constructor].
    constructor; [|constructor]. apply Nat.ltb_ge in e. exact e.
Qed.

Lemma foldLine_parts l : foldLine l = join CRLF (foldParts l).
Proof.
  unfold foldLine. rewrite (foldParts_eq l).
  destruct (String.length l <=? max)%nat eqn:E.
  - apply Nat.leb_le in E. destruct (max <? String.length l)%nat eqn:E'; [|reflexivity].
    apply Nat.ltb_lt in E'. lia.
  - reflexivity.
Qed.

(** X13: A folded line is its parts joined by CRLF; no part is longer than 72
    characters, and every part after the first starts with the space that
    marks a continuation line. *)
Theorem folded_line_parts l :
  foldLine l = join CRLF (foldParts l) /\
  Forall (fun p => String.length p <= max) (foldParts l) /\
  Forall (fun p => continuation p = true) (tl (foldParts l)).
Proof. split; [apply foldLine_parts | apply foldParts_parts]. Qed.

Lemma append_empty s : s ++ "" = s.
Proof. induction s as [|c s IH]; [reflexivity|]. cbn [append]. now rewrite IH. Qed.

(** X14: Unfolding, as the summary parsers do before they search, gives back
    the line that [foldLine] folded, provided the line has no line break of
    its own. *)
Theorem unfold_after_fold l : noBreak l = true -> unfold (foldLine l) = l.
Proof.
  intros Hl. rewrite <- (append_empty (foldLine l)).
  rewrite (unfold_foldLine l "" Hl). apply append_empty.
Qed.

Definition longLine : string :=
  "DESCRIPTION:Quarterly review of the roadmap, the budget and the hiring plan for the next two quarters".

Lemma unfold_after_fold_witness :
  foldLine longLine <> longLine /\ unfold (foldLine longLine) = longLine.
Proof.
  split; [vm_compute; discriminate|].
  apply (unfold_after_fold longLine). reflexivity.
Defined.


End CodecFacts.

(** ** The codecs: what is read back from what was written *)

Module DocumentFacts.
Import Text ContentLine TextFacts ContentLineFacts IcalFacts EventFacts SummaryFacts.

Lemma contentLine_pre pre x :
  contentLine pre = true -> noBreak x = true -> contentLine (pre ++ x) = true.
Proof.
  unfold contentLine. intros Hp Hx.
  apply andb_prop in Hp. destruct Hp as [Hp Hc].
  apply andb_prop in Hp. destruct Hp as [Hb Hs].
  destruct (afterColon pre) as [v|] eqn:Hv; [|discriminate].
  rewrite noBreak_app, Hb, Hx, (afterColon_app _ _ x Hv).
  destruct pre as [|c pre]; [discriminate|]. cbn [append startsOk] in *. now rewrite Hs.
Qed.

Lemma values_app key a b : values key (a ++ b) = (values key a ++ values key b)%list.
Proof. unfold values. now rewrite filter_app, map_app. Qed.

(** The lines [pre ++ f x] for the [x] of a list, when [pre] starts with
    the key and ends at its only colon, and when it does not start with
    the key. *)
Lemma values_map_hit {A} key pre r (f : A -> string) l :
  dropPrefix key pre = Some r -> afterColon pre = Some "" ->
  values key (map (fun x => pre ++ f x) l) = map (fun x => trim (f x)) l.
Proof.
  intros Hd Hc. unfold values. induction l as [|x l IH]; [reflexivity|].
  cbn [map filter]. unfold startsWith at 1.
  rewrite (dropPrefix_app_some _ _ _ (f x) Hd). cbn [map].
  unfold valueOf at 1. rewrite (afterColon_app _ _ (f x) Hc). cbn [append].
  now rewrite IH.
Qed.

Lemma values_map_miss {A} key pre (f : A -> string) l :
  differs key pre = true -> values key (map (fun x => pre ++ f x) l) = [].
Proof.
  intros Hd. unfold values. induction l as [|x l IH]; [reflexivity|].
  cbn [map filter]. unfold startsWith at 1.
  now rewrite (differs_dropPrefix _ _ (f x) Hd).
Qed.

Lemma Forall_map_pre {A} pre (f : A -> string) (l : list A) :
  contentLine pre = true -> (forall x, noBreak (f x) = true) ->
  Forall (fun l => contentLine l = true) (map (fun x => pre ++ f x) l).
Proof.
  intros Hp Hf. apply Forall_map. apply Forall_forall. intros x _.
  now apply contentLine_pre.
Qed.


Lemma values_cons_miss key l ls :
  startsWith key l = false -> values key (l :: ls) = values key ls.
Proof. intros Hl. unfold values. cbn [filter]. now rewrite Hl. Qed.

Lemma values_cons_hit key l ls :
  startsWith key l = true -> values key (l :: ls) = valueOf l :: values key ls.
Proof. intros Hl. unfold values. cbn [filter]. now rewrite Hl. Qed.

End DocumentFacts.

Module CardFacts.
Import Text ContentLine VCard TextFacts ContentLineFacts IcalFacts EventFacts SummaryFacts.
Import DocumentFacts.

Lemma noBreak_esc v : noBreak (esc v) = true.
Proof. apply noBreak_escText. Qed.

Definition noteLines (input : CreateContactInput) : list string :=
  if truthy (ct_note input) then ["NOTE:" ++ esc (orEmpty (ct_note input))] else [].

Lemma cardLines_shape uid input :
  cardLines uid input =
  "BEGIN:VCARD" ::
  List.app [ "VERSION:3.0"; "UID:" ++ uid; "FN:" ++ esc (ct_fullName input);
             nameLine (ct_fullName input) ]
   (List.app (map (fun email => "EMAIL;TYPE=INTERNET:" ++ esc email) (orNil (ct_emails input)))
    (List.app (map (fun tel => "TEL;TYPE=CELL:" ++ esc tel) (orNil (ct_phones input)))
     (List.app (noteLines input) ["END:VCARD"]))).
Proof. reflexivity. Qed.

Lemma cardLines_content uid input :
  noBreak uid = true ->
  Forall (fun l => contentLine l = true) (cardLines uid input).
Proof.
  intros Huid. rewrite cardLines_shape.
  constructor; [reflexivity|].
  apply Forall_app; split; [|apply Forall_app; split; [|apply Forall_app; split;
    [|apply Forall_app; split]]].
  - repeat constructor.
    + now apply (contentLine_pre "UID:").
    + apply (contentLine_pre "FN:"); [reflexivity | apply noBreak_esc].
    + unfold nameLine. apply (contentLine_pre "N:"); [reflexivity|].
      now rewrite !noBreak_app, !noBreak_esc.
  - apply Forall_map_pre; [reflexivity | apply noBreak_esc].
  - apply Forall_map_pre; [reflexivity | apply noBreak_esc].
  - unfold noteLines. destruct (truthy (ct_note input)); [|constructor].
    constructor; [|constructor]. apply (contentLine_pre "NOTE:"); [reflexivity | apply noBreak_esc].
  - repeat constructor.
Qed.

(** X15: For Latin-1 text (every code unit of the uid, the name, the
    addresses, the numbers and the note is below 256): what the summary
    parser reads in a card that [buildVCard] wrote, the uid having no line
    break: the uid, the full name, every address and every number, in the
    order given, each as [esc] wrote it and trimmed.  The N line, the NOTE
    line and the TYPE parameters do not disturb the search.  Beyond Latin-1
    the parser's [.] also stops at U+2028 and U+2029 and [trim] strips
    further white space: fields with such characters are not covered. *)
Theorem card_summary_of_built_card uid input :
  noBreak uid = true ->
  parseVCardSummary (b_vcard (buildVCard uid input))
  = {| s_uid := Some (trim uid);
       s_fullName := Some (trim (esc (ct_fullName input)));
       s_emails := map (fun email => trim (esc email)) (orNil (ct_emails input));
       s_phones := map (fun tel => trim (esc tel)) (orNil (ct_phones input)) |}.
Proof.
  intros Huid. pose proof (cardLines_content uid input Huid) as Hdoc.
  unfold buildVCard, parseVCardSummary. cbn [b_vcard].
  rewrite join_block by (rewrite cardLines_shape; discriminate).
  rewrite (unfold_document _ Hdoc), !getOne_hd.
  rewrite cardLines_shape in *.
  rewrite !(getAll_document _ "BEGIN:VCARD") by (reflexivity || exact Hdoc).
  assert (Hnote : forall key, differs key "NOTE:" = true -> values key (noteLines input) = []).
  { intros key Hk. unfold noteLines. destruct (truthy (ct_note input)); [|reflexivity].
    unfold values. cbn [filter]. unfold startsWith.
    now rewrite (differs_dropPrefix _ _ _ Hk). }
  rewrite !values_app.
  rewrite !(values_map_hit "EMAIL" "EMAIL;TYPE=INTERNET:" ";TYPE=INTERNET:") by reflexivity.
  rewrite !(values_map_hit "TEL" "TEL;TYPE=CELL:" ";TYPE=CELL:") by reflexivity.
  rewrite !(values_map_miss "UID" "EMAIL;TYPE=INTERNET:"),
          !(values_map_miss "FN" "EMAIL;TYPE=INTERNET:"),
          !(values_map_miss "TEL" "EMAIL;TYPE=INTERNET:"),
          !(values_map_miss "UID" "TEL;TYPE=CELL:"),
          !(values_map_miss "FN" "TEL;TYPE=CELL:"),
          !(values_map_miss "EMAIL" "TEL;TYPE=CELL:") by reflexivity.
  rewrite !Hnote by reflexivity.
  unfold nameLine.
  f_equal.
  - cbn [app]. rewrite app_nil_r. reflexivity.
  - cbn [app]. rewrite app_nil_r. reflexivity.
Qed.

Lemma card_summary_of_built_card_witness :
  parseVCardSummary (b_vcard (buildVCard "u-1"
    {| ct_fullName := " Ada, Countess of Lovelace ";
       ct_emails := Some ["ada@example.com"];
       ct_phones := Some ["+44 20 7946 0000"; "555;1234"];
       ct_note := Some "EMAIL: none" |}))
  = {| s_uid := Some "u-1";
       s_fullName := Some "Ada\, Countess of Lovelace";
       s_emails := ["ada@example.com"];
       s_phones := ["+44 20 7946 0000"; "555\;1234"] |}.
Proof.
  rewrite (card_summary_of_built_card "u-1" _ eq_refl). reflexivity.
Defined.

End CardFacts.

Module EventSummaryFacts.
Import Text ContentLine Ical TextFacts ContentLineFacts IcalFacts EventFacts SummaryFacts.
Import DocumentFacts.

(** *** The date and time stamps have no white space *)

Definition clean (s : string) : bool := Text.forallb notWhite s.

Lemma clean_app a b : clean (a ++ b) = clean a && clean b.
Proof. apply forallb_app. Qed.

Lemma clean_uint d : clean (NilEmpty.string_of_uint d) = true.
Proof. induction d; cbn; auto. Qed.

Lemma clean_decimal n : clean (JsDate.decimal n) = true.
Proof.
  unfold JsDate.decimal, NilZero.string_of_int, NilZero.string_of_uint.
  destruct (Z.to_int n) as [d|d].
  - destruct d; try reflexivity; apply (clean_uint (_ _)).
  - change (notWhite "-" && clean match d with
                                  | Decimal.Nil => "0"
                                  | _ => NilEmpty.string_of_uint d
                                  end = true).
    destruct d; try reflexivity; apply (clean_uint (_ _)).
Qed.

Lemma clean_zeros k : clean (String.concat "" (repeat "0" k)) = true.
Proof.
  induction k as [|k IH]; [reflexivity|].
  cbn [repeat String.concat]. destruct (repeat "0" k) eqn:Hr; [reflexivity|].
  rewrite !clean_app, IH. reflexivity.
Qed.

Lemma clean_pad w n : clean (JsDate.pad w n) = true.
Proof.
  unfold JsDate.pad, JsDate.padStart.
  now rewrite clean_app, clean_zeros, clean_decimal.
Qed.

Lemma toIcsDateTime_clean rt iso dt : toIcsDateTime rt iso = Ok dt -> trim dt = dt.
Proof.
  intros Hdt. apply trim_notWhite. fold (clean dt). revert Hdt.
  unfold toIcsDateTime. destruct (parseDate rt iso) as [t|]; [|discriminate].
  generalize (JsDate.utcFields t). intros f [= <-].
  rewrite clean_app, clean_decimal.
  rewrite clean_app, clean_pad.
  rewrite clean_app, clean_pad.
  match goal with
  | |- context [clean (String ?c ?s)] =>
      change (clean (String c s)) with (notWhite c && clean s)
  end.
  rewrite clean_app, clean_pad.
  rewrite clean_app, clean_pad.
  rewrite clean_app, clean_pad.
  reflexivity.
Qed.

(** *** The lines after the summary *)

Definition attendeesOf (input : CreateEventInput) : list attendee :=
  match ev_attendees input with Some l => l | None => [] end.

Definition optionalLogical (key : string) (v : option string) : list string :=
  if truthy v then [key ++ escText (orEmpty v)] else [].

Definition attendeeLogical (a : attendee) : string :=
  "ATTENDEE" ++ (cnParam (att_name a) ++ ":mailto:" ++ att_email a).

(** The logical lines of an event after its first. *)
Definition eventLines (uid dtstamp dtstart dtend : string) (input : CreateEventInput)
  : list string :=
  List.app
    [ "VERSION:2.0"; "PRODID:-//fastmail-mcp//EN"; "CALSCALE:GREGORIAN"; "BEGIN:VEVENT";
      "UID:" ++ uid; "DTSTAMP:" ++ dtstamp; "DTSTART:" ++ dtstart; "DTEND:" ++ dtend;
      "ORGANIZER" ++ (cnParam (ev_organizerName input) ++
                      ":mailto:" ++ ev_organizerEmail input);
      "SUMMARY:" ++ escText (ev_title input) ]
    (List.app (optionalLogical "DESCRIPTION:" (ev_description input))
      (List.app (optionalLogical "LOCATION:" (ev_location input))
        (List.app (map attendeeLogical (attendeesOf input))
                  [ "END:VEVENT"; "END:VCALENDAR" ]))).

(** The same lines with the first, each as it is written: folded or not. *)
Definition optionalDoc (key : string) (v : option string) : list line :=
  if truthy v then [Folded (key ++ escText (orEmpty v))] else [].

Definition eventDoc (uid dtstamp dtstart dtend : string) (input : CreateEventInput)
  : list line :=
  List.app (headLines uid dtstamp dtstart dtend input)
    (List.app (optionalDoc "DESCRIPTION:" (ev_description input))
      (List.app (optionalDoc "LOCATION:" (ev_location input))
        (List.app (map (fun a => Folded (attendeeLogical a)) (attendeesOf input))
                  [ Raw "END:VEVENT"; Raw "END:VCALENDAR" ]))).

Lemma phys_optionalDoc key v : map phys (optionalDoc key v) = optionalLine key v.
Proof. unfold optionalDoc, optionalLine. now destruct (truthy v). Qed.

Lemma logical_optionalDoc key v : map logical (optionalDoc key v) = optionalLogical key v.
Proof. unfold optionalDoc, optionalLogical. now destruct (truthy v). Qed.

Lemma phys_attendees input :
  map phys (map (fun a => Folded (attendeeLogical a)) (attendeesOf input))
  = attendeeLines (ev_attendees input).
Proof.
  unfold attendeesOf, attendeeLines. destruct (ev_attendees input) as [l|]; [|reflexivity].
  rewrite map_map. apply map_ext. intros a. reflexivity.
Qed.

Lemma phys_eventDoc uid dtstamp dtstart dtend input :
  map phys (eventDoc uid dtstamp dtstart dtend input)
  = List.app (map phys (headLines uid dtstamp dtstart dtend input)) (tailLines input).
Proof.
  unfold eventDoc, tailLines.
  rewrite !map_app, !phys_optionalDoc, phys_attendees. reflexivity.
Qed.

Lemma logical_eventDoc uid dtstamp dtstart dtend input :
  map logical (eventDoc uid dtstamp dtstart dtend input)
  = "BEGIN:VCALENDAR" :: eventLines uid dtstamp dtstart dtend input.
Proof.
  unfold eventDoc, eventLines.
  rewrite !map_app, !logical_optionalDoc, map_map. reflexivity.
Qed.

Local Open Scope outcome_scope.

Lemma buildIcsEvent_stamps rt input b :
  buildIcsEvent rt input = Ok b ->
  exists dtstamp dtstart dtend,
    toIcsDateTime rt (JsDate.toISOString (now rt)) = Ok dtstamp /\
    toIcsDateTime rt (ev_start input) = Ok dtstart /\
    toIcsDateTime rt (ev_end input) = Ok dtend /\
    b_uid b = randomUUID rt /\
    b_ics b = block (map phys (eventDoc (randomUUID rt) dtstamp dtstart dtend input)) "".
Proof.
  unfold buildIcsEvent.
  destruct (toIcsDateTime rt (JsDate.toISOString (now rt))) as [dtstamp|] eqn:E1;
    [|discriminate].
  destruct (toIcsDateTime rt (ev_start input)) as [dtstart|] eqn:E2; [|discriminate].
  destruct (toIcsDateTime rt (ev_end input)) as [dtend|] eqn:E3; [|discriminate].
  cbn [obind]. cbv zeta. intros Hb.
  match type of Hb with Ok ?x = Ok _ => assert (Hx : b = x) by congruence end.
  clear Hb. subst b. exists dtstamp, dtstart, dtend.
  repeat split. cbn [b_ics]. rewrite join_block by discriminate.
  rewrite phys_eventDoc. reflexivity.
Qed.

Lemma hasColon_app a b v :
  afterColon b = Some v -> exists v', afterColon (a ++ b) = Some v'.
Proof.
  intros Hb. induction a as [|c a IH]; [now exists v|].
  cbn [append afterColon]. destruct (Ascii.eqb c ":"); [now eexists | exact IH].
Qed.

Lemma contentLine_mailto pre c name email :
  noBreak (String c pre) = true -> startsOk (String c pre) = true ->
  noBreak email = true ->
  contentLine (String c pre ++ (cnParam name ++ ":mailto:" ++ email)) = true.
Proof.
  intros Hp Hs He. unfold contentLine.
  rewrite !noBreak_app, Hp, noBreak_cnParam, He.
  destruct (hasColon_app (String c pre ++ cnParam name) (":mailto:" ++ email)
              ("mailto:" ++ email) eq_refl) as [v Hv].
  rewrite append_assoc in Hv. rewrite Hv. cbn [append startsOk] in *. now rewrite Hs.
Qed.

Lemma eventLines_content uid dtstamp dtstart dtend input :
  noBreak uid = true -> noBreak dtstamp = true ->
  noBreak dtstart = true -> noBreak dtend = true ->
  noBreak (ev_organizerEmail input) = true ->
  Forall (fun a => noBreak (att_email a) = true) (attendeesOf input) ->
  Forall (fun l => contentLine l = true)
         ("BEGIN:VCALENDAR" :: eventLines uid dtstamp dtstart dtend input).
Proof.
  intros Huid H1 H2 H3 Horg Hatt. unfold eventLines.
  constructor; [reflexivity|].
  apply Forall_app; split; [|apply Forall_app; split; [|apply Forall_app; split;
    [|apply Forall_app; split]]].
  - repeat constructor.
    + now apply (contentLine_pre "UID:").
    + now apply (contentLine_pre "DTSTAMP:").
    + now apply (contentLine_pre "DTSTART:").
    + now apply (contentLine_pre "DTEND:").
    + now apply (contentLine_mailto "RGANIZER" "O").
    + apply (contentLine_pre "SUMMARY:"); [reflexivity | apply noBreak_escText].
  - unfold optionalLogical. destruct (truthy (ev_description input)); [|constructor].
    constructor; [|constructor].
    apply (contentLine_pre "DESCRIPTION:"); [reflexivity | apply noBreak_escText].
  - unfold optionalLogical. destruct (truthy (ev_location input)); [|constructor].
    constructor; [|constructor].
    apply (contentLine_pre "LOCATION:"); [reflexivity | apply noBreak_escText].
  - apply Forall_map. revert Hatt. apply Forall_impl. intros a Ha.
    now apply (contentLine_mailto "TTENDEE" "A").
  - repeat constructor.
Qed.

Lemma contentLine_lineOk x : contentLine (logical x) = true -> lineOk x = true.
Proof.
  unfold contentLine, lineOk. intros Hx. apply andb_prop in Hx. now destruct Hx.
Qed.

(** X16: For Latin-1 text (every code unit of the uid, the title, the
    description, the location, the names and the addresses is below 256):
    what the summary parser reads in an event that [buildIcsEvent] wrote,
    the uid and the addresses having no line break: the uid; the title as
    [escText] wrote it, trimmed; the start and the end as the compact UTC
    stamps that [toIcsDateTime] made of them, not as they were given; and
    the location, escaped and trimmed, when one was given.  The
    description, the organizer and the attendees do not disturb the
    search.  Beyond Latin-1 the parser's [.] also stops at U+2028 and
    U+2029 and [trim] strips further white space: fields with such
    characters are not covered. *)
Theorem event_summary_of_built_event rt input b :
  buildIcsEvent rt input = Ok b ->
  noBreak (randomUUID rt) = true ->
  noBreak (ev_organizerEmail input) = true ->
  Forall (fun a => noBreak (att_email a) = true) (attendeesOf input) ->
  exists dtstart dtend,
    toIcsDateTime rt (ev_start input) = Ok dtstart /\
    toIcsDateTime rt (ev_end input) = Ok dtend /\
    parseIcsSummary (b_ics b)
    = {| s_uid := Some (trim (randomUUID rt));
         s_title := Some (trim (escText (ev_title input)));
         s_start := Some dtstart;
         s_end := Some dtend;
         s_location := if truthy (ev_location input)
                       then Some (trim (escText (orEmpty (ev_location input))))
                       else None |}.
Proof.
  intros Hb Huid Horg Hatt.
  destruct (buildIcsEvent_stamps rt input b Hb)
    as [dtstamp [dtstart [dtend [E1 [E2 [E3 [_ Hics]]]]]]].
  exists dtstart, dtend. split; [exact E2|]. split; [exact E3|].
  pose proof (eventLines_content (randomUUID rt) dtstamp dtstart dtend input Huid
                (toIcsDateTime_noBreak _ _ _ E1) (toIcsDateTime_noBreak _ _ _ E2)
                (toIcsDateTime_noBreak _ _ _ E3) Horg Hatt) as Hdoc.
  rewrite Hics. unfold parseIcsSummary, get.
  rewrite unfold_block; [| | reflexivity].
  2:{ rewrite <- logical_eventDoc in Hdoc. apply Forall_map in Hdoc.
      revert Hdoc. apply Forall_impl. intros x. apply contentLine_lineOk. }
  rewrite logical_eventDoc. change (unfold "") with "".
  rewrite !getOne_hd, !(getAll_document _ "BEGIN:VCALENDAR") by (reflexivity || exact Hdoc).
  set (lines := eventLines (randomUUID rt) dtstamp dtstart dtend input).
  assert (Hu : hd_error (values "UID" lines) = Some (trim (randomUUID rt))).
  { unfold lines, eventLines. cbn [List.app].
    rewrite !values_cons_miss by reflexivity. rewrite values_cons_hit by reflexivity.
    reflexivity. }
  assert (Ht : hd_error (values "SUMMARY" lines) = Some (trim (escText (ev_title input)))).
  { unfold lines, eventLines. cbn [List.app].
    rewrite !values_cons_miss by reflexivity. rewrite values_cons_hit by reflexivity.
    reflexivity. }
  assert (Hs : hd_error (values "DTSTART" lines) = Some dtstart).
  { unfold lines, eventLines. cbn [List.app].
    rewrite !values_cons_miss by reflexivity. rewrite values_cons_hit by reflexivity.
    cbn [hd_error]. f_equal. apply (toIcsDateTime_clean _ _ _ E2). }
  assert (He : hd_error (values "DTEND" lines) = Some dtend).
  { unfold lines, eventLines. cbn [List.app].
    rewrite !values_cons_miss by reflexivity. rewrite values_cons_hit by reflexivity.
    cbn [hd_error]. f_equal. apply (toIcsDateTime_clean _ _ _ E3). }
  assert (Hl : hd_error (values "LOCATION" lines)
               = if truthy (ev_location input)
                 then Some (trim (escText (orEmpty (ev_location input))))
                 else None).
  { unfold lines, eventLines. cbn [List.app].
    rewrite !values_cons_miss by reflexivity. rewrite !values_app.
    assert (Hd : values "LOCATION" (optionalLogical "DESCRIPTION:" (ev_description input)) = []).
    { unfold optionalLogical. now destruct (truthy (ev_description input)). }
    assert (Ha : values "LOCATION" (map attendeeLogical (attendeesOf input)) = []).
    { apply (values_map_miss "LOCATION" "ATTENDEE"
               (fun a => cnParam (att_name a) ++ ":mailto:" ++ att_email a)).
      reflexivity. }
    rewrite Hd, Ha. unfold optionalLogical.
    destruct (truthy (ev_location input)); reflexivity. }
  now rewrite Hu, Ht, Hs, He, Hl.
Qed.

Definition review : CreateEventInput :=
  {| ev_title := " Review; part 2 ";
     ev_start := "2026-02-23T15:00:00.000Z";
     ev_end := "2026-02-23T16:00:00.000Z";
     ev_description := Some "LOCATION: to be announced";
     ev_location := Some "Room 4, second floor";
     ev_organizerEmail := "me@example.com";
     ev_organizerName := Some "Me";
     ev_attendees := Some [ {| att_email := "dan@example.com"; att_name := Some "Dan" |} ] |}.

Lemma event_summary_of_built_event_witness :
  exists b,
    buildIcsEvent exampleRuntime review = Ok b /\
    parseIcsSummary (b_ics b)
    = {| s_uid := Some "3b241101-e2bb-4255-8caf-4136c566a962";
         s_title := Some "Review\; part 2";
         s_start := Some "20260223T150000Z";
         s_end := Some "20260223T160000Z";
         s_location := Some "Room 4\, second floor" |}.
Proof.
  destruct (buildIcsEvent exampleRuntime review) as [b|e] eqn:Hb;
    [|vm_compute in Hb; discriminate].
  exists b. split; [reflexivity|].
  destruct (event_summary_of_built_event exampleRuntime review b Hb eq_refl eq_refl)
    as [dtstart [dtend [E2 [E3 Hs]]]].
  - repeat constructor.
  - rewrite Hs. vm_compute in E2, E3.
    injection E2 as <-. injection E3 as <-. reflexivity.
Defined.

End EventSummaryFacts.

(** ** The configuration *)

Module ConfigFacts.
Import Text Config TextFacts ResolverFacts.

(** *** [env] *)

Lemma nonEmpty_iff s : nonEmpty s = true <-> s <> "".
Proof. destruct s; split; try discriminate; try reflexivity; congruence. Qed.

Lemma env_some E name t :
  env E name = Some t ->
  exists v, E name = Some v /\ trim v = t /\ nonEmpty t = true /\ hasPlaceholder t = false.
Proof.
  unfold env. destruct (E name) as [v|]; [|discriminate]. cbv zeta.
  destruct (nonEmpty (trim v)) eqn:Hne; [|discriminate]. cbn [negb].
  destruct (hasPlaceholder (trim v)) eqn:Hp; [discriminate|].
  intros [= <-]. now exists v.
Qed.

Lemma env_truthy E name : truthy (env E name) = match env E name with Some _ => true | None => false end.
Proof.
  destruct (env E name) as [t|] eqn:He; [|reflexivity].
  apply env_some in He. destruct He as [v [_ [_ [Hne _]]]]. exact Hne.
Qed.

(** X17: A value that [env] returns is not empty, has no white space around it
    and holds no placeholder; and [env] returns it again when the variable
    is set to it. *)
Theorem env_value_is_clean E name t :
  env E name = Some t ->
  t <> "" /\ trim t = t /\ hasPlaceholder t = false /\
  env (fun _ => Some t) name = Some t.
Proof.
  intros He. apply env_some in He. destruct He as [v [_ [Ht [Hne Hp]]]].
  assert (Htt : trim t = t) by (rewrite <- Ht; apply trim_idempotent).
  split; [now apply nonEmpty_iff|]. split; [exact Htt|]. split; [exact Hp|].
  unfold env. cbv zeta. now rewrite Htt, Hne, Hp.
Qed.

Definition paddedUser : environment :=
  fun name => if String.eqb name "FASTMAIL_USERNAME" then Some "  me@example.com " else None.

Lemma env_value_is_clean_witness :
  "me@example.com" <> "" /\ trim "me@example.com" = "me@example.com" /\
  hasPlaceholder "me@example.com" = false /\
  env (fun _ => Some "me@example.com") "FASTMAIL_USERNAME" = Some "me@example.com".
Proof.
  apply (env_value_is_clean paddedUser "FASTMAIL_USERNAME" "me@example.com"). reflexivity.
Defined.

Definition noBrace (x : string) : bool := Text.forallb (fun c => negb (Ascii.eqb c "}")) x.

Lemma untilBrace_run x post : untilBrace (x ++ String "}" post) = true.
Proof.
  induction x as [|c x IH]; [reflexivity|]. cbn [append untilBrace].
  now destruct (Ascii.eqb c "}").
Qed.

Lemma hasPlaceholder_here s : placeholderHere s = true -> hasPlaceholder s = true.
Proof. intros Hs. destruct s; cbn [hasPlaceholder]; now rewrite Hs. Qed.

Lemma hasPlaceholder_app pre s : hasPlaceholder s = true -> hasPlaceholder (pre ++ s) = true.
Proof.
  intros Hs. induction pre as [|c pre IH]; [exact Hs|].
  cbn [append hasPlaceholder]. rewrite IH. apply orb_true_r.
Qed.

(** X18: A variable whose value, trimmed, holds [${...}] somewhere, with at
    least one character other than the closing brace between the braces,
    counts as not set. *)
Theorem placeholder_is_unset E name v pre c x post :
  E name = Some v ->
  trim v = pre ++ "${" ++ String c x ++ "}" ++ post ->
  noBrace (String c x) = true ->
  env E name = None.
Proof.
  intros Hv Ht Hx. unfold env. rewrite Hv. cbv zeta.
  destruct (nonEmpty (trim v)); [|reflexivity]. cbn [negb].
  assert (Hp : hasPlaceholder (trim v) = true).
  { rewrite Ht. apply hasPlaceholder_app, hasPlaceholder_here.
    unfold placeholderHere. cbn [append dropPrefix Ascii.eqb Bool.eqb].
    unfold noBrace in Hx. cbn [Text.forallb] in Hx. apply andb_prop in Hx.
    destruct Hx as [Hc _]. rewrite Hc. cbn [andb].
    change (x ++ String "}" post) with (x ++ String "}" post).
    apply untilBrace_run. }
  now rewrite Hp.
Qed.

Lemma placeholder_is_unset_witness :
  env (fun _ => Some " https://${FASTMAIL_HOST}/api ") "FASTMAIL_BASE_URL" = None.
Proof.
  apply (placeholder_is_unset _ "FASTMAIL_BASE_URL" " https://${FASTMAIL_HOST}/api "
           "https://" "F" "ASTMAIL_HOST" "/api"); reflexivity.
Defined.

(** *** URLs *)

Lemma stripSlashes_end s : endsWithSlash (stripSlashes s) = false.
Proof.
  induction s as [|c r IH]; [reflexivity|]. cbn [stripSlashes].
  destruct (stripSlashes r) as [|c' r'] eqn:Hr.
  - destruct (Ascii.eqb c "/") eqn:Hc; [reflexivity|]. cbn [endsWithSlash]. exact Hc.
  - exact IH.
Qed.

Lemma normalizeUrl_end input defaultUrl : endsWithSlash (normalizeUrl input defaultUrl) = false.
Proof. apply stripSlashes_end. Qed.

Lemma endsWithSlash_app a c b : endsWithSlash (a ++ String c b) = endsWithSlash (String c b).
Proof.
  induction a as [|x a IH]; [reflexivity|]. cbn [append].
  change (endsWithSlash (String x (a ++ String c b)))
    with (match a ++ String c b with
          | EmptyString => Ascii.eqb x "/"
          | _ => endsWithSlash (a ++ String c b)
          end).
  destruct (a ++ String c b) eqn:Hab; [now destruct a | exact IH].
Qed.

Definition notSlash (c : ascii) : bool := negb (Ascii.eqb c "/").

Lemma endsWithSlash_none s : Text.forallb notSlash s = true -> endsWithSlash s = false.
Proof.
  induction s as [|c r IH]; [reflexivity|]. cbn [Text.forallb]. intros Hs.
  apply andb_prop in Hs. destruct Hs as [Hc Hr].
  destruct r as [|c' r']; [now apply negb_true_iff in Hc | now apply IH].
Qed.

Lemma ensureTrailingSlash_adds url :
  endsWithSlash url = false -> ensureTrailingSlash url = url ++ "/".
Proof. intros Hu. unfold ensureTrailingSlash. now rewrite Hu. Qed.

(** *** [encodeURIComponent] *)

Definition safeChar (c : ascii) : bool := isUnreserved c || Ascii.eqb c "%".

Lemma hexDigit_safe n : safeChar (hexDigit n) = true.
Proof.
  unfold hexDigit.
  repeat match goal with
         | |- context [match ?x with _ => _ end] => destruct x
         end; reflexivity.
Qed.

Lemma pct_safe n : Text.forallb safeChar (pct n) = true.
Proof. unfold pct. cbn [Text.forallb]. now rewrite !hexDigit_safe. Qed.

Lemma encodeChar_safe c : Text.forallb safeChar (encodeChar c) = true.
Proof.
  unfold encodeChar. cbv zeta. destruct (isUnreserved c) eqn:Hc.
  - cbn [Text.forallb]. unfold safeChar. now rewrite Hc.
  - destruct (code c <? 128)%N; [apply pct_safe|]. now rewrite forallb_app, !pct_safe.
Qed.

Lemma encodeChar_nonEmpty c : nonEmpty (encodeChar c) = true.
Proof.
  unfold encodeChar. cbv zeta. destruct (isUnreserved c); [reflexivity|].
  destruct (code c <? 128)%N; reflexivity.
Qed.

Lemma encode_safe s : Text.forallb safeChar (encodeURIComponent s) = true.
Proof.
  induction s as [|c r IH]; [reflexivity|]. cbn [encodeURIComponent].
  now rewrite forallb_app, encodeChar_safe, IH.
Qed.

Lemma encode_plain s : Text.forallb isUnreserved s = true -> encodeURIComponent s = s.
Proof.
  induction s as [|c r IH]; [reflexivity|]. cbn [Text.forallb encodeURIComponent].
  intros Hs. apply andb_prop in Hs. destruct Hs as [Hc Hr].
  unfold encodeChar. cbv zeta. rewrite Hc, (IH Hr). reflexivity.
Qed.

Lemma encode_notSlash s : Text.forallb notSlash (encodeURIComponent s) = true.
Proof.
  generalize (encode_safe s). apply forallb_impl.
  intros c. destruct c as [[] [] [] [] [] [] [] []]; try reflexivity; discriminate.
Qed.

Lemma encode_nonEmpty s : nonEmpty (encodeURIComponent s) = nonEmpty s.
Proof.
  destruct s as [|c r]; [reflexivity|]. cbn [encodeURIComponent nonEmpty].
  pose proof (encodeChar_nonEmpty c) as Hc. now destruct (encodeChar c).
Qed.

(** X19: The principal segment that [loadDavConfig] makes of the user name is
    written with letters, digits, [-_.!~*'()] and percent escapes only, so
    it holds no slash, question mark, hash or white space; it is empty
    only for the empty name; and a name of unreserved characters is left
    as it is. *)
Theorem encoded_component_is_safe s :
  Text.forallb safeChar (encodeURIComponent s) = true /\
  Text.forallb notSlash (encodeURIComponent s) = true /\
  (nonEmpty (encodeURIComponent s) = nonEmpty s) /\
  (Text.forallb isUnreserved s = true -> encodeURIComponent s = s).
Proof.
  split; [apply encode_safe|]. split; [apply encode_notSlash|].
  split; [apply encode_nonEmpty | apply encode_plain].
Qed.

(** *** Loading *)

Lemma truthy_orEmpty o t : o = Some t -> nonEmpty t = true -> truthy o = true /\ orEmpty o = t.
Proof. intros -> Ht. now split. Qed.

(** X20: The three outcomes of [loadFastmailAuthConfig]: a token wins over a
    user name and a password; without a token both of these are needed;
    and the error is raised otherwise.  In each configuration the base URL
    has no trailing slash, so that the session URL made of it has a single
    slash before [jmap]. *)
Theorem auth_config_cases E :
  (forall token, env E "FASTMAIL_API_TOKEN" = Some token ->
     exists baseUrl, loadFastmailAuthConfig E = Ok (bearer token baseUrl)) /\
  (forall user password,
     env E "FASTMAIL_API_TOKEN" = None ->
     env E "FASTMAIL_USERNAME" = Some user ->
     env E "FASTMAIL_APP_PASSWORD" = Some password ->
     exists baseUrl, loadFastmailAuthConfig E = Ok (basic user password baseUrl)) /\
  (env E "FASTMAIL_API_TOKEN" = None ->
   env E "FASTMAIL_USERNAME" = None \/ env E "FASTMAIL_APP_PASSWORD" = None ->
   loadFastmailAuthConfig E = Throw MissingCredentials) /\
  (forall cfg, loadFastmailAuthConfig E = Ok cfg ->
     endsWithSlash (baseUrlOf cfg) = false /\
     getSessionUrl cfg = baseUrlOf cfg ++ "/jmap/session").
Proof.
  unfold loadFastmailAuthConfig. cbv zeta. rewrite !env_truthy.
  split; [|split; [|split]].
  - intros token ->. eexists. reflexivity.
  - intros user password -> -> ->. eexists. reflexivity.
  - intros -> [-> | ->]; [reflexivity|].
    now destruct (env E "FASTMAIL_USERNAME").
  - intros cfg. destruct (env E "FASTMAIL_API_TOKEN").
    + intros [= <-]. split; [apply normalizeUrl_end | reflexivity].
    + destruct (env E "FASTMAIL_USERNAME"), (env E "FASTMAIL_APP_PASSWORD");
        try discriminate.
      intros [= <-]. split; [apply normalizeUrl_end | reflexivity].
Qed.

(** X21: [loadDavConfig] fails exactly when no user name is set, under either
    of its two names, or no application password is: an API token is not
    looked at, so the configuration that is enough for JMAP with a token is
    not enough for the calendars and the contacts. *)
Theorem dav_config_error_iff E :
  loadDavConfig E = Throw MissingDavCredentials <->
  (env E "FASTMAIL_DAV_USERNAME" = None /\ env E "FASTMAIL_USERNAME" = None) \/
  env E "FASTMAIL_APP_PASSWORD" = None.
Proof.
  unfold loadDavConfig, orElse. cbv zeta.
  pose proof (env_truthy E "FASTMAIL_DAV_USERNAME") as H1.
  pose proof (env_truthy E "FASTMAIL_USERNAME") as H2.
  pose proof (env_truthy E "FASTMAIL_APP_PASSWORD") as H3.
  destruct (env E "FASTMAIL_DAV_USERNAME") as [u|];
    destruct (env E "FASTMAIL_USERNAME") as [u'|];
    destruct (env E "FASTMAIL_APP_PASSWORD") as [p|];
    rewrite ?H1, ?H2, ?H3; cbn [negb orb];
    split; try discriminate; try tauto;
    intros [[? ?] | ?]; discriminate.
Qed.

Lemma principalUrl_one_slash base user :
  endsWithSlash base = false -> nonEmpty user = true ->
  exists x, principalUrl base (encodeURIComponent user) = x ++ "/" /\ endsWithSlash x = false.
Proof.
  intros Hb Hu. unfold principalUrl. destruct (includes "/dav/" base).
  - exists base. split; [now apply ensureTrailingSlash_adds | exact Hb].
  - pose proof (encode_notSlash user) as Hs. pose proof (encode_nonEmpty user) as Hne.
    rewrite Hu in Hne.
    destruct (encodeURIComponent user) as [|c r] eqn:He; [discriminate|].
    assert (Hend : endsWithSlash (base ++ "/dav/principals/user/" ++ String c r) = false).
    { rewrite <- append_assoc, endsWithSlash_app. now apply endsWithSlash_none. }
    eexists. split; [now apply ensureTrailingSlash_adds | exact Hend].
Qed.

(** X22: Both URLs of a DAV configuration end in exactly one slash, whatever
    the variables hold; and the user name of the configuration is not
    empty. *)
Theorem dav_urls_end_in_one_slash E c :
  loadDavConfig E = Ok c ->
  username c <> "" /\
  (exists x, caldavUrl c = x ++ "/" /\ endsWithSlash x = false) /\
  (exists x, carddavUrl c = x ++ "/" /\ endsWithSlash x = false).
Proof.
  unfold loadDavConfig. cbv zeta.
  set (user := orElse (env E "FASTMAIL_DAV_USERNAME") (env E "FASTMAIL_USERNAME")).
  destruct (truthy user) eqn:Hu; [|discriminate]. cbn [negb orb].
  destruct (truthy (env E "FASTMAIL_APP_PASSWORD")); [|discriminate]. cbn [negb].
  intros [= <-]. cbn [username caldavUrl carddavUrl].
  assert (Hne : nonEmpty (orEmpty user) = true) by now destruct user.
  split; [now apply nonEmpty_iff|].
  split; apply principalUrl_one_slash; try exact Hne; apply normalizeUrl_end.
Qed.

Definition davOnly : environment :=
  fun name =>
    if String.eqb name "FASTMAIL_USERNAME" then Some "me@example.com"
    else if String.eqb name "FASTMAIL_APP_PASSWORD" then Some "secret"
    else if String.eqb name "FASTMAIL_CARDDAV_URL" then Some "carddav.example.com/dav/addressbooks//"
    else None.

Lemma dav_urls_end_in_one_slash_witness :
  exists c,
    loadDavConfig davOnly = Ok c /\
    caldavUrl c = "https://caldav.fastmail.com/dav/principals/user/me%40example.com/" /\
    carddavUrl c = "https://carddav.example.com/dav/addressbooks/" /\
    username c <> "" /\
    (exists x, caldavUrl c = x ++ "/" /\ endsWithSlash x = false) /\
    (exists x, carddavUrl c = x ++ "/" /\ endsWithSlash x = false).
Proof.
  destruct (loadDavConfig davOnly) as [c|e] eqn:Hc; [|vm_compute in Hc; discriminate].
  exists c. split; [reflexivity|].
  pose proof (dav_urls_end_in_one_slash davOnly c Hc) as Hurls.
  vm_compute in Hc. injection Hc as <-.
  split; [reflexivity|]. split; [reflexivity|]. exact Hurls.
Defined.

(** X23: With no calendar URL set, the calendar URL is the principal URL of
    the user at the default host, the user name percent-encoded. *)
Theorem dav_default_principal E c :
  env E "FASTMAIL_CALDAV_URL" = None ->
  loadDavConfig E = Ok c ->
  caldavUrl c
  = "https://caldav.fastmail.com/dav/principals/user/" ++ encodeURIComponent (username c) ++ "/".
Proof.
  intros Hurl. unfold loadDavConfig. cbv zeta. rewrite Hurl.
  set (user := orElse (env E "FASTMAIL_DAV_USERNAME") (env E "FASTMAIL_USERNAME")).
  destruct (truthy user) eqn:Hu; [|discriminate]. cbn [negb orb].
  destruct (truthy (env E "FASTMAIL_APP_PASSWORD")); [|discriminate]. cbn [negb].
  intros [= <-]. cbn [username caldavUrl].
  assert (Hne : nonEmpty (orEmpty user) = true) by now destruct user.
  pose proof (encode_notSlash (orEmpty user)) as Hs.
  pose proof (encode_nonEmpty (orEmpty user)) as Hn.
  rewrite Hne in Hn.
  unfold principalUrl.
  change (normalizeUrl "" "https://caldav.fastmail.com") with "https://caldav.fastmail.com".
  change (includes "/dav/" "https://caldav.fastmail.com") with false. cbv iota.
  rewrite ensureTrailingSlash_adds.
  - now rewrite !append_assoc.
  - destruct (encodeURIComponent (orEmpty user)) as [|ch r] eqn:He; [discriminate|].
    rewrite <- append_assoc, endsWithSlash_app. now apply endsWithSlash_none.
Qed.

Lemma dav_default_principal_witness :
  exists c,
    loadDavConfig davOnly = Ok c /\
    caldavUrl c = "https://caldav.fastmail.com/dav/principals/user/me%40example.com/".
Proof.
  destruct (loadDavConfig davOnly) as [c|e] eqn:Hc; [|vm_compute in Hc; discriminate].
  exists c. split; [reflexivity|].
  rewrite (dav_default_principal davOnly c eq_refl Hc).
  vm_compute in Hc. injection Hc as <-. reflexivity.
Defined.

End ConfigFacts.

(** ** The mailbox and message operations *)

Module MailFacts.
Import Text Jmap Effect MailTools.
Import Dav(jsval, JUndefined, JNull, JBool, JNum, JStr, JArr, JObj, isTruthy, getProp).
Local Open Scope Z_scope.
Local Open Scope eff_scope.

Ltac run_op :=
  unfold run, delete_mailbox, deleteEmail, deleteMailbox, moveEmail, markEmailRead,
         updateMailbox, listMailboxes, bind, getSession, lift, send, emit, ret, throw.

(** X24: The [delete_mailbox] tool posts a destroy request only for the
    mailbox asked, in the account of the session, and only after the guard
    has passed on the list fetched in the same call; the list request is
    the only other one. *)
Theorem destroy_only_after_the_guard srv mailboxId r :
  In r (snd (run (delete_mailbox srv mailboxId))) ->
  exists accountId,
    session srv = Ok accountId /\
    (r = MailboxGet accountId \/
     r = MailboxSetDestroy accountId [mailboxId] /\
     exists l, mailboxes srv = Ok l /\ assertMailboxCanBeDeleted l mailboxId = Ok tt).
Proof.
  run_op. destruct (session srv) as [acc|st]; cbn [mapThrow]; [|intros []].
  destruct (mailboxes srv) as [l|st]; cbn [mapThrow app].
  - destruct (assertMailboxCanBeDeleted l mailboxId) as [[]|e] eqn:Hg; cbn [mapThrow].
    + destruct (post srv (MailboxSetDestroy acc [mailboxId])) as [res|st]; cbn [mapThrow app];
        [destruct (getMethodResult res 0 "Mailbox/set") as [body|e];
         [destruct (isTruthy _)|]|];
        cbn [snd In]; intros [<- | [<- | []]]; exists acc; split; try reflexivity;
        (now left) || (right; split; [reflexivity|]; now exists l).
    + cbn [snd In]. intros [<- | []]. exists acc. split; [reflexivity | now left].
  - cbn [snd In]. intros [<- | []]. exists acc. split; [reflexivity | now left].
Qed.

Definition theInbox : mailbox := {| mb_id := "mb-1"; mb_role := Some "inbox"; mb_name := Some "Inbox" |}.
Definition theTrash : mailbox := {| mb_id := "mb-2"; mb_role := Some "trash"; mb_name := Some "Trash" |}.
Definition receipts : mailbox := {| mb_id := "mb-7"; mb_role := None; mb_name := Some "Receipts" |}.

(** A server that accepts every change. *)
Definition agreeable : server :=
  {| session := Ok "u1";
     mailboxes := Ok [theInbox; theTrash; receipts];
     post := fun r =>
       match r with
       | MailboxGet _ => Ok [("Mailbox/get", JObj [])]
       | MailboxSetUpdate _ _ _ | MailboxSetDestroy _ _ => Ok [("Mailbox/set", JObj [])]
       | EmailSetKeywords _ _ _ | EmailSetMailboxIds _ _ _ => Ok [("Email/set", JObj [])]
       end |}.

Lemma destroy_only_after_the_guard_witness :
  run (delete_mailbox agreeable "mb-7")
  = (Ok "OK", [MailboxGet "u1"; MailboxSetDestroy "u1" ["mb-7"]]) /\
  exists accountId,
    session agreeable = Ok accountId /\
    (MailboxSetDestroy "u1" ["mb-7"] = MailboxGet accountId \/
     MailboxSetDestroy "u1" ["mb-7"] = MailboxSetDestroy accountId ["mb-7"] /\
     exists l, mailboxes agreeable = Ok l /\ assertMailboxCanBeDeleted l "mb-7" = Ok tt).
Proof.
  split; [reflexivity|].
  apply (destroy_only_after_the_guard agreeable "mb-7" (MailboxSetDestroy "u1" ["mb-7"])).
  vm_compute. right. left. reflexivity.
Defined.

(** A guard that refuses stops the tool with its error after the list
    request: nothing is destroyed. *)
Lemma refused_mailbox_is_not_destroyed srv mailboxId accountId l e :
  session srv = Ok accountId ->
  mailboxes srv = Ok l ->
  assertMailboxCanBeDeleted l mailboxId = Throw e ->
  run (delete_mailbox srv mailboxId) = (Throw (Refused e), [MailboxGet accountId]).
Proof.
  intros Hs Hm Hg. run_op. rewrite Hs. cbn [mapThrow]. rewrite Hm. cbn [mapThrow app].
  now rewrite Hg.
Qed.

Lemma refused_mailbox_is_not_destroyed_witness :
  run (delete_mailbox agreeable "mb-1")
  = (Throw (Refused (ProtectedRole "inbox")), [MailboxGet "u1"]).
Proof.
  apply (refused_mailbox_is_not_destroyed agreeable "mb-1" "u1" [theInbox; theTrash; receipts]);
    reflexivity.
Defined.

(** X25: A method-level error of the server, an entry named [error], reaches
    the caller of the mailbox operations, which read the answer through
    [getMethodResult], with the type and the description the server gave;
    [moveEmail] and [markEmailRead] read the body directly, find no
    [notUpdated] in it, and report success. *)
Theorem method_error_reaches_mailbox_operations_only
        srv accountId body mailboxId emailId target read :
  session srv = Ok accountId ->
  (forall r, post srv r = Ok [("error", body)]) ->
  getProp "notUpdated" body = JUndefined ->
  fst (run (deleteMailbox srv mailboxId))
  = Throw (MethodFailed "Mailbox/set" (stringOr (getProp "type" body) "unknown")
             (stringOr (getProp "description" body) "")) /\
  fst (run (moveEmail srv emailId target)) = Ok tt /\
  fst (run (markEmailRead srv emailId read)) = Ok tt.
Proof.
  intros Hs Hp Hn. run_op. rewrite Hs. cbn [mapThrow]. rewrite !Hp. cbn [mapThrow].
  unfold getMethodResult, firstBody. cbn [nth_error String.eqb Ascii.eqb Bool.eqb].
  rewrite Hn. repeat split.
Qed.

Definition failing (body : jsval) : server :=
  {| session := Ok "u1";
     mailboxes := Ok [theInbox; theTrash; receipts];
     post := fun _ => Ok [("error", body)] |}.

Definition accountNotFound : jsval := JObj [("type", JStr "accountNotFound")].

Lemma method_error_reaches_mailbox_operations_only_witness :
  fst (run (deleteMailbox (failing accountNotFound) "mb-7"))
  = Throw (MethodFailed "Mailbox/set" "accountNotFound" "") /\
  fst (run (moveEmail (failing accountNotFound) "e-1" "mb-2")) = Ok tt /\
  fst (run (markEmailRead (failing accountNotFound) "e-1" true)) = Ok tt.
Proof.
  apply (method_error_reaches_mailbox_operations_only (failing accountNotFound) "u1"
           accountNotFound "mb-7" "e-1" "mb-2" true); reflexivity || (intros; reflexivity).
Defined.

(** X26: The [update_mailbox] tool refuses a call without any field before a
    client exists for it, so no request is posted; and since it passes on
    only calls with a field, the same check inside [updateMailbox] never
    fires for it. *)
Theorem update_mailbox_needs_a_field srv mailboxId name parentId sortOrder isSubscribed :
  let result := run (update_mailbox srv mailboxId name parentId sortOrder isSubscribed) in
  (fst result = Throw NoMailboxField <->
   name = None /\ parentId = None /\ sortOrder = None /\ isSubscribed = None) /\
  (fst result = Throw NoMailboxField -> snd result = []) /\
  fst result <> Throw NoMailboxProperty.
Proof.
  assert (Hclient : forall u,
            noKeys u = false ->
            fst (run (updateMailbox srv mailboxId u)) <> Throw NoMailboxField /\
            fst (run (updateMailbox srv mailboxId u)) <> Throw NoMailboxProperty).
  { intros u Hu. run_op. rewrite Hu.
    destruct (session srv) as [acc|st]; cbn [mapThrow]; [|split; discriminate].
    destruct (post srv _) as [res|st]; cbn [mapThrow]; [|split; discriminate].
    unfold getMethodResult. destruct (nth_error res 0) as [[n b]|]; [|split; discriminate].
    destruct (String.eqb n "error"); [split; discriminate|].
    destruct (negb (String.eqb n "Mailbox/set")); [split; discriminate|].
    destruct (isTruthy _); split; discriminate. }
  cbv zeta. unfold update_mailbox.
  destruct name, parentId, sortOrder, isSubscribed;
    try (match goal with
         | |- context [updateMailbox srv mailboxId ?u] =>
             destruct (Hclient u eq_refl) as [H1 H2]
         end;
         split; [split; [intros Hr; now apply H1 in Hr | intros [? [? [? ?]]]; discriminate]|];
         split; [intros Hr; now apply H1 in Hr | exact H2]).
  split; [split; [intros _; repeat split | intros _; reflexivity]|].
  split; [reflexivity | discriminate].
Qed.

(** X27: [deleteEmail] never asks the server to destroy anything: after the
    list request, the one request it may post moves the message into the
    mailbox that [findMailbox] picks as the trash, and replaces the
    message's mailboxes by that one. *)
Theorem delete_email_moves_to_trash srv emailId r :
  In r (snd (run (deleteEmail srv emailId))) ->
  exists accountId,
    session srv = Ok accountId /\
    (r = MailboxGet accountId \/
     exists l trash,
       mailboxes srv = Ok l /\ findMailbox "trash" "trash" l = Some trash /\
       r = EmailSetMailboxIds accountId emailId [mb_id trash]).
Proof.
  run_op. destruct (session srv) as [acc|st] eqn:Hs; cbn [mapThrow]; [|intros []].
  destruct (mailboxes srv) as [l|st]; cbn [mapThrow app].
  - destruct (findMailbox "trash" "trash" l) as [t|] eqn:Ht.
    + cbn [mapThrow].
      destruct (post srv _) as [res|st]; cbn [mapThrow app];
        [destruct (isTruthy _)|];
        cbn [snd In]; intros [<- | [<- | []]]; exists acc; split; try reflexivity;
        (now left) || (right; exists l, t; now repeat split).
    + cbn [snd In]. intros [<- | []]. exists acc. split; [reflexivity | now left].
  - cbn [snd In]. intros [<- | []]. exists acc. split; [reflexivity | now left].
Qed.

Lemma delete_email_moves_to_trash_witness :
  run (deleteEmail agreeable "e-1")
  = (Ok tt, [MailboxGet "u1"; EmailSetMailboxIds "u1" "e-1" ["mb-2"]]) /\
  exists accountId,
    session agreeable = Ok accountId /\
    (EmailSetMailboxIds "u1" "e-1" ["mb-2"] = MailboxGet accountId \/
     exists l trash,
       mailboxes agreeable = Ok l /\ findMailbox "trash" "trash" l = Some trash /\
       EmailSetMailboxIds "u1" "e-1" ["mb-2"]
       = EmailSetMailboxIds accountId "e-1" [mb_id trash]).
Proof.
  split; [reflexivity|].
  apply (delete_email_moves_to_trash agreeable "e-1" (EmailSetMailboxIds "u1" "e-1" ["mb-2"])).
  vm_compute. right. left. reflexivity.
Defined.

End MailFacts.

(** ** The event listing *)

Module ListingFacts.
Import Text Timezone Effect Events.
Import Dav(calendar, cal_url, cal_timezone, findCalendar).
Local Open Scope Z_scope.
Local Open Scope eff_scope.

Lemma list_ascii_app a b :
  list_ascii_of_string (a ++ b) = (list_ascii_of_string a ++ list_ascii_of_string b)%list.
Proof. induction a as [|c a IH]; [reflexivity|]. cbn. now rewrite IH. Qed.

Lemma hasTimezoneOffset_Z s : hasTimezoneOffset (s ++ "Z") = true.
Proof.
  unfold hasTimezoneOffset. rewrite list_ascii_app, rev_app_distr. reflexivity.
Qed.

Lemma toISOString_aware t : hasTimezoneOffset (JsDate.toISOString t) = true.
Proof.
  unfold JsDate.toISOString. cbv zeta.
  rewrite <- !TextFacts.append_assoc. apply hasTimezoneOffset_Z.
Qed.

Lemma ensureOffsetAware_aware H datetime tzId r :
  ensureOffsetAware H datetime tzId = Ok r -> hasTimezoneOffset r = true.
Proof.
  unfold ensureOffsetAware. destruct (hasTimezoneOffset datetime) eqn:Hd.
  - now intros [= <-].
  - unfold naiveToUtcIso. destruct (matchNaive datetime) as [[[[[[y mo] d] h] mi] s]|];
      [|discriminate].
    cbv zeta. destruct (offsetMsAt H tzId _) as [ms|e]; [|discriminate].
    cbn [obind]. intros [= <-]. apply toISOString_aware.
Qed.

(** X28: What [ensureOffsetAware] returns is offset-aware, so that it returns
    it unchanged when given it again, whatever the zone. *)
Theorem ensured_datetime_is_offset_aware H datetime tzId r :
  ensureOffsetAware H datetime tzId = Ok r ->
  hasTimezoneOffset r = true /\
  forall tzId', ensureOffsetAware H r tzId' = Ok r.
Proof.
  intros Hr. apply ensureOffsetAware_aware in Hr. split; [exact Hr|].
  intros tzId'. unfold ensureOffsetAware. now rewrite Hr.
Qed.

Lemma ensured_datetime_is_offset_aware_witness :
  hasTimezoneOffset "2026-02-23T09:30:00.000Z" = true /\
  forall tzId', ensureOffsetAware utcHost "2026-02-23T09:30:00.000Z" tzId'
                = Ok "2026-02-23T09:30:00.000Z".
Proof.
  apply (ensured_datetime_is_offset_aware utcHost "2026-02-23T15:00:00" "Asia/Kolkata").
  vm_compute. reflexivity.
Defined.

Ltac run_listing :=
  unfold run, list_calendar_events, invoke, liftTz, bind, lift, emit, ret, throw.

(** X29: A time range with one bound only, or with an empty bound, is dropped
    without an error: the listing is the one of a call without any range,
    whatever the lone bound holds, and it never fails over a date-time. *)
Theorem one_sided_range_is_dropped H caldav calendarId timeRangeStart timeRangeEnd limit :
  truthy timeRangeStart && truthy timeRangeEnd = false ->
  run (list_calendar_events H caldav calendarId timeRangeStart timeRangeEnd limit)
  = run (list_calendar_events H caldav calendarId None None limit) /\
  forall e,
    fst (run (list_calendar_events H caldav calendarId timeRangeStart timeRangeEnd limit))
    <> Throw (BadDatetime e).
Proof.
  intros Hr. run_listing. rewrite Hr. split; [reflexivity|]. intros e.
  destruct (login caldav) as [[]|st]; cbn [mapThrow]; [|discriminate].
  destruct (fetchCalendars caldav) as [calendars|st]; cbn [mapThrow]; [|discriminate].
  destruct (findCalendar calendars calendarId) as [calendar|]; [|discriminate].
  destruct (fetchCalendarObjects caldav calendar None) as [objs|st]; discriminate.
Qed.

(** X30: A listing that succeeds made three calls, the last one for the
    calendar asked; the range it sent, if any, has offset-aware bounds;
    and what it returns are the first [limit] objects of the answer, in
    the answer's order, each with the summary of its data. *)
Theorem listing_is_a_bounded_prefix H caldav calendarId timeRangeStart timeRangeEnd limit out log :
  run (list_calendar_events H caldav calendarId timeRangeStart timeRangeEnd limit)
  = (Ok out, log) ->
  exists calendars calendar range objs,
    fetchCalendars caldav = Ok calendars /\
    findCalendar calendars calendarId = Some calendar /\
    log = [Login; FetchCalendars; FetchCalendarObjects calendarId range] /\
    (forall r, range = Some r ->
       hasTimezoneOffset (tr_start r) = true /\ hasTimezoneOffset (tr_end r) = true) /\
    (range = None <-> truthy timeRangeStart && truthy timeRangeEnd = false) /\
    fetchCalendarObjects caldav calendar range = Ok objs /\
    out = map toListed (firstn limit (orNone objs)) /\
    (List.length out <= limit)%nat.
Proof.
  run_listing. destruct (login caldav) as [[]|st]; cbn [mapThrow]; [|discriminate].
  destruct (fetchCalendars caldav) as [calendars|st]; cbn [mapThrow app]; [|discriminate].
  destruct (findCalendar calendars calendarId) as [calendar|] eqn:Hc; [|discriminate].
  assert (Hurl : cal_url calendar = calendarId).
  { unfold findCalendar in Hc. apply find_some in Hc. destruct Hc as [_ Hc].
    now apply String.eqb_eq in Hc. }
  set (tz := resolveTimezone H (extractCalendarTimezone (cal_timezone calendar))).
  assert (Hend : forall range,
            (forall r, range = Some r ->
               hasTimezoneOffset (tr_start r) = true /\ hasTimezoneOffset (tr_end r) = true) ->
            (range = None <-> truthy timeRangeStart && truthy timeRangeEnd = false) ->
            (let '(res, log') :=
               (mapThrow ClientError (fetchCalendarObjects caldav calendar range),
                ([Login; FetchCalendars] ++ [FetchCalendarObjects (cal_url calendar) range])%list) in
             match res with
             | Ok objs => (Ok (map toListed (firstn limit (orNone objs))), log')
             | Throw e => (Throw e, log')
             end) = (Ok out, log) ->
            exists calendars0 calendar0 range0 objs,
              (Ok calendars : outcome Z (option (list Dav.calendar))) = Ok calendars0 /\
              findCalendar calendars0 calendarId = Some calendar0 /\
              log = [Login; FetchCalendars; FetchCalendarObjects calendarId range0] /\
              (forall r, range0 = Some r ->
                 hasTimezoneOffset (tr_start r) = true /\ hasTimezoneOffset (tr_end r) = true) /\
              (range0 = None <-> truthy timeRangeStart && truthy timeRangeEnd = false) /\
              fetchCalendarObjects caldav calendar0 range0 = Ok objs /\
              out = map toListed (firstn limit (orNone objs)) /\
              (List.length out <= limit)%nat).
  { intros range Haware Hnone.
    destruct (fetchCalendarObjects caldav calendar range) as [objs|st] eqn:Hf;
      cbn [mapThrow]; [|discriminate].
    intros [= <- <-]. exists calendars, calendar, range, objs. rewrite Hurl.
    split; [reflexivity|]. split; [exact Hc|]. split; [reflexivity|].
    split; [exact Haware|]. split; [exact Hnone|]. split; [exact Hf|].
    split; [reflexivity|].
    rewrite length_map, length_firstn. apply Nat.le_min_l. }
  destruct (truthy timeRangeStart && truthy timeRangeEnd) eqn:Hboth.
  - cbv zeta.
    destruct (ensureOffsetAware H (orEmpty timeRangeStart) tz) as [start|e] eqn:Hs;
      cbn [mapThrow]; [|discriminate].
    destruct (ensureOffsetAware H (orEmpty timeRangeEnd) tz) as [end_|e] eqn:He;
      cbn [mapThrow]; [|discriminate].
    apply Hend.
    + intros r [= <-]. cbn [tr_start tr_end].
      split; eapply ensureOffsetAware_aware; eassumption.
    + split; discriminate.
  - apply Hend; [discriminate | now split].
Qed.

(** *** An example *)

Definition team : calendar :=
  {| Dav.cal_url := "https://caldav.fastmail.com/dav/calendars/user/me/team/";
     Dav.cal_displayName := Some "Team";
     Dav.cal_timezone := Some (join CRLF ["BEGIN:VTIMEZONE"; "TZID:Asia/Tokyo"; "END:VTIMEZONE"]) |}.

Definition object (name : string) : calendarObject :=
  {| o_url := cal_url team ++ name; o_etag := None; o_data := None |}.

Definition teamServer : client :=
  {| login := Ok tt;
     fetchCalendars := Ok (Some [team]);
     fetchCalendarObjects := fun _ _ => Ok (Some [object "a.ics"; object "b.ics"; object "c.ics"]) |}.

Lemma one_sided_range_is_dropped_witness :
  run (list_calendar_events utcHost teamServer (cal_url team) (Some "next week") None 2)
  = (Ok [toListed (object "a.ics"); toListed (object "b.ics")],
     [Login; FetchCalendars; FetchCalendarObjects (cal_url team) None]).
Proof.
  rewrite (proj1 (one_sided_range_is_dropped utcHost teamServer (cal_url team)
                    (Some "next week") None 2 eq_refl)).
  reflexivity.
Defined.

Lemma listing_is_a_bounded_prefix_witness :
  exists range,
    snd (run (list_calendar_events utcHost teamServer (cal_url team)
                (Some "2026-03-01T09:00:00") (Some "2026-03-02T09:00:00+09:00") 2))
    = [Login; FetchCalendars; FetchCalendarObjects (cal_url team) range] /\
    range = Some {| tr_start := "2026-03-01T00:00:00.000Z";
                    tr_end := "2026-03-02T09:00:00+09:00" |} /\
    (forall r, range = Some r ->
       hasTimezoneOffset (tr_start r) = true /\ hasTimezoneOffset (tr_end r) = true).
Proof.
  destruct (run (list_calendar_events utcHost teamServer (cal_url team)
                   (Some "2026-03-01T09:00:00") (Some "2026-03-02T09:00:00+09:00") 2))
    as [[out|e] log] eqn:Hrun; [|vm_compute in Hrun; discriminate].
  destruct (listing_is_a_bounded_prefix _ _ _ _ _ _ _ _ Hrun)
    as [calendars [calendar [range [objs [_ [_ [Hlog [Haware _]]]]]]]].
  exists range. split; [exact Hlog|]. split; [|exact Haware].
  vm_compute in Hrun. injection Hrun as _ Hl. rewrite Hlog in Hl.
  now injection Hl as ->.
Defined.

End ListingFacts.
